(** * Intent-driven UI core: reconciliation engine, reference memory, fact
    store, suggestion engine and orchestrator

    A shallow embedding of the TypeScript sources
    - [lib/ui-state-engine.ts]      (module [UI]),
    - [lib/intent-memory.ts]        (module [Memory]),
    - [lib/data-store.ts]           (module [Store]),
    - [lib/predictive-actions.ts]   (module [Predict]),
    - [lib/ui-orchestrator.ts]      (module [Orchestrator]),
    followed by the properties established about them.

    Modelling conventions.
    - A JavaScript string is the [string] of the bytes of its UTF-8
      encoding. [trim] removes JavaScript's white space and line
      terminators; [toLowerCase] maps the ASCII capitals, which is what
      JavaScript does on ASCII text.
    - JavaScript numbers are exact rationals ([Q]), kept in lowest terms:
      the doubles of the code wherever its arithmetic is exact, as on
      integers below 2^53. Counters ([version], [nextOrder], [order])
      and time stamps are integers ([Z]).
    - [Record<string, T>] objects that are enumerated ([Object.keys],
      [Object.values], [Object.entries]) are association lists in
      insertion order, the order in which JavaScript lists keys that
      are not array indices. A lookup [r[k]] in an object also finds
      the members inherited from [Object.prototype] ([inherited]); the
      reducer of the engine is modelled at these names too, the tables
      of the fact store and the maps handed to the memory at the other
      names. [Map]s and [Set]s that are only probed by key are [gmap]s
      and [gset]s, and so are the props of a component.
    - [Date.now()] is an explicit argument [now] of every operation that
      reads the clock; the clock does not advance during one operation.
    - The optional attachment of a memory to the engine
      ([setIntentMemory] and the methods that forward to it) is not used
      by the orchestrator, which works on the singletons, and is left
      out. *)

From Stdlib Require Import Ascii QArith Qabs Qround.
From stdpp Require Import gmap strings list fin_maps pretty sorting.

Set Warnings "-register-all".
Set Default Proof Using "Type".

Local Open Scope string_scope.
Local Open Scope list_scope.
Local Open Scope Z_scope.

(** ** Strings *)

Module Str.

Definition is_upper (c : ascii) : bool :=
  let n := nat_of_ascii c in (65 <=? n)%nat && (n <=? 90)%nat.

Definition lower_char (c : ascii) : ascii :=
  if is_upper c then ascii_of_nat (nat_of_ascii c + 32) else c.

(** [s.toLowerCase()] *)
Fixpoint toLowerCase (s : string) : string :=
  match s with
  | EmptyString => EmptyString
  | String c s' => String (lower_char c) (toLowerCase s')
  end.

(** [s.startsWith(p)] *)
Definition startsWith (s p : string) : bool := String.prefix p s.

(** [s.includes(sub)] *)
Fixpoint includes (s sub : string) : bool :=
  match s with
  | EmptyString => startsWith EmptyString sub
  | String _ s' => startsWith s sub || includes s' sub
  end.

(** White space. The bytes of a string are those of its UTF-8 encoding,
    in which the characters [trim] removes (JavaScript's white space and
    line terminators) take one, two or three bytes. *)

(** U+0009 to U+000D and U+0020 *)
Definition is_space1 (a : ascii) : bool :=
  let n := nat_of_ascii a in
  ((9 <=? n) && (n <=? 13) || (n =? 32))%nat.

(** U+00A0 *)
Definition is_space2 (a b : ascii) : bool :=
  ((nat_of_ascii a =? 194) && (nat_of_ascii b =? 160))%nat.

(** U+1680, U+2000 to U+200A, U+2028, U+2029, U+202F, U+205F, U+3000
    and U+FEFF *)
Definition is_space3 (a b c : ascii) : bool :=
  let x := nat_of_ascii a in
  let y := nat_of_ascii b in
  let z := nat_of_ascii c in
  ((x =? 225) && (y =? 154) && (z =? 128)
   || (x =? 226) && (y =? 128)
      && ((128 <=? z) && (z <=? 138) || (z =? 168) || (z =? 169) || (z =? 175))
   || (x =? 226) && (y =? 129) && (z =? 159)
   || (x =? 227) && (y =? 128) && (z =? 128)
   || (x =? 239) && (y =? 187) && (z =? 191))%nat.

(** [s.trimStart()] *)
Fixpoint trimStart (s : string) : string :=
  match s with
  | EmptyString => EmptyString
  | String a s1 =>
      if is_space1 a then trimStart s1 else
      match s1 with
      | EmptyString => s
      | String b s2 =>
          if is_space2 a b then trimStart s2 else
          match s2 with
          | EmptyString => s
          | String c s3 => if is_space3 a b c then trimStart s3 else s
          end
      end
  end.

(** Every character of [s] is white space (in particular, [s] may be
    empty); [blank] says the same by cases. *)
Definition all_space (s : string) : bool := String.eqb (trimStart s) "".

Inductive blank : string → Prop :=
| blank0 : blank ""
| blank1 a s : is_space1 a = true → blank s → blank (String a s)
| blank2 a b s : is_space2 a b = true → blank s → blank (String a (String b s))
| blank3 a b c s :
    is_space3 a b c = true → blank s → blank (String a (String b (String c s))).

(** [s.trimEnd()]: the text up to the point from which only white
    space follows. *)
Fixpoint trimEnd (s : string) : string :=
  match s with
  | EmptyString => EmptyString
  | String c s' => if all_space s then EmptyString else String c (trimEnd s')
  end.

(** [s.trim()] *)
Definition trim (s : string) : string := trimEnd (trimStart s).

(** Every character of [s] is an ASCII character. *)
Definition is_ascii (s : string) : bool :=
  forallb (λ c, (nat_of_ascii c <? 128)%nat) (String.list_ascii_of_string s).

(** The string with the given bytes. *)
Definition of_bytes (l : list nat) : string :=
  String.string_of_list_ascii (map ascii_of_nat l).

End Str.

(** ** JavaScript values

    The values stored in component props and in the fact store. A
    callback installed by the orchestrator is recorded by the registry
    entry it was taken from. *)

Inductive handler :=
| HFormSubmit
| HModalConfirm (modalId : string)
| HModalCancel (modalId : string)
| HEmptyStateAction
| HPredictAction
| HDismissPredictions
| HExport.

Inductive value :=
| VNull
| VBool (b : bool)
| VNum (q : Q)
| VStr (s : string)
| VArr (items : list value)
| VObj (fields : gmap string value)
| VFun (h : handler).

(** An object literal [{ k1: v1, ..., kn: vn }]. *)
Definition obj (fields : list (string * value)) : gmap string value :=
  list_to_map (reverse fields).

(** Object spread [{ ...a, ...b }]: the fields of [b] win. *)
Definition spread (a b : gmap string value) : gmap string value := b ∪ a.

(** ** Objects used as records

    A [Record<string, T>] with its keys in insertion order. *)

Section records.
Context {T : Type}.

(** [r[k]] *)
Fixpoint rec_get (r : list (string * T)) (k : string) : option T :=
  match r with
  | [] => None
  | (k', v) :: r' => if String.eqb k' k then Some v else rec_get r' k
  end.

(** [r[k] = v]: an existing key keeps its place, a new key goes last. *)
Fixpoint rec_set (r : list (string * T)) (k : string) (v : T) : list (string * T) :=
  match r with
  | [] => [(k, v)]
  | (k', v') :: r' =>
      if String.eqb k' k then (k', v) :: r' else (k', v') :: rec_set r' k v
  end.

(** [delete r[k]] *)
Fixpoint rec_delete (r : list (string * T)) (k : string) : list (string * T) :=
  match r with
  | [] => []
  | (k', v) :: r' =>
      if String.eqb k' k then r' else (k', v) :: rec_delete r' k
  end.
End records.

(** The names every object inherits from [Object.prototype]. For such a
    name [k], [r[k]] is the inherited member, which is truthy, when [r]
    does not hold [k] itself. *)
Definition inherited_names : list string :=
  ["constructor"; "__defineGetter__"; "__defineSetter__"; "hasOwnProperty";
   "__lookupGetter__"; "__lookupSetter__"; "isPrototypeOf";
   "propertyIsEnumerable"; "toString"; "valueOf"; "__proto__";
   "toLocaleString"].

Definition inherited (k : string) : bool := existsb (String.eqb k) inherited_names.

(** ** Stable sorting

    [Array.prototype.sort] is stable; [before x y] says that the
    comparator puts [x] strictly before [y]. An element is inserted
    behind the elements that go strictly before it and in front of all
    others, so equal elements keep their relative order. *)

Section stable_sort.
Context {A : Type} (before : A → A → bool).

Fixpoint sort_insert (a : A) (l : list A) : list A :=
  match l with
  | [] => [a]
  | y :: ys => if before y a then y :: sort_insert a ys else a :: y :: ys
  end.

Fixpoint stable_sort (l : list A) : list A :=
  match l with
  | [] => []
  | a :: l' => sort_insert a (stable_sort l')
  end.
End stable_sort.

(** ** The reconciliation engine ([ui-state-engine.ts]) *)

Module UI.

(** [interface UIComponent]. A descriptor carries all five fields;
    [comp_order = None] is [order: undefined]. *)
Record UIComponent := mkComponent {
  comp_id : string;
  comp_type : string;
  comp_props : gmap string value;
  comp_visible : bool;
  comp_order : option Z;
}.

(** [type UIState = Record<string, UIComponent>] *)
Definition UIState := list (string * UIComponent).

Definition st_get (s : UIState) (id : string) : option UIComponent := rec_get s id.
Definition st_set (s : UIState) (id : string) (c : UIComponent) : UIState := rec_set s id c.
Definition st_delete (s : UIState) (id : string) : UIState := rec_delete s id.

(** [Object.keys(state)] and [Object.values(state)] *)
Definition st_keys (s : UIState) : list string := s.*1.
Definition st_values (s : UIState) : list UIComponent := s.*2.

(** [type UIAction] *)
Inductive UIAction :=
| Render (component : UIComponent)
| Remove (id : string)
| Update (id : string) (props : gmap string value)
| Show (id : string)
| Hide (id : string)
| SetOrder (id : string) (order : Z)
| Batch (actions : list UIAction).

(** [interface UIStateResult] *)
Record UIStateResult := mkResult {
  res_state : UIState;
  added : list string;
  removed : list string;
  updated : list string;
  visibilityChanged : list string;
}.

Definition initResult (s : UIState) : UIStateResult :=
  mkResult s [] [] [] [].

(** The four [push(...subResult.x)] of the batch loop. *)
Definition pushAll (result subResult : UIStateResult) : UIStateResult :=
  mkResult (res_state result)
           (added result ++ added subResult)
           (removed result ++ removed subResult)
           (updated result ++ updated subResult)
           (visibilityChanged result ++ visibilityChanged subResult).

Definition with_visible (c : UIComponent) (v : bool) : UIComponent :=
  mkComponent (comp_id c) (comp_type c) (comp_props c) v (comp_order c).

Definition with_order (c : UIComponent) (o : option Z) : UIComponent :=
  mkComponent (comp_id c) (comp_type c) (comp_props c) (comp_visible c) o.

Definition with_props (c : UIComponent) (p : gmap string value) : UIComponent :=
  mkComponent (comp_id c) (comp_type c) p (comp_visible c) (comp_order c).

(** [{ ...existing, ...component, id: existing.id }], for a descriptor
    that carries its five fields, as those of [defineComponent] and of
    the orchestrator do: its [order], also when [undefined], replaces
    the stored one. *)
Definition merge_component (existing component : UIComponent) : UIComponent :=
  mkComponent (comp_id existing) (comp_type component) (comp_props component)
              (comp_visible component) (comp_order component).

(** [private reduce(state, action)]. The method reads and advances the
    field [nextOrder], which is threaded through here.

    The guards [if (state[id])] also pass at an inherited name the tree
    does not hold, where [state[id]] is the inherited member. [remove]
    then deletes nothing and reports the id; [hide] finds no truthy
    [visible] and does nothing. [render], [update], [show] and
    [setOrder] report the id; under it they store an object without the
    fields of a [UIComponent] (for [__proto__], they replace the
    prototype), which the tree of the model, a record of components,
    does not keep: after such an edit the model tells the diff lists
    and the counter, and the tree apart from that entry. [typed_edit]
    below excludes these edits. *)
Fixpoint reduce (nextOrder : Z) (state : UIState) (action : UIAction)
  : Z * UIStateResult :=
  match action with
  | Batch actions =>
      (fix loop (n : Z) (currentState : UIState) (result : UIStateResult)
           (l : list UIAction) {struct l} : Z * UIStateResult :=
         match l with
         | [] =>
             (n, mkResult currentState (added result) (removed result)
                          (updated result) (visibilityChanged result))
         | subAction :: l' =>
             let '(n', subResult) := reduce n currentState subAction in
             loop n' (res_state subResult) (pushAll result subResult) l'
         end) nextOrder state (initResult state) actions
  | Render component =>
      match st_get state (comp_id component) with
      | Some existing =>
          (nextOrder,
           mkResult (st_set state (comp_id component)
                       (merge_component existing component))
                    [] [] [comp_id component] [])
      | None =>
          if inherited (comp_id component)
          then (nextOrder, mkResult state [] [] [comp_id component] [])
          else
            let '(o, n') :=
              match comp_order component with
              | Some o => (o, nextOrder)
              | None => (nextOrder, nextOrder + 1)
              end in
            (n',
             mkResult (st_set state (comp_id component)
                         (with_order component (Some o)))
                      [comp_id component] [] [] [])
      end
  | Remove id =>
      match st_get state id with
      | Some _ => (nextOrder, mkResult (st_delete state id) [] [id] [] [])
      | None =>
          if inherited id
          then (nextOrder, mkResult state [] [id] [] [])
          else (nextOrder, initResult state)
      end
  | Update id props =>
      match st_get state id with
      | Some existing =>
          (nextOrder,
           mkResult (st_set state id
                       (with_props existing (spread (comp_props existing) props)))
                    [] [] [id] [])
      | None =>
          if inherited id
          then (nextOrder, mkResult state [] [] [id] [])
          else (nextOrder, initResult state)
      end
  | Show id =>
      match st_get state id with
      | Some c =>
          if negb (comp_visible c)
          then (nextOrder,
                mkResult (st_set state id (with_visible c true)) [] [] [] [id])
          else (nextOrder, initResult state)
      | None =>
          if inherited id
          then (nextOrder, mkResult state [] [] [] [id])
          else (nextOrder, initResult state)
      end
  | Hide id =>
      match st_get state id with
      | Some c =>
          if comp_visible c
          then (nextOrder,
                mkResult (st_set state id (with_visible c false)) [] [] [] [id])
          else (nextOrder, initResult state)
      | None => (nextOrder, initResult state)
      end
  | SetOrder id order =>
      match st_get state id with
      | Some c =>
          (nextOrder,
           mkResult (st_set state id (with_order c (Some order))) [] [] [id] [])
      | None =>
          if inherited id
          then (nextOrder, mkResult state [] [] [id] [])
          else (nextOrder, initResult state)
      end
  end.

(** The edits after which the tree holds components only: no [render],
    [update], [show] or [setOrder] at an inherited name. *)
Fixpoint typed_edit (action : UIAction) : bool :=
  match action with
  | Render component => negb (inherited (comp_id component))
  | Update id _ | Show id | SetOrder id _ => negb (inherited id)
  | Remove _ | Hide _ => true
  | Batch actions => forallb typed_edit actions
  end.

(** [class UIStateEngine]. Listeners are observers identified by a
    number; [eng_delivered] is the trace of the notifications handed to
    them, oldest first. *)
Record UIStateEngine := mkEngine {
  eng_state : UIState;
  eng_listeners : list nat;
  eng_nextOrder : Z;
  eng_version : Z;
  eng_delivered : list (nat * UIStateResult);
}.

(** [new UIStateEngine()] *)
Definition newEngine : UIStateEngine := mkEngine [] [] 0 0 [].

(** [private notify(result)] *)
Definition notify (listeners : list nat) (result : UIStateResult)
  : list (nat * UIStateResult) :=
  map (λ l, (l, result)) listeners.

Definition getVersion (e : UIStateEngine) : Z := eng_version e.
Definition getState (e : UIStateEngine) : UIState := eng_state e.

(** [getComponent(id)], for an id the tree holds and for an id that is
    not inherited; at an inherited name the tree does not hold the
    method returns an empty object, which is no component. *)
Definition getComponent (e : UIStateEngine) (id : string) : option UIComponent :=
  st_get (eng_state e) id.

(** [has(id)], that is [id in this.state] *)
Definition has (e : UIStateEngine) (id : string) : bool :=
  bool_decide (is_Some (st_get (eng_state e) id)) || inherited id.

(** The props the engine holds for [id]. *)
Definition props_of (e : UIStateEngine) (id : string) : option (gmap string value) :=
  comp_props <$> getComponent e id.

(** [isVisible(id)] *)
Definition isVisible (e : UIStateEngine) (id : string) : bool :=
  default false (comp_visible <$> st_get (eng_state e) id).

(** [(a, b) => (a.order ?? 0) - (b.order ?? 0)] is negative. *)
Definition order_before (a b : UIComponent) : bool :=
  default 0 (comp_order a) <? default 0 (comp_order b).

Definition getVisibleComponents (e : UIStateEngine) : list UIComponent :=
  stable_sort order_before (filter (λ c, comp_visible c = true) (st_values (eng_state e))).

(** [dispatch(action)] *)
Definition dispatch (e : UIStateEngine) (action : UIAction)
  : UIStateEngine * UIStateResult :=
  let '(n', result) := reduce (eng_nextOrder e) (eng_state e) action in
  (mkEngine (res_state result) (eng_listeners e) n' (eng_version e + 1)
            (eng_delivered e ++ notify (eng_listeners e) result),
   result).

(** [dispatchAll(actions)] *)
Definition dispatchAll (e : UIStateEngine) (actions : list UIAction)
  : UIStateEngine * UIStateResult :=
  dispatch e (Batch actions).

(** [subscribe(listener)] *)
Definition subscribe (e : UIStateEngine) (listener : nat) : UIStateEngine :=
  mkEngine (eng_state e)
           (if bool_decide (listener ∈ eng_listeners e)
            then eng_listeners e else eng_listeners e ++ [listener])
           (eng_nextOrder e) (eng_version e) (eng_delivered e).

(** The function [subscribe] returns. *)
Definition unsubscribe (e : UIStateEngine) (listener : nat) : UIStateEngine :=
  mkEngine (eng_state e) (List.filter (λ l, negb (l =? listener)%nat) (eng_listeners e))
           (eng_nextOrder e) (eng_version e) (eng_delivered e).

(** [reset()] *)
Definition reset (e : UIStateEngine) : UIStateEngine * UIStateResult :=
  let result := mkResult [] [] (st_keys (eng_state e)) [] [] in
  (mkEngine [] (eng_listeners e) (eng_nextOrder e) (eng_version e + 1)
            (eng_delivered e ++ notify (eng_listeners e) result),
   result).

(** The edits the reducer ignores: [update], [remove] and [show] of an
    id the tree does not hold and no object inherits, [hide] of an id
    the tree does not hold, [show] of a component that is visible and
    [hide] of one that is hidden. *)
Inductive ignored_edit (s : UIState) : UIAction → Prop :=
| ignored_update id props :
    st_get s id = None → inherited id = false → ignored_edit s (Update id props)
| ignored_remove id :
    st_get s id = None → inherited id = false → ignored_edit s (Remove id)
| ignored_show id :
    st_get s id = None → inherited id = false → ignored_edit s (Show id)
| ignored_hide id : st_get s id = None → ignored_edit s (Hide id)
| ignored_show_visible id c :
    st_get s id = Some c → comp_visible c = true → ignored_edit s (Show id)
| ignored_hide_hidden id c :
    st_get s id = Some c → comp_visible c = false → ignored_edit s (Hide id).

(** A run of successive [dispatch] calls, one per action. *)
Definition dispatch_each (e : UIStateEngine) (actions : list UIAction)
  : UIStateEngine :=
  fold_left (λ e' a, (dispatch e' a).1) actions e.

End UI.

(** ** The regular expressions of [intent-memory.ts]

    A backtracking matcher for the fragment the source uses: literals,
    [\w+], [\b], a greedy optional group, alternation and sequence. *)

Module Regex.

Inductive re :=
| Lit (s : string)
| WordPlus
| Boundary
| Opt (r : re)
| Alt (r1 r2 : re)
| Seq (r1 r2 : re).

(** [\w] is [[A-Za-z0-9_]]. *)
Definition is_word (c : ascii) : bool :=
  let n := nat_of_ascii c in
  ((48 <=? n) && (n <=? 57) || (65 <=? n) && (n <=? 90)
   || (97 <=? n) && (n <=? 122) || (n =? 95))%nat.

Definition is_word_opt (c : option ascii) : bool :=
  match c with Some c => is_word c | None => false end.

Definition next_char (s : string) : option ascii :=
  match s with EmptyString => None | String c _ => Some c end.

Definition last_char (prev : option ascii) (s : string) : option ascii :=
  match String.get (String.length s - 1) s with
  | Some c => Some c
  | None => prev
  end.

Fixpoint drop_string (n : nat) (s : string) : string :=
  match n, s with
  | S n', String _ s' => drop_string n' s'
  | _, _ => s
  end.

(** The continuation receives the character before the current
    position, the rest of the text and the number of characters
    consumed so far; [None] asks for backtracking. *)
Definition cont := option ascii → string → nat → option nat.

(** The tail of a greedy [\w+]: longest run first, then shorter ones. *)
Fixpoint word_run (s : string) (last : ascii) (n : nat) (k : cont) : option nat :=
  match s with
  | String c s' =>
      if is_word c then
        match word_run s' c (S n) k with
        | Some r => Some r
        | None => k (Some last) s n
        end
      else k (Some last) s n
  | EmptyString => k (Some last) s n
  end.

Fixpoint run (r : re) (prev : option ascii) (s : string) (n : nat) (k : cont)
  : option nat :=
  match r with
  | Lit lit =>
      if String.prefix lit s
      then k (last_char prev lit) (drop_string (String.length lit) s)
             (n + String.length lit)%nat
      else None
  | WordPlus =>
      match s with
      | String c s' => if is_word c then word_run s' c (S n) k else None
      | EmptyString => None
      end
  | Boundary =>
      if xorb (is_word_opt prev) (is_word_opt (next_char s)) then k prev s n else None
  | Opt r1 =>
      match run r1 prev s n k with
      | Some x => Some x
      | None => k prev s n
      end
  | Alt r1 r2 =>
      match run r1 prev s n k with
      | Some x => Some x
      | None => run r2 prev s n k
      end
  | Seq r1 r2 => run r1 prev s n (λ p s' n', run r2 p s' n' k)
  end.

(** Length of the match of [r] that starts at the current position. *)
Definition match_at (r : re) (prev : option ascii) (s : string) : option nat :=
  run r prev s 0%nat (λ _ _ n, Some n).

(** [text.match(/r/g)] for an [r] that matches no empty string: the
    matches from left to right, each search resuming where the
    previous match ended. [skip] counts the characters still covered by
    the previous match. *)
Fixpoint scan (r : re) (prev : option ascii) (s : string) (skip : nat)
  : list string :=
  match s with
  | EmptyString => []
  | String c s' =>
      match skip with
      | S skip' => scan r (Some c) s' skip'
      | O =>
          match match_at r prev s with
          | Some (S n) => String.substring 0 (S n) s :: scan r (Some c) s' n
          | _ => scan r (Some c) s' 0%nat
          end
      end
  end.

Definition match_all (r : re) (text : string) : list string :=
  scan r None text 0%nat.

End Regex.

(** [[...new Set(l)]]: the first occurrence of every element, in order. *)
Fixpoint unique_from (seen l : list string) : list string :=
  match l with
  | [] => []
  | x :: l' =>
      if bool_decide (x ∈ seen) then unique_from seen l'
      else x :: unique_from (x :: seen) l'
  end.

Definition unique (l : list string) : list string := unique_from [] l.

(** A string used as a condition: the empty string is falsy. *)
Definition truthy (s : option string) : bool :=
  match s with
  | Some s => negb (String.eqb s "")
  | None => false
  end.

(** ** The reference memory ([intent-memory.ts]) *)

Module Memory.

(** [interface Intent]; the opaque [data] payload is never read and is
    left out. *)
Record Intent := mkIntent {
  intent_id : string;
  intent_timestamp : Z;
  intent_input : string;
  intent_type : string;
  componentIds : list string;
}.

(** [interface ComponentReference] *)
Record ComponentReference := mkReference {
  ref_key : string;
  ref_componentId : string;
  ref_timestamp : Z;
  ref_description : option string;
}.

(** [class IntentMemoryEngine] *)
Record IntentMemoryEngine := mkMemory {
  intents : list Intent;
  references : gmap string ComponentReference;
  currentIntentId : option string;
  maxIntents : nat;
  maxAge : Z;
}.

(** [new IntentMemoryEngine(options)] *)
Definition newMemory (optMaxIntents : option nat) (optMaxAge : option Z)
  : IntentMemoryEngine :=
  mkMemory [] ∅ None (default 50%nat optMaxIntents)
           (default (60 * 60 * 1000) optMaxAge).

(** [l.slice(-n)]; [slice(-0)] is [slice(0)], the whole array. *)
Definition slice_last {A} (n : nat) (l : list A) : list A :=
  match n with
  | O => l
  | _ => drop (length l - n) l
  end.

Definition expired_reference (now age : Z) (r : ComponentReference) : bool :=
  now - ref_timestamp r >? age.

(** [private cleanup()] *)
Definition cleanup (now : Z) (m : IntentMemoryEngine) : IntentMemoryEngine :=
  let fresh :=
    filter (λ i, now - intent_timestamp i < maxAge m) (intents m) in
  let kept :=
    if (maxIntents m <? length fresh)%nat
    then slice_last (maxIntents m) fresh else fresh in
  mkMemory kept
           (filter (λ kr, expired_reference now (maxAge m) kr.2 = false)
                   (references m))
           (currentIntentId m) (maxIntents m) (maxAge m).

(** [setReference(key, componentId, timestamp?, description?)] *)
Definition setReference (now : Z) (m : IntentMemoryEngine) (key componentId : string)
    (timestamp : option Z) (description : option string) : IntentMemoryEngine :=
  let k := Str.toLowerCase key in
  mkMemory (intents m)
           (<[k := mkReference k componentId (default now timestamp) description]>
              (references m))
           (currentIntentId m) (maxIntents m) (maxAge m).

(** [this.intents[this.intents.length - 2]] *)
Definition previous_intent (l : list Intent) : option Intent :=
  if (length l <? 2)%nat then None else l !! (length l - 2)%nat.

(** [recordIntent(intent)]; [random] is the text produced by
    [Math.random().toString(36).slice(2, 9)]. *)
Definition recordIntent (now : Z) (random : string) (m : IntentMemoryEngine)
    (input type : string) (ids : list string) : IntentMemoryEngine * Intent :=
  let newIntent :=
    mkIntent ("intent_" +:+ pretty now +:+ "_" +:+ random) now input type ids in
  let m1 := cleanup now m in
  let m2 := mkMemory (intents m1 ++ [newIntent]) (references m1)
                     (Some (intent_id newIntent)) (maxIntents m1) (maxAge m1) in
  let m3 :=
    match ids with
    | first :: _ => setReference now m2 "this" first (Some now) None
    | [] => m2
    end in
  let m4 :=
    match previous_intent (intents m3) with
    | Some prevIntent =>
        match componentIds prevIntent with
        | first :: _ =>
            setReference now m3 "that" first (Some (intent_timestamp prevIntent)) None
        | [] => m3
        end
    | None => m3
    end in
  (m4, newIntent).

(** The fallback of [resolveReference]: the first intent one of whose
    component ids contains the key. *)
Definition matchingIntent (l : list Intent) (lowerKey : string) : option Intent :=
  List.find
    (λ intent,
       existsb (λ id, Str.includes (Str.toLowerCase id) lowerKey)
               (componentIds intent))
    l.

(** [resolveReference(key)] *)
Definition resolveReference (m : IntentMemoryEngine) (key : string) : option string :=
  let lowerKey := Str.toLowerCase key in
  match references m !! lowerKey with
  | None =>
      match matchingIntent (intents m) lowerKey with
      | Some intent => head (componentIds intent)
      | None => None
      end
  | Some ref => Some (ref_componentId ref)
  end.

Import Regex.

(** The four patterns of [extractReferences]. *)
Definition patterns : list re :=
  [ Seq Boundary (Seq (Lit "this") Boundary);
    Seq Boundary (Seq (Lit "that") Boundary);
    Seq Boundary (Seq (Lit "the ") (Seq (Opt (Lit "above ")) (Seq WordPlus Boundary)));
    Seq Boundary
        (Seq WordPlus (Seq (Lit " ") (Seq (Alt (Lit "above") (Lit "below")) Boundary))) ].

(** [extractReferences(text)]; the patterns run on [text] as given. *)
Definition extractReferences (text : string) : list string :=
  unique (concat (map (λ pattern, match_all pattern text) patterns)).

(** [ref.toLowerCase().replace(/^(the |above |below )/i, "").trim()] *)
Definition cleanReference (ref : string) : string :=
  let l := Str.toLowerCase ref in
  Str.trim
    (if String.prefix "the " l then drop_string 4 l
     else if String.prefix "above " l then drop_string 6 l
     else if String.prefix "below " l then drop_string 6 l
     else l).

(** [resolveReferencesInText(text, componentMap)] *)
Definition resolveReferencesInText (m : IntentMemoryEngine) (text : string)
    (componentMap : list (string * string)) : list string :=
  unique
    (concat
       (map (λ ref,
               let cleanRef := cleanReference ref in
               let componentId := resolveReference m cleanRef in
               if truthy componentId then option_list componentId
               else if truthy (rec_get componentMap cleanRef)
                    then option_list (rec_get componentMap cleanRef)
                    else [])
            (extractReferences text))).

(** [clear()] *)
Definition clear (m : IntentMemoryEngine) : IntentMemoryEngine :=
  mkMemory [] ∅ None (maxIntents m) (maxAge m).

(** The helper [indexComponents(components)] on the singleton. *)
Definition indexComponents (now : Z) (m : IntentMemoryEngine)
    (components : list UI.UIComponent) : IntentMemoryEngine :=
  let m1 :=
    fold_left
      (λ m' comp,
         let refKey := Str.toLowerCase (UI.comp_type comp) in
         if truthy (resolveReference m' refKey) then m'
         else setReference now m' refKey (UI.comp_id comp) None None)
      components m in
  let sortedComps := stable_sort UI.order_before components in
  let m2 :=
    match head sortedComps with
    | Some c => setReference now m1 "first" (UI.comp_id c) None None
    | None => m1
    end in
  match last sortedComps with
  | Some c => setReference now m2 "last" (UI.comp_id c) None None
  | None => m2
  end.

End Memory.

(** ** The JavaScript runtime

    Conversions between numbers and text and the wall-clock dates read
    while the modules load are supplied by the runtime. *)

Class Runtime := {
  (** [String(x)] for a number [x] *)
  number_to_string : Q → string;
  (** [x.toFixed(1)] *)
  number_toFixed1 : Q → string;
  (** [Number(s)] for a string [s]; [None] is [NaN] *)
  number_of_string : string → option Q;
  (** [String(f)] for a function [f] *)
  function_to_string : handler → string;
  (** [new Date().toISOString().slice(0, 7)] when [data-store.ts] loads *)
  loaded_currentMonth : string;
  (** the same, thirty days earlier *)
  loaded_lastMonth : string;
}.

(** The runtime prints integers in decimal notation (below [1e21],
    where JavaScript switches to exponent notation). *)
Definition prints_integers `{Runtime} : Prop :=
  ∀ z : Z, Z.abs z < 10 ^ 21 → number_to_string (inject_Z z) = pretty z.

Definition num (z : Z) : value := VNum (inject_Z z).

(** [typeof v === "number" ? v : null] and [typeof v === "string" ? v : null] *)
Definition as_number (v : value) : option Q :=
  match v with VNum q => Some q | _ => None end.
Definition as_string (v : value) : option string :=
  match v with VStr s => Some s | _ => None end.

(** [v ?? d] *)
Definition nullish (v d : value) : value :=
  match v with VNull => d | _ => v end.

(** [`${v}`] *)
Fixpoint to_string `{Runtime} (v : value) : string :=
  match v with
  | VNull => "null"
  | VBool b => if b then "true" else "false"
  | VNum q => number_to_string q
  | VStr s => s
  | VArr items =>
      String.concat ","
        (map (λ x, match x with VNull => "" | _ => to_string x end) items)
  | VObj _ => "[object Object]"
  | VFun h => function_to_string h
  end.

(** ** The fact store ([data-store.ts]) *)

Module Store.

(** [type DataSource] *)
Inductive DataSource := Mock | User | Computed.

#[global] Instance DataSource_eq_dec : EqDecision DataSource.
Proof. solve_decision. Defined.

(** [interface DataEntry] *)
Record DataEntry := mkEntry {
  entry_value : value;
  entry_source : DataSource;
  entry_timestamp : Z;
}.

(** [class DataStore] *)
Record DataStore := mkStore {
  data : gmap string DataEntry;
  userProvidedKeys : gset string;
}.

(** [USER_REQUIRED_FIELDS] *)
Definition USER_REQUIRED_FIELDS : gset string :=
  {[ "salary.lastMonth"; "salary.currentMonth"; "salary.previousMonth";
     "user.firstName"; "user.lastName"; "user.email"; "user.phone" ]}.

(** [COMPUTABLE_FIELDS]; a field computes from the store's
    [getNumber]. This table, [MOCK_DATA], [COMPONENT_DATA_ACCESS] and
    the mapping of [mapFormFieldToDataKey] are object literals: they
    are modelled at the keys that are not inherited names, at which a
    lookup finds what the literal holds and nothing else. *)
Definition COMPUTABLE_FIELDS (key : string)
  : option ((string → option Q) → value) :=
  if String.eqb key "salary.change" then
    Some (λ getNumber,
            match getNumber "salary.currentMonth", getNumber "salary.lastMonth" with
            | Some current, Some last => VNum (Qred (current - last))
            | _, _ => VNull
            end)
  else if String.eqb key "salary.changePercent" then
    Some (λ getNumber,
            match getNumber "salary.currentMonth", getNumber "salary.lastMonth" with
            | Some current, Some last =>
                if negb (Qeq_bool last 0)
                then VNum (Qred ((current - last) / last * 100))
                else VNull
            | _, _ => VNull
            end)
  else if String.eqb key "salary.trend" then
    Some (λ getNumber,
            match getNumber "salary.change" with
            | Some change => VStr (if Qle_bool 0 change then "up" else "down")
            | None => VStr "neutral"
            end)
  else if String.eqb key "expenses.total" then
    Some (λ getNumber,
            let get0 k := default 0%Q (getNumber k) in
            VNum (Qred (get0 "expenses.rent" + get0 "expenses.utilities"
                        + get0 "expenses.groceries" + get0 "expenses.transport"
                        + get0 "expenses.entertainment" + get0 "expenses.savings"
                        + get0 "expenses.other")))
  else if String.eqb key "income.total" then
    Some (λ getNumber,
            let get0 k := default 0%Q (getNumber k) in
            VNum (Qred (get0 "income.baseSalary" + get0 "income.bonuses"
                        + get0 "income.overtime" + get0 "income.other")))
  else if String.eqb key "accounts.netWorth" then
    Some (λ getNumber,
            let get0 k := default 0%Q (getNumber k) in
            let assets := (get0 "accounts.checking" + get0 "accounts.savings"
                           + get0 "accounts.investments" + get0 "accounts.retirement")%Q in
            let liabilities := (get0 "debt.creditCard" + get0 "debt.studentLoan"
                                + get0 "debt.carLoan" + get0 "debt.mortgage")%Q in
            VNum (Qred (assets - liabilities)))
  else None.

(** [COMPONENT_DATA_ACCESS[componentType] || []], for a component type
    that is not an inherited name *)
Definition COMPONENT_DATA_ACCESS (componentType : string) : list string :=
  if String.eqb componentType "SummaryCards" then
    ["salary.lastMonth"; "salary.currentMonth"; "salary.change";
     "salary.changePercent"; "salary.trend"; "expenses.total"; "income.total";
     "accounts.netWorth"]
  else if String.eqb componentType "ChartView" then
    ["salary.lastMonth"; "salary.currentMonth"; "income.total"; "expenses.total"]
  else if String.eqb componentType "InsightSummary" then
    ["salary.change"; "salary.changePercent"; "budget.remaining";
     "goals.emergencyFund"; "goals.vacation"]
  else if String.eqb componentType "DateRangePicker" then
    ["time.currentMonth"; "time.lastMonth"]
  else [].

(** [get(key)], with the nesting of computed fields bounded by
    [depth]: a computed field reads other fields one level down. *)
Fixpoint get_at (depth : nat) (s : DataStore) (key : string) : value :=
  match COMPUTABLE_FIELDS key with
  | Some compute =>
      match depth with
      | O => VNull
      | S d => compute (λ k, as_number (get_at d s k))
      end
  | None =>
      match data s !! key with
      | Some entry => entry_value entry
      | None => VNull
      end
  end.

(** [salary.trend] reads [salary.change], which reads stored entries
    only: two levels are all the table needs. *)
Definition get (s : DataStore) (key : string) : value := get_at 2 s key.

Definition getNumber (s : DataStore) (key : string) : option Q :=
  as_number (get s key).

Definition getString (s : DataStore) (key : string) : option string :=
  as_string (get s key).

(** [withSource(key)] *)
Definition withSource (now : Z) (s : DataStore) (key : string) : option DataEntry :=
  match COMPUTABLE_FIELDS key with
  | Some _ => Some (mkEntry (get s key) Computed now)
  | None => data s !! key
  end.

Definition has (s : DataStore) (key : string) : bool :=
  bool_decide (is_Some (data s !! key)) || bool_decide (is_Some (COMPUTABLE_FIELDS key)).

Definition isUserProvided (s : DataStore) (key : string) : bool :=
  bool_decide (key ∈ userProvidedKeys s).

Definition is_null (v : value) : bool :=
  match v with VNull => true | _ => false end.

Definition exists_ (s : DataStore) (key : string) : bool :=
  has s key && negb (is_null (get s key)).

Definition hasSalaryData (s : DataStore) : bool :=
  match getNumber s "salary.lastMonth", getNumber s "salary.currentMonth" with
  | Some _, Some _ => true
  | _, _ => false
  end.

(** [set(key, value)] *)
Definition set (now : Z) (s : DataStore) (key : string) (v : value) : DataStore :=
  mkStore (<[key := mkEntry v User now]> (data s)) ({[key]} ∪ userProvidedKeys s).

(** [setMany(entries)] *)
Definition setMany (now : Z) (s : DataStore) (entries : list (string * value))
  : DataStore :=
  fold_left (λ s' kv, set now s' kv.1 kv.2) entries s.

(** [delete(key)] *)
Definition delete_ (s : DataStore) (key : string) : DataStore :=
  mkStore (delete key (data s)) (userProvidedKeys s ∖ {[key]}).

(** [import(data)] *)
Definition import (s : DataStore) (entries : list (string * DataEntry)) : DataStore :=
  fold_left
    (λ s' ke,
       mkStore (<[ke.1 := ke.2]> (data s'))
               (if decide (entry_source ke.2 = User)
                then {[ke.1]} ∪ userProvidedKeys s' else userProvidedKeys s'))
    entries s.

(** [getSourceSummary()] *)
Definition getSourceSummary (s : DataStore) : nat * nat * nat :=
  (size (filter (λ ke, entry_source ke.2 = Mock) (data s)),
   size (filter (λ ke, entry_source ke.2 = User) (data s)),
   6%nat).

Definition summary_mock (x : nat * nat * nat) : nat := x.1.1.
Definition summary_user (x : nat * nat * nat) : nat := x.1.2.

(** Whatever entry the store holds for [k], it is not mock-sourced. *)
Definition unmocked (s : DataStore) (k : string) : Prop :=
  ∀ e, data s !! k = Some e → entry_source e ≠ Mock.

(** [forComponent(componentType)] *)
Definition forComponent (s : DataStore) (componentType : string)
  : list (string * value) :=
  fold_left
    (λ result key,
       if is_null (get s key) then result else rec_set result key (get s key))
    (COMPONENT_DATA_ACCESS componentType) [].

Section with_runtime.
Context `{Runtime}.

(** [MOCK_DATA] *)
Definition MOCK_DATA : list (string * value) :=
  [ ("salary.lastMonth", num 5000);
    ("salary.currentMonth", num 5500);
    ("salary.previousMonth", num 4800);
    ("income.baseSalary", num 4500);
    ("income.bonuses", num 500);
    ("income.overtime", num 500);
    ("income.other", num 0);
    ("expenses.rent", num 1500);
    ("expenses.utilities", num 200);
    ("expenses.groceries", num 400);
    ("expenses.transport", num 150);
    ("expenses.entertainment", num 200);
    ("expenses.savings", num 1000);
    ("expenses.other", num 300);
    ("budget.total", num 5000);
    ("budget.remaining", num 750);
    ("budget.spent", num 4250);
    ("accounts.checking", num 2500);
    ("accounts.savings", num 15000);
    ("accounts.investments", num 35000);
    ("accounts.retirement", num 25000);
    ("debt.creditCard", num 800);
    ("debt.studentLoan", num 12000);
    ("debt.carLoan", num 8000);
    ("debt.mortgage", num 180000);
    ("goals.emergencyFund", VObj (obj [("target", num 15000); ("current", num 12000)]));
    ("goals.vacation", VObj (obj [("target", num 3000); ("current", num 800)]));
    ("goals.newCar", VObj (obj [("target", num 20000); ("current", num 5000)]));
    ("time.currentMonth", VStr loaded_currentMonth);
    ("time.lastMonth", VStr loaded_lastMonth) ].

(** [private initializeMockData()] *)
Definition initializeMockData (now : Z) (s : DataStore) : DataStore :=
  fold_left
    (λ s' kv,
       if bool_decide (kv.1 ∈ USER_REQUIRED_FIELDS) then s'
       else mkStore (<[kv.1 := mkEntry kv.2 Mock now]> (data s'))
                    (userProvidedKeys s'))
    MOCK_DATA s.

(** [new DataStore()] *)
Definition newStore (now : Z) : DataStore :=
  initializeMockData now (mkStore ∅ ∅).

(** [resetToMock(key)], for a key that is not an inherited name *)
Definition resetToMock (now : Z) (s : DataStore) (key : string)
  : DataStore * bool :=
  match rec_get MOCK_DATA key with
  | Some v =>
      if negb (bool_decide (key ∈ USER_REQUIRED_FIELDS))
      then (mkStore (<[key := mkEntry v Mock now]> (data s))
                    (userProvidedKeys s ∖ {[key]}), true)
      else (s, false)
  | None => (s, false)
  end.

(** [clear()] *)
Definition clear (now : Z) (s : DataStore) : DataStore :=
  initializeMockData now (mkStore ∅ ∅).

(** [processFormData(formData)] on the singleton *)
Definition processFormData (now : Z) (s : DataStore)
    (formData : list (string * value)) : DataStore :=
  fold_left
    (λ s' kv,
       let finalValue :=
         match kv.2 with
         | VStr text =>
             match number_of_string text with
             | Some q => VNum q
             | None => kv.2
             end
         | _ => kv.2
         end in
       set now s' kv.1 finalValue)
    formData s.

(** [mapFormFieldToDataKey(fieldName)] *)
Definition field_mapping : list (string * string) :=
  [ ("lastMonthSalary", "salary.lastMonth");
    ("currentMonthSalary", "salary.currentMonth");
    ("previousMonthSalary", "salary.previousMonth");
    ("baseSalary", "income.baseSalary");
    ("monthlyRent", "expenses.rent");
    ("monthlyUtilities", "expenses.utilities");
    ("monthlyGroceries", "expenses.groceries");
    ("checkingAccount", "accounts.checking");
    ("savingsAccount", "accounts.savings");
    ("totalExpenses", "expenses.total");
    ("category", "expenses.category") ].

(** [mapping[fieldName] || fieldName], for a field name that is not an
    inherited name *)
Definition mapFormFieldToDataKey (fieldName : string) : string :=
  default fieldName (rec_get field_mapping fieldName).

(** [getSalaryComparisonData()] *)
Record SalaryComparison := mkComparison {
  lastMonth : option Q;
  currentMonth : option Q;
  change : option Q;
  changePercent : option Q;
  trend : value;
  hasData : bool;
}.

Definition getSalaryComparisonData (s : DataStore) : SalaryComparison :=
  let lastMonth := getNumber s "salary.lastMonth" in
  let currentMonth := getNumber s "salary.currentMonth" in
  mkComparison lastMonth currentMonth
               (getNumber s "salary.change")
               (getNumber s "salary.changePercent")
               (nullish (get s "salary.trend") (VStr "neutral"))
               (bool_decide (is_Some lastMonth) && bool_decide (is_Some currentMonth)).

Definition card (title : string) (v trend : value) : value :=
  VObj (obj [("title", VStr title); ("value", v); ("trend", trend)]).

(** [getSalaryCardsData()] *)
Definition getSalaryCardsData (s : DataStore) : list value :=
  let d := getSalaryComparisonData s in
  if negb (hasData d) then []
  else
    let last := default 0%Q (lastMonth d) in
    let current := default 0%Q (currentMonth d) in
    let change := default 0%Q (change d) in
    let percent := default "0" (number_toFixed1 <$> changePercent d) in
    [ card "Last Month" (VNum last) (VStr "neutral");
      card "Current Month" (VNum current) (VStr "neutral");
      card "Difference"
           (VStr (if Qle_bool 0 change
                  then "+$" +:+ number_to_string change
                  else "-$" +:+ number_to_string (Qabs change)))
           (trend d);
      card "Change %" (VStr (percent +:+ "%")) (trend d) ].

(** [needsSalaryData()] *)
Definition needsSalaryData (s : DataStore) : bool := negb (hasSalaryData s).

(** The calls that change a store. *)
Inductive operation :=
| OpSet (key : string) (v : value)
| OpSetMany (entries : list (string * value))
| OpDelete (key : string)
| OpResetToMock (key : string)
| OpClear
| OpImport (entries : list (string * DataEntry))
| OpProcessFormData (formData : list (string * value)).

Definition apply (now : Z) (s : DataStore) (o : operation) : DataStore :=
  match o with
  | OpSet key v => set now s key v
  | OpSetMany entries => setMany now s entries
  | OpDelete key => delete_ s key
  | OpResetToMock key => (resetToMock now s key).1
  | OpClear => clear now s
  | OpImport entries => import s entries
  | OpProcessFormData formData => processFormData now s formData
  end.

(** A history: calls with the time each is made at. *)
Definition run (s : DataStore) (history : list (Z * operation)) : DataStore :=
  fold_left (λ s' step, apply step.1 s' step.2) history s.

(** The calls that store an entry under [key]. *)
Definition writes (key : string) (o : operation) : Prop :=
  match o with
  | OpSet k _ => k = key
  | OpSetMany entries | OpProcessFormData entries => key ∈ entries.*1
  | OpImport entries => key ∈ entries.*1
  | OpDelete _ | OpResetToMock _ | OpClear => False
  end.

(** An [import] that brings no mock-sourced entry for a key of
    [USER_REQUIRED_FIELDS]. *)
Definition imports_no_mock (o : operation) : Prop :=
  match o with
  | OpImport entries =>
      ∀ k e, (k, e) ∈ entries → k ∈ USER_REQUIRED_FIELDS → entry_source e ≠ Mock
  | _ => True
  end.

(** The store holds a mock-sourced entry for [key]. *)
Definition holds_mock (s : DataStore) (key : string) : Prop :=
  ∃ e, data s !! key = Some e ∧ entry_source e = Mock.

End with_runtime.

End Store.

(** ** Exceptions

    A call either returns or raises; the only raise the modelled code
    can run into is the [TypeError] of calling a member that is not a
    function. *)

Inductive outcome (A : Type) :=
| Returned (a : A)
| Thrown.
Arguments Returned {A} a.
Arguments Thrown {A}.

Definition obind {A B} (x : outcome A) (f : A → outcome B) : outcome B :=
  match x with
  | Returned a => f a
  | Thrown => Thrown
  end.

(** [l.some(f)]: stops at the first element for which [f] holds. *)
Fixpoint some_of {A} (f : A → outcome bool) (l : list A) : outcome bool :=
  match l with
  | [] => Returned false
  | x :: l' => obind (f x) (λ b, if b then Returned true else some_of f l')
  end.

(** ** The suggestion engine ([predictive-actions.ts]) *)

Module Predict.

(** [interface PredictiveAction] *)
Record PredictiveAction := mkAction {
  label : string;
  input : string;
  confidence : Q;
  reason : option string;
}.

(** [interface PredictionContext] *)
Record PredictionContext := mkContext {
  currentComponents : list UI.UIComponent;
  lastAction : string;
  hasSalaryData : bool;
  hasExpenseData : bool;
  hasChartData : bool;
}.

(** [type PredictionRule]; [None] is the rule's [null]. *)
Definition PredictionRule : Type :=
  PredictionContext → outcome (option (list PredictiveAction)).

Definition has_id (context : PredictionContext) (id : string) : bool :=
  existsb (λ c, String.eqb (UI.comp_id c) id) (currentComponents context).

Definition has_type (context : PredictionContext) (type : string) : bool :=
  existsb (λ c, String.eqb (UI.comp_type c) type) (currentComponents context).

Definition salaryComparisonRule : PredictionRule := λ context,
  let hasSalaryCards := has_id context "salary-comparison-cards" in
  let hasChart := has_id context "salary-comparison-chart" in
  Returned
    (if hasSalaryCards && hasChart then
       Some [ mkAction "Export Report" "Export my salary comparison as PDF" (7 # 10)
                       (Some "User just viewed salary data, may want to save it");
              mkAction "View Expenses" "Show me my expense breakdown" (6 # 10)
                       (Some "Natural progression from income to expenses") ]
     else None).

Definition emptyStateRule : PredictionRule := λ context,
  Returned
    (if has_id context "empty-state" then
       Some [ mkAction "Compare Salary" "Show me salary comparison" (8 # 10)
                       (Some "Most common starting point") ]
     else None).

Definition afterFormRule : PredictionRule := λ context,
  let justRemovedForm := Str.includes (lastAction context) "salary-data-form" in
  let justAddedCards := Str.includes (lastAction context) "salary-comparison-cards" in
  Returned
    (if justRemovedForm && justAddedCards then
       Some [ mkAction "View Details" "Show more details about my finances" (6 # 10)
                       (Some "User just entered data, may want deeper analysis") ]
     else None).

(** [card?.title?.toLowerCase().includes("expense")]: a title that is
    present and not a string has no [toLowerCase]. *)
Definition card_mentions_expense (card : value) : outcome bool :=
  match card with
  | VObj fields =>
      match fields !! "title" with
      | None | Some VNull => Returned false
      | Some (VStr title) => Returned (Str.includes (Str.toLowerCase title) "expense")
      | Some _ => Thrown
      end
  | _ => Returned false
  end.

(** [cards?.some?.(...)]: only arrays have a callable [some]; an object
    with a member of that name is called and fails. *)
Definition cards_mention_expense (cards : option value) : outcome bool :=
  match cards with
  | Some (VArr items) => some_of card_mentions_expense items
  | Some (VObj fields) =>
      match fields !! "some" with
      | None | Some VNull => Returned false
      | Some _ => Thrown
      end
  | _ => Returned false
  end.

Definition expensesRule : PredictionRule := λ context,
  obind
    (some_of (λ c, cards_mention_expense (UI.comp_props c !! "cards"))
             (currentComponents context))
    (λ isExpenseContext,
       Returned
         (if isExpenseContext then
            Some [ mkAction "View Income" "Show me my income breakdown" (7 # 10)
                            (Some "Natural flow from expenses to income");
                   mkAction "Calculate Savings Rate" "What is my savings rate?" (6 # 10)
                            (Some "Common financial metric after viewing expenses") ]
          else None)).

Definition chartRule : PredictionRule := λ context,
  let hasChart := has_type context "ChartView" in
  Returned
    (if hasChart && (length (currentComponents context) =? 1)%nat then
       Some [ mkAction "Add Summary Cards" "Show me summary metrics" (6 # 10)
                       (Some "Charts are often better with summary numbers") ]
     else None).

(** [PREDICTION_RULES], in priority order *)
Definition PREDICTION_RULES : list PredictionRule :=
  [ emptyStateRule; salaryComparisonRule; afterFormRule; expensesRule; chartRule ].

Definition MIN_CONFIDENCE : Q := 5 # 10.
Definition MAX_SUGGESTIONS : nat := 3.

(** The loop of [getPredictiveActions]: every rule runs, and the
    suggestions of the rules that answer are appended in turn. *)
Fixpoint run_rules (rules : list PredictionRule) (context : PredictionContext)
    (allSuggestions : list PredictiveAction) : outcome (list PredictiveAction) :=
  match rules with
  | [] => Returned allSuggestions
  | rule :: rules' =>
      obind (rule context)
            (λ suggestions,
               run_rules rules' context
                         (allSuggestions ++ default [] suggestions))
  end.

(** [s.confidence >= MIN_CONFIDENCE] *)
Definition qualifies (s : PredictiveAction) : bool :=
  Qle_bool MIN_CONFIDENCE (confidence s).

(** [(a, b) => b.confidence - a.confidence] is negative. *)
Definition confidence_before (a b : PredictiveAction) : bool :=
  negb (Qle_bool (confidence a) (confidence b)).

(** The [filter], [sort] and [slice] chain. *)
Definition rank (allSuggestions : list PredictiveAction) : list PredictiveAction :=
  take MAX_SUGGESTIONS
       (stable_sort confidence_before (List.filter qualifies allSuggestions)).

(** [getPredictiveActions(context)], for a given rule table *)
Definition getPredictiveActions_with (rules : list PredictionRule)
    (context : PredictionContext) : outcome (list PredictiveAction) :=
  obind (run_rules rules context []) (λ allSuggestions, Returned (rank allSuggestions)).

(** [getPredictiveActions(context)] *)
Definition getPredictiveActions (context : PredictionContext)
  : outcome (list PredictiveAction) :=
  getPredictiveActions_with PREDICTION_RULES context.

(** A suggestion with its place in registration order: the position
    at which it was appended to [allSuggestions], so a suggestion of an
    earlier rule has a smaller position than one of a later rule. *)
Fixpoint positions_from {A} (i : nat) (l : list A) : list (nat * A) :=
  match l with
  | [] => []
  | x :: l' => (i, x) :: positions_from (S i) l'
  end.

Abbreviation tagged := (nat * PredictiveAction)%type.

(** [a] ranks ahead of [b]: higher confidence, or the same confidence
    and registered earlier. *)
Definition ranks_ahead (a b : tagged) : Prop :=
  (confidence b.2 < confidence a.2)%Q
  ∨ ((confidence a.2 == confidence b.2)%Q ∧ (a.1 < b.1)%nat).

(** The comparator of [rank], on suggestions that carry their
    position. *)
Definition tagged_before (a b : tagged) : bool := confidence_before a.2 b.2.

Definition later_than (i : nat) (z : tagged) : Prop := (i < z.1)%nat.

(** The suggestions that pass the threshold, each with its position in
    registration order. *)
Definition qualifying (allSuggestions : list PredictiveAction) : list tagged :=
  List.filter (λ z, qualifies z.2) (positions_from 0 allSuggestions).

(** The [cards] prop of the component does not make [expensesRule]
    raise. *)
Definition cards_safe (c : UI.UIComponent) : Prop :=
  cards_mention_expense (UI.comp_props c !! "cards") ≠ Thrown.

(** [buildPredictionContext(components, lastActionNotes)] *)
Definition buildPredictionContext (components : list UI.UIComponent)
    (lastActionNotes : string) : PredictionContext :=
  mkContext components lastActionNotes
            (existsb (λ c, Str.includes (UI.comp_id c) "salary") components)
            (existsb (λ c, Str.includes (UI.comp_id c) "expense") components)
            (existsb (λ c, String.eqb (UI.comp_type c) "ChartView") components).

(** [shouldShowPredictions(predictions)] *)
Definition shouldShowPredictions (predictions : list PredictiveAction) : bool :=
  (0 <? length predictions)%nat
  && existsb (λ p, Qle_bool (6 # 10) (confidence p)) predictions.

End Predict.

(** ** The orchestrator ([ui-orchestrator.ts])

    The module-level singletons [uiEngine], [intentMemory], [dataStore]
    and [handlerRegistry] form the [World] every operation transforms.
    An [async] function is run to completion: one intent is processed at
    a time. The [debug] member of responses and actions is explanatory
    text only and is left out, and so is the unused [context] string. *)

Module Orchestrator.
Import UI.

(** [interface OrchestratorResponse] *)
Record OrchestratorResponse := mkResponse {
  resp_render : list UIComponent;
  resp_remove : list string;
  resp_update : list (string * gmap string value);
  notes : string;
}.

(** [interface OrchestratorAction] *)
Record OrchestratorAction := mkOrchestratorAction {
  render : list UIComponent;
  remove : list string;
  update : list (string * gmap string value);
}.

(** [type HandlerRegistry]: which callbacks are registered. *)
Record HandlerRegistry := mkHandlers {
  onFormSubmit : bool;
  onModalConfirm : bool;
  onModalCancel : bool;
  onEmptyStateAction : bool;
  onPredictAction : bool;
  onDismissPredictions : bool;
  onToast : bool;
}.

Record World := mkWorld {
  uiEngine : UIStateEngine;
  intentMemory : Memory.IntentMemoryEngine;
  dataStore : Store.DataStore;
  handlerRegistry : HandlerRegistry;
}.

(** [clearHandlers()] *)
Definition noHandlers : HandlerRegistry :=
  mkHandlers false false false false false false false.

(** [registerHandlers(handlers)] *)
Definition registerHandlers (w : World) (handlers : HandlerRegistry) : World :=
  let r := handlerRegistry w in
  mkWorld (uiEngine w) (intentMemory w) (dataStore w)
          (mkHandlers (onFormSubmit r || onFormSubmit handlers)
                      (onModalConfirm r || onModalConfirm handlers)
                      (onModalCancel r || onModalCancel handlers)
                      (onEmptyStateAction r || onEmptyStateAction handlers)
                      (onPredictAction r || onPredictAction handlers)
                      (onDismissPredictions r || onDismissPredictions handlers)
                      (onToast r || onToast handlers)).

Definition with_engine (w : World) (e : UIStateEngine) : World :=
  mkWorld e (intentMemory w) (dataStore w) (handlerRegistry w).

Definition with_memory (w : World) (m : Memory.IntentMemoryEngine) : World :=
  mkWorld (uiEngine w) m (dataStore w) (handlerRegistry w).

Definition with_store (w : World) (s : Store.DataStore) : World :=
  mkWorld (uiEngine w) (intentMemory w) s (handlerRegistry w).

(** The type-to-id map of [resolveReferences]: the first id of every
    type. *)
Definition componentMap (state : UIState) : list (string * string) :=
  fold_left
    (λ cm entry,
       if truthy (rec_get cm (comp_type entry.2)) then cm
       else rec_set cm (comp_type entry.2) entry.1)
    state [].

(** [resolveReferences(userInput)] *)
Definition resolveReferences (w : World) (userInput : string) : string :=
  let state := getState (uiEngine w) in
  let resolvedIds :=
    Memory.resolveReferencesInText (intentMemory w) userInput (componentMap state) in
  match resolvedIds with
  | first :: _ =>
      match st_get state first with
      | Some referencedComp =>
          userInput +:+ " [referencing: " +:+ comp_type referencedComp
                    +:+ " id:" +:+ comp_id referencedComp +:+ "]"
      | None => userInput
      end
  | [] => userInput
  end.

Definition set_if (b : bool) (k : string) (v : value) (props : gmap string value)
  : gmap string value :=
  if b then <[k := v]> props else props.

Definition is_type (component : UIComponent) (type : string) : bool :=
  String.eqb (comp_type component) type.

(** [attachHandlers(component, handlers)] *)
Definition attachHandlers (component : UIComponent) (handlers : HandlerRegistry)
  : UIComponent :=
  let p0 := comp_props component in
  let p1 := set_if (is_type component "InputForm" && onFormSubmit handlers)
                   "onSubmit" (VFun HFormSubmit) p0 in
  let p2 := set_if (is_type component "GuardrailModal" && onModalConfirm handlers)
                   "onConfirm" (VFun (HModalConfirm (comp_id component))) p1 in
  let p3 := set_if (is_type component "GuardrailModal" && onModalCancel handlers)
                   "onCancel" (VFun (HModalCancel (comp_id component))) p2 in
  let p4 := set_if (is_type component "EmptyState" && onEmptyStateAction handlers)
                   "onAction" (VFun HEmptyStateAction) p3 in
  let p5 := set_if (is_type component "PredictiveActionBar" && onPredictAction handlers)
                   "onActionClick" (VFun HPredictAction) p4 in
  let p6 := set_if (is_type component "PredictiveActionBar" && onDismissPredictions handlers)
                   "onDismiss" (VFun HDismissPredictions) p5 in
  let p7 := set_if (is_type component "ExportActions" && onToast handlers)
                   "onExport" (VFun HExport) p6 in
  with_props component p7.

Definition component (id type : string) (props : list (string * value)) (order : Z)
  : UIComponent :=
  mkComponent id type (obj props) true (Some order).

(** The branch conditions of [simulateAIResponse], in the order they
    are tried. *)
Definition asks_salary_comparison (lowerInput : string) : bool :=
  Str.includes lowerInput "salary"
  && (Str.includes lowerInput "comparison" || Str.includes lowerInput "compare"
      || (Str.includes lowerInput "last month"
          && Str.includes lowerInput "current month")).

Definition says_form_submitted (lowerInput : string) : bool :=
  Str.includes lowerInput "form submitted".

Definition asks_export (lowerInput : string) : bool :=
  Str.includes lowerInput "export"
  && (Str.includes lowerInput "report" || Str.includes lowerInput "pdf"
      || Str.includes lowerInput "salary").

Definition asks_expenses (lowerInput : string) : bool :=
  Str.includes lowerInput "expense" || Str.includes lowerInput "expenses".

Definition asks_clear (lowerInput : string) : bool :=
  Str.includes lowerInput "clear" || Str.includes lowerInput "reset"
  || Str.includes lowerInput "remove all".

Definition destructivePatterns : list string :=
  [ "delete all"; "delete my data"; "delete everything"; "erase all";
    "erase everything"; "erase my data"; "remove all data"; "remove my data";
    "remove everything"; "destroy all"; "destroy my data"; "wipe all";
    "wipe everything"; "wipe my data"; "clear all data"; "clear my data";
    "reset everything"; "reset all data"; "forget everything"; "forget my data" ].

Definition isDestructiveRequest (lowerInput : string) : bool :=
  existsb (λ pattern, Str.includes lowerInput pattern) destructivePatterns.

Definition says_confirmed (lowerInput : string) : bool :=
  Str.includes lowerInput "confirmed" || Str.includes lowerInput "confirm clear".

Section with_runtime.
Context `{Runtime}.

Definition field (name label type placeholder : string) (required : bool) : value :=
  VObj (obj [("name", VStr name); ("label", VStr label); ("type", VStr type);
             ("placeholder", VStr placeholder); ("required", VBool required)]).

(** The two descriptors both comparison branches render. *)
Definition comparison_components (s : Store.DataStore) : list UIComponent :=
  let salaryData := Store.getSalaryComparisonData s in
  let cardsData := Store.getSalaryCardsData s in
  [ component "salary-comparison-cards" "SummaryCards"
              [("cards", VArr cardsData)] 0;
    component "salary-comparison-chart" "ChartView"
              [("title", VStr "Salary Comparison");
               ("data", VArr [VNum (default 0%Q (Store.lastMonth salaryData));
                              VNum (default 0%Q (Store.currentMonth salaryData))]);
               ("labels", VArr [VStr "Last Month"; VStr "Current Month"]);
               ("type", VStr "bar")] 1 ].

(** [simulateAIResponse(userInput, context)] *)
Definition simulateAIResponse (w : World) (userInput : string)
  : OrchestratorResponse :=
  let s := dataStore w in
  let lowerInput := Str.toLowerCase userInput in
  if asks_salary_comparison lowerInput then
    if Store.needsSalaryData s then
      let hasLastMonth := Store.exists_ s "salary.lastMonth" in
      let hasCurrentMonth := Store.exists_ s "salary.currentMonth" in
      mkResponse
        [ component "salary-data-form" "InputForm"
            [("fields",
              VArr [ field "lastMonthSalary" "Last Month Salary" "number"
                           "Enter your last month salary" (negb hasLastMonth);
                     field "currentMonthSalary" "Current Month Salary" "number"
                           "Enter your current month salary" (negb hasCurrentMonth) ]);
             ("submitLabel", VStr "Compare Salary")] 0 ]
        [] [] "Collecting missing salary data for comparison"
    else
      mkResponse (comparison_components s) ["empty-state"; "salary-data-form"] []
                 "Displayed salary comparison with available data"
  else if says_form_submitted lowerInput && Store.hasSalaryData s then
    mkResponse (comparison_components s) ["salary-data-form"] []
               "Processed salary data and displayed comparison"
  else if asks_export lowerInput then
    mkResponse
      [ component "export-success" "InsightSummary"
          [("insights",
            VArr [VObj (obj [("title", VStr "Report Ready");
                             ("description",
                              VStr "Salary comparison report has been prepared for export.");
                             ("type", VStr "success")])])] 0;
        component "export-actions" "ExportActions"
          [("formats",
            VArr [VObj (obj [("id", VStr "pdf"); ("label", VStr "PDF")]);
                  VObj (obj [("id", VStr "csv"); ("label", VStr "CSV")])])] 1 ]
      [] [] "Export options displayed for salary comparison"
  else if asks_expenses lowerInput then
    let hasExpenseData := Store.exists_ s "expenses.total" in
    if negb hasExpenseData then
      mkResponse
        [ component "expense-data-form" "InputForm"
            [("title", VStr "Expense Information");
             ("description", VStr "Enter your expense details to see a breakdown");
             ("fields",
              VArr [ field "totalExpenses" "Total Monthly Expenses" "number"
                           "e.g., 35000" true;
                     field "category" "Highest Category" "text"
                           "e.g., Rent, Food, Transport" true ]);
             ("submitLabel", VStr "Analyze Expenses")] 0 ]
        [] [] "Collecting expense data for breakdown"
    else
      let totalExpenses := to_string (nullish (Store.get s "expenses.total") (num 0)) in
      let category :=
        to_string (nullish (Store.get s "expenses.category") (VStr "Other")) in
      mkResponse
        [ component "expense-summary" "SummaryCards"
            [("cards",
              VArr [ Store.card "Total Expenses" (VStr ("₹" +:+ totalExpenses))
                                (VStr "neutral");
                     Store.card "Top Category" (VStr category) (VStr "neutral") ])] 0;
          component "expense-breakdown" "InsightSummary"
            [("insights",
              VArr [VObj (obj [("title", VStr "Expense Breakdown");
                               ("description",
                                VStr ("Your highest spending category is " +:+ category
                                      +:+ " at ₹" +:+ totalExpenses
                                      +:+ ". Consider tracking individual categories for better insights."));
                               ("type", VStr "info")])])] 1 ]
        ["expense-data-form"] [] "Displayed expense breakdown"
  else if asks_clear lowerInput then
    mkResponse
      [ component "confirm-clear" "GuardrailModal"
          [("title", VStr "Clear All Components");
           ("message",
            VStr "This will remove all components from the screen. This action cannot be undone.");
           ("confirmLabel", VStr "Clear All");
           ("cancelLabel", VStr "Cancel")] 0 ]
      [] [] "Awaiting confirmation for destructive action"
  else if isDestructiveRequest lowerInput then
    let sourceSummary := Store.getSourceSummary s in
    let hasUserData := (0 <? Store.summary_user sourceSummary)%nat in
    let hasMockData := (0 <? Store.summary_mock sourceSummary)%nat in
    let message :=
      "This action will permanently delete your data. "
      +:+ (if hasUserData
           then "You have " +:+ pretty (Store.summary_user sourceSummary)
                +:+ " user-provided data entries that will be lost. "
           else "")
      +:+ (if hasMockData
           then "Mock data will remain available for new sessions. " else "")
      +:+ "This action cannot be undone." in
    mkResponse
      [ component "confirm-data-deletion" "GuardrailModal"
          [("title", VStr "Delete All Data?");
           ("message", VStr message);
           ("confirmLabel", VStr "Delete Everything");
           ("cancelLabel", VStr "Keep My Data")] 0 ]
      [] [] "Awaiting confirmation for data deletion"
  else if says_confirmed lowerInput then
    let allIds := st_keys (getState (uiEngine w)) in
    mkResponse
      [ component "empty-state" "EmptyState"
          [("title", VStr "Screen Cleared");
           ("description", VStr "All components have been removed.");
           ("actionLabel", VStr "Start Over")] 0 ]
      (allIds ++ ["confirm-clear"]) [] "Cleared all components after confirmation"
  else
    mkResponse
      [ component "empty-state" "EmptyState"
          [("title", VStr "What would you like to see?");
           ("description",
            VStr "Try asking for a salary comparison, chart, or summary.");
           ("actionLabel", VStr "Get Started")] 0 ]
      [] [] "Displayed empty state for new user".

(** One [uiEngine.dispatch] per element, in order. *)
Definition dispatch_all (w : World) (actions : list UIAction) : World :=
  with_engine w (dispatch_each (uiEngine w) actions).

Definition predictiveAction (predictions : list Predict.PredictiveAction)
  : UIComponent :=
  component "predictive-actions" "PredictiveActionBar"
    [("actions",
      VArr (map (λ p, VObj (obj [("label", VStr (Predict.label p));
                                 ("input", VStr (Predict.input p));
                                 ("confidence", VNum (Predict.confidence p))]))
                predictions))] 999.

(** [executeOrchestratorActions(response)]. When the suggestion rules
    raise, the edits dispatched so far stay applied and nothing is
    recorded. *)
Definition executeOrchestratorActions (now : Z) (random : string) (w : World)
    (response : OrchestratorResponse) : World * outcome OrchestratorAction :=
  let rendered :=
    map (λ comp, attachHandlers comp (handlerRegistry w)) (resp_render response) in
  let w1 := dispatch_all w (map Remove (resp_remove response)) in
  let w2 := dispatch_all w1 (map (λ u, Update u.1 u.2) (resp_update response)) in
  let w3 := dispatch_all w2 (map Render rendered) in
  let newState := getState (uiEngine w3) in
  let visibleComponents :=
    List.filter comp_visible (st_values newState) in
  let predictionContext :=
    Predict.buildPredictionContext visibleComponents (notes response) in
  match Predict.getPredictiveActions predictionContext with
  | Thrown => (w3, Thrown)
  | Returned predictions =>
      let '(w4, rendered') :=
        if Predict.shouldShowPredictions predictions
        then (dispatch_all w3 [Render (predictiveAction predictions)],
              rendered ++ [predictiveAction predictions])
        else (w3, rendered) in
      let affectedIds :=
        resp_remove response ++ map fst (resp_update response)
          ++ map comp_id rendered' in
      let recorded :=
        Memory.recordIntent now random (intentMemory w4)
          (if String.eqb (notes response) "" then "User request processed"
           else notes response)
          "ui_orchestration" affectedIds in
      let indexed :=
        Memory.indexComponents now recorded.1 (st_values (getState (uiEngine w4))) in
      (with_memory w4 indexed,
       Returned (mkOrchestratorAction rendered' (resp_remove response)
                                      (resp_update response)))
  end.

(** The action of the [catch] clause. *)
Definition errorAction : OrchestratorAction :=
  mkOrchestratorAction
    [ component "error-state" "EmptyState"
        [("title", VStr "Something went wrong");
         ("description", VStr "Please try again.")] 0 ]
    [] [].

(** [processUserInput(userInput)] *)
Definition processUserInput (now : Z) (random : string) (w : World)
    (userInput : string) : World * OrchestratorAction :=
  if String.eqb userInput "" || (String.length (Str.trim userInput) =? 0)%nat
  then (w, mkOrchestratorAction [] [] [])
  else
    let resolvedInput := resolveReferences w userInput in
    let response := simulateAIResponse w resolvedInput in
    match executeOrchestratorActions now random w response with
    | (w', Returned action) => (w', action)
    | (w', Thrown) => (w', errorAction)
    end.

(** [handleFormSubmission(formData)] *)
Definition handleFormSubmission (now : Z) (random : string) (w : World)
    (formData : list (string * value)) : World * OrchestratorAction :=
  let mappedData :=
    fold_left (λ mapped kv, rec_set mapped (Store.mapFormFieldToDataKey kv.1) kv.2)
              formData [] in
  let w1 := with_store w (Store.processFormData now (dataStore w) mappedData) in
  let formContext :=
    String.concat ", " (map (λ kv, kv.1 +:+ ": " +:+ to_string kv.2) mappedData) in
  processUserInput now random w1 ("Form submitted with " +:+ formContext).

(** [confirmDestructiveAction(actionId)] *)
Definition confirmDestructiveAction (now : Z) (w : World) (actionId : string)
  : World * OrchestratorAction :=
  let '(w1, actions) :=
    if String.eqb actionId "confirm-clear" || Str.startsWith actionId "confirm-" then
      (w,
       mkOrchestratorAction
         [ component "empty-state" "EmptyState"
             [("title", VStr "Screen Cleared");
              ("description", VStr "All components have been removed.");
              ("actionLabel", VStr "Start Over")] 0 ]
         (st_keys (getState (uiEngine w))) [])
    else if String.eqb actionId "confirm-data-deletion" then
      (with_store w (Store.clear now (dataStore w)),
       mkOrchestratorAction
         [ component "empty-state" "EmptyState"
             [("title", VStr "All Data Deleted");
              ("description",
               VStr "Your personal data has been removed. Mock data remains available for demonstration.");
              ("actionLabel", VStr "Start Over")] 0 ]
         (st_keys (getState (uiEngine w))) [])
    else (w, mkOrchestratorAction [] [] []) in
  let rendered :=
    map (λ comp, attachHandlers comp (handlerRegistry w1)) (render actions) in
  let w2 := dispatch_all w1 (map Remove (remove actions)) in
  let w3 := dispatch_all w2 (map Render rendered) in
  (w3, mkOrchestratorAction rendered (remove actions) (update actions)).

(** [cancelDestructiveAction(actionId)] *)
Definition cancelDestructiveAction (w : World) (actionId : string)
  : World * OrchestratorAction :=
  (dispatch_all w [Remove actionId], mkOrchestratorAction [] [actionId] []).

(** The confirmation dialogs among the descriptors of an action. *)
Definition dialogs (a : OrchestratorAction) : list UIComponent :=
  List.filter (λ c, is_type c "GuardrailModal") (render a).

(** No visible component of the tree makes the suggestion rules
    raise. *)
Definition tree_safe (w : World) : Prop :=
  Forall Predict.cards_safe
         (List.filter comp_visible (st_values (getState (uiEngine w)))).

(** The singletons as the modules create them; [now] is the time
    [data-store.ts] is loaded. *)
Definition initialWorld (now : Z) : World :=
  mkWorld newEngine (Memory.newMemory None None) (Store.newStore now) noHandlers.

End with_runtime.

End Orchestrator.

(** ** A reference runtime

    A sample instance of [Runtime], on which the examples are run; the
    properties hold for every instance. Integers print in decimal;
    other numbers print with at most sixteen fractional digits;
    [toFixed(1)] rounds half away from zero; of the texts [Number]
    accepts, the optionally signed decimal numerals are read. *)

Module ReferenceRuntime.

Fixpoint fraction_digits (n : nat) (r d : Z) : string :=
  match n with
  | O => ""
  | S n' =>
      if r =? 0 then ""
      else pretty (r * 10 / d) +:+ fraction_digits n' (r * 10 mod d) d
  end.

Definition print_number (q : Q) : string :=
  match Qden q with
  | 1%positive => pretty (Qnum q)
  | d =>
      let a := Z.abs (Qnum q) in
      (if Qnum q <? 0 then "-" else "")
      +:+ pretty (a / Zpos d)
      +:+ (if a mod Zpos d =? 0 then ""
           else "." +:+ fraction_digits 16 (a mod Zpos d) (Zpos d))
  end.

Definition print_fixed1 (q : Q) : string :=
  let a := Qabs q in
  let n := Qfloor (a * 10 + (1 # 2)) in
  (if Qnum q <? 0 then "-" else "")
  +:+ pretty (n / 10) +:+ "." +:+ pretty (n mod 10).

Definition digit (c : ascii) : option Z :=
  let n := nat_of_ascii c in
  if ((48 <=? n) && (n <=? 57))%nat then Some (Z.of_nat n - 48) else None.

(** Digits before and after the point: value so far, scale of the
    fraction so far. *)
Fixpoint read_digits (s : string) (after_point : bool) (acc : Z) (scale : positive)
  : option Q :=
  match s with
  | EmptyString => Some (Qred (acc # scale))
  | String c s' =>
      match digit c with
      | Some d =>
          read_digits s' after_point (acc * 10 + d)
                      (if after_point then (scale * 10)%positive else scale)
      | None =>
          if (Ascii.eqb c "."%char && negb after_point)%bool
          then read_digits s' true acc scale
          else None
      end
  end.

Definition read_number (s : string) : option Q :=
  match Str.trim s with
  | EmptyString => Some 0%Q
  | String "-"%char ((String _ _) as s') => Qopp <$> read_digits s' false 0 1
  | String "+"%char ((String _ _) as s') => read_digits s' false 0 1
  | String "."%char EmptyString => None
  | s' => read_digits s' false 0 1
  end.

#[export] Instance runtime : Runtime := {|
  number_to_string := print_number;
  number_toFixed1 := print_fixed1;
  number_of_string := read_number;
  function_to_string := λ _, "function () { [native code] }";
  loaded_currentMonth := "2026-01";
  loaded_lastMonth := "2025-12";
|}.

End ReferenceRuntime.

(** ** Sample data

    Concrete engines, memories, contexts and runs on which the
    properties below are exercised. *)

Module Examples.
Import UI.

Definition chart : UIComponent :=
  mkComponent "chart-1" "ChartView" (obj [("title", VStr "Sales")]) true (Some 0).

Definition chart_again : UIComponent :=
  mkComponent "chart-1" "ChartView"
              (obj [("title", VStr "Revenue"); ("type", VStr "bar")]) true (Some 0).

(** An engine whose tree holds the visible component [chart-1]. *)
Definition engine_with_chart : UIStateEngine := (dispatch newEngine (Render chart)).1.

(** A memory in which [chart] was bound at time 0. *)
Definition memory_with_chart : Memory.IntentMemoryEngine :=
  Memory.setReference 0 (Memory.newMemory None None) "chart" "chart-1" None None.

(** Three intents recorded at the given times on a new memory. *)
Definition three_intents (now1 now2 now3 : Z) : Memory.IntentMemoryEngine :=
  let m1 := (Memory.recordIntent now1 "a1" (Memory.newMemory None None)
               "show chart" "ui_orchestration" ["chart-1"]).1 in
  let m2 := (Memory.recordIntent now2 "a2" m1
               "show cards" "ui_orchestration" ["cards-1"]).1 in
  (Memory.recordIntent now3 "a3" m2 "show form" "ui_orchestration" ["form-1"]).1.

(** A context in which four suggestions pass the threshold: the empty
    state and the salary comparison are shown and a form was just
    replaced by the cards. *)
Definition busy_context : Predict.PredictionContext :=
  Predict.buildPredictionContext
    [ mkComponent "empty-state" "EmptyState" ∅ true (Some 0);
      mkComponent "salary-comparison-cards" "SummaryCards" ∅ true (Some 0);
      mkComponent "salary-comparison-chart" "ChartView" ∅ true (Some 1) ]
    "salary-data-form replaced by salary-comparison-cards".

Definition world0 : Orchestrator.World :=
  Orchestrator.initialWorld (H := ReferenceRuntime.runtime) 0.

(** The run of the salary scenario on the reference runtime, with no
    handler registered. *)
Definition salary_step1 : Orchestrator.World * Orchestrator.OrchestratorAction :=
  Orchestrator.processUserInput (H := ReferenceRuntime.runtime)
    1000 "r1"
    (Orchestrator.registerHandlers
       (Orchestrator.initialWorld (H := ReferenceRuntime.runtime) 0)
       Orchestrator.noHandlers)
    "show salary comparison".

Definition salary_step2 : Orchestrator.World * Orchestrator.OrchestratorAction :=
  Orchestrator.handleFormSubmission (H := ReferenceRuntime.runtime)
    2000 "r2" salary_step1.1
    [("lastMonthSalary", num 5000); ("currentMonthSalary", num 5500)].

(** A mock-sourced entry for a key of [USER_REQUIRED_FIELDS]. *)
Definition mocked_salary : Store.DataEntry := Store.mkEntry (num 1) Store.Mock 0.

Definition store_after_import : Store.DataStore :=
  Store.import (Store.newStore (H := ReferenceRuntime.runtime) 0)
               [("salary.lastMonth", mocked_salary)].

(** The world after "show my expenses" was typed on the new
    singletons: the expense summary is the first card on screen. *)
Definition after_expenses : Orchestrator.World :=
  (Orchestrator.processUserInput (H := ReferenceRuntime.runtime)
     1000 "r1" world0 "show my expenses").1.

(** White space that is not ASCII: a no-break space (U+00A0), a space,
    a line separator (U+2028), a byte order mark (U+FEFF), an
    ideographic space (U+3000) and a tab. *)
Definition blank_text : string :=
  Str.of_bytes
    [194; 160; 32; 226; 128; 168; 239; 187; 191; 227; 128; 128; 9]%nat.

End Examples.

(** ** Sorting by a numeric key

    The comparator [(a, b) => key(a) - key(b)] puts [a] strictly
    before [b] when its key is smaller. *)

Section sort_keys.
Context {A : Type} (key : A → Z).

Definition key_before (a b : A) : bool := key a <? key b.
Definition key_le (a b : A) : Prop := key a ≤ key b.
End sort_keys.

(** ** Further notions about the reconciliation engine *)

Module UIMore.
Import UI.

(** A well-formed tree: no id is held twice and every component is
    stored under its own id. *)
Definition tree_wf (s : UIState) : Prop :=
  NoDup (st_keys s) ∧ Forall (λ entry, comp_id entry.2 = entry.1) s.

(** The loop of the [batch] case of [reduce], by name. *)
Fixpoint batch_loop (n : Z) (currentState : UIState) (result : UIStateResult)
    (l : list UIAction) : Z * UIStateResult :=
  match l with
  | [] =>
      (n, mkResult currentState (added result) (removed result)
                   (updated result) (visibilityChanged result))
  | subAction :: l' =>
      let '(n', subResult) := reduce n currentState subAction in
      batch_loop n' (res_state subResult) (pushAll result subResult) l'
  end.

(** The results of successive [dispatch] calls, one per action. *)
Fixpoint dispatch_results (e : UIStateEngine) (actions : list UIAction)
  : list UIStateResult :=
  match actions with
  | [] => []
  | a :: actions' => (dispatch e a).2 :: dispatch_results (dispatch e a).1 actions'
  end.

(** [a.order ?? 0] *)
Definition order_key (c : UIComponent) : Z := default 0 (comp_order c).

End UIMore.

(** ** More of the reference memory *)

Module MemoryMore.
Import Memory.

(** [getCurrentIntent()]; an empty id counts as none. *)
Definition getCurrentIntent (m : IntentMemoryEngine) : option Intent :=
  match currentIntentId m with
  | Some id =>
      if String.eqb id "" then None
      else List.find (λ i, String.eqb (intent_id i) id) (intents m)
  | None => None
  end.

(** [getRecentIntents(count)] *)
Definition getRecentIntents (m : IntentMemoryEngine) (count : nat) : list Intent :=
  slice_last count (intents m).

(** [getIntentsForComponent(componentId)] *)
Definition getIntentsForComponent (m : IntentMemoryEngine) (componentId : string)
  : list Intent :=
  filter (λ i, componentId ∈ componentIds i) (intents m).

(** [nameComponent(componentId, name)] *)
Definition nameComponent (now : Z) (m : IntentMemoryEngine)
    (componentId name : string) : IntentMemoryEngine :=
  setReference now m name componentId (Some now) (Some ("Component: " +:+ name)).

(** [interface IntentMemory], the snapshot of [export()] *)
Record IntentMemory := mkSnapshot {
  snap_intents : list Intent;
  snap_references : gmap string ComponentReference;
  snap_currentIntentId : option string;
}.

(** [export()] *)
Definition export (m : IntentMemoryEngine) : IntentMemory :=
  mkSnapshot (intents m) (references m) (currentIntentId m).

(** [import(memory)] *)
Definition import (now : Z) (m : IntentMemoryEngine) (memory : IntentMemory)
  : IntentMemoryEngine :=
  cleanup now
    (mkMemory (snap_intents memory) (snap_references memory)
              (snap_currentIntentId memory) (maxIntents m) (maxAge m)).

(** The age of an intent and of a reference at time [now]. *)
Definition intent_age (now : Z) (i : Intent) : Z := now - intent_timestamp i.
Definition reference_age (now : Z) (r : ComponentReference) : Z :=
  now - ref_timestamp r.


End MemoryMore.

(** ** Properties of suggestions *)

Module PredictMore.
Import Predict.

(** Confident enough for [shouldShowPredictions]. *)
Definition confident (p : PredictiveAction) : Prop := (6 # 10 <= confidence p)%Q.

(** [a] may stand in front of [b]: it is not less confident. *)
Definition descending (a b : PredictiveAction) : Prop :=
  (confidence b <= confidence a)%Q.

(** What [expensesRule] asks of a component. *)
Definition expense_cards (c : UI.UIComponent) : outcome bool :=
  cards_mention_expense (UI.comp_props c !! "cards").

End PredictMore.

(** ** Further notions about the orchestrator *)

Module OrchestratorMore.
Import UI Orchestrator.

(** The component both confirmation branches of
    [confirmDestructiveAction] that can be reached render. *)
Definition screen_cleared : UIComponent :=
  component "empty-state" "EmptyState"
    [("title", VStr "Screen Cleared");
     ("description", VStr "All components have been removed.");
     ("actionLabel", VStr "Start Over")] 0.

(** [mappedData] of [handleFormSubmission]: the form's values under
    their data-store keys. *)
Definition mappedData (formData : list (string * value)) : list (string * value) :=
  fold_left (λ mapped kv, rec_set mapped (Store.mapFormFieldToDataKey kv.1) kv.2)
            formData [].

(** [affectedIds] of [executeOrchestratorActions] *)
Definition affectedIds (a : OrchestratorAction) : list string :=
  remove a ++ map fst (update a) ++ map comp_id (render a).

End OrchestratorMore.

(** ** Further sample data *)

Module MoreExamples.
Import UI.

(** A store in which the user has entered both salaries. *)
Definition store_with_salaries : Store.DataStore :=
  Store.set 2
    (Store.set 1 (Store.newStore (H := ReferenceRuntime.runtime) 0)
               "salary.lastMonth" (num 5000))
    "salary.currentMonth" (num 5500).

(** A descriptor that brings no order. *)
Definition unordered_note : UIComponent :=
  mkComponent "note-1" "InsightSummary" (obj [("title", VStr "Note")]) true None.

(** A component whose card has a number for a title: the expenses
    rule calls [toLowerCase] on it. *)
Definition odd_cards : UIComponent :=
  mkComponent "cards-1" "SummaryCards"
              (obj [("cards", VArr [VObj (obj [("title", num 5)])])]) true (Some 0).

Definition raising_context : Predict.PredictionContext :=
  Predict.buildPredictionContext [odd_cards] "".


(** A response that removes one id and renders nothing. *)
Definition removal_only : Orchestrator.OrchestratorResponse :=
  Orchestrator.mkResponse [] ["chart-1"] [] "".

End MoreExamples.

(** * Properties *)

(** ** Records *)

Section record_facts.
Context {T : Type}.
Implicit Types (r : list (string * T)) (k : string) (v : T).

Lemma rec_get_set_eq r k v : rec_get (rec_set r k v) k = Some v.
Proof.
  induction r as [|[k' v'] r IH]; simpl.
  - by rewrite String.eqb_refl.
  - destruct (String.eqb k' k) eqn:E; simpl; rewrite E; [done | exact IH].
Qed.

Lemma rec_get_set_ne r k k' v : k ≠ k' → rec_get (rec_set r k v) k' = rec_get r k'.
Proof.
  intros Hne. induction r as [|[k0 v0] r IH]; simpl.
  - destruct (String.eqb k k') eqn:E; [|done].
    apply String.eqb_eq in E. congruence.
  - destruct (String.eqb k0 k) eqn:E; simpl.
    + apply String.eqb_eq in E. subst k0.
      destruct (String.eqb k k') eqn:E'; [|done].
      apply String.eqb_eq in E'. congruence.
    + destruct (String.eqb k0 k'); [done | exact IH].
Qed.

Lemma rec_get_set r k k' v :
  rec_get (rec_set r k v) k' = if decide (k = k') then Some v else rec_get r k'.
Proof.
  case_decide as Hk; [subst; apply rec_get_set_eq | by apply rec_get_set_ne].
Qed.
End record_facts.

(** ** The reconciliation engine *)

Module UIFacts.
Import UI.

Lemma dispatch_version e a : eng_version (dispatch e a).1 = eng_version e + 1.
Proof. unfold dispatch. by destruct (reduce _ _ _). Qed.

Lemma dispatch_each_version actions :
  ∀ e, eng_version (dispatch_each e actions)
       = eng_version e + Z.of_nat (length actions).
Proof.
  unfold dispatch_each.
  induction actions as [|a actions IH]; intros e; simpl.
  - lia.
  - rewrite IH, dispatch_version. lia.
Qed.

Lemma dispatch_state e a :
  eng_state (dispatch e a).1 = res_state (dispatch e a).2.
Proof. unfold dispatch. by destruct (reduce _ _ _). Qed.

Lemma dispatch_result e a :
  (dispatch e a).2 = (reduce (eng_nextOrder e) (eng_state e) a).2.
Proof. unfold dispatch. by destruct (reduce _ _ _). Qed.

(** C5: every [dispatch] adds exactly one to the version counter; a
    batch, whatever the number of its sub-edits, is one dispatch and
    adds one; across a run of dispatches the version grows by the
    number of dispatches, so it is strictly increasing. *)
Theorem C5_dispatch_increments_version (e : UIStateEngine) :
  (∀ a, getVersion (dispatch e a).1 = getVersion e + 1)
  ∧ (∀ actions, getVersion (dispatchAll e actions).1 = getVersion e + 1)
  ∧ (∀ a, getVersion e < getVersion (dispatch e a).1)
  ∧ (∀ actions,
       getVersion (dispatch_each e actions)
       = getVersion e + Z.of_nat (length actions)).
Proof.
  unfold getVersion, dispatchAll. repeat split.
  - intros a. apply dispatch_version.
  - intros actions. apply dispatch_version.
  - intros a. rewrite dispatch_version. lia.
  - intros actions. apply dispatch_each_version.
Qed.

Lemma render_existing_props e d :
  is_Some (getComponent e (comp_id d)) →
  props_of (dispatch e (Render d)).1 (comp_id d) = Some (comp_props d).
Proof.
  intros [c Hc]. unfold props_of, getComponent in *.
  rewrite dispatch_state, dispatch_result. simpl. rewrite Hc. simpl.
  unfold st_get, st_set. by rewrite rec_get_set_eq.
Qed.

Lemma render_present e d :
  is_Some (getComponent e (comp_id d)) →
  is_Some (getComponent (dispatch e (Render d)).1 (comp_id d)).
Proof.
  intros [c Hc]. unfold getComponent in *.
  rewrite dispatch_state, dispatch_result. simpl. rewrite Hc. simpl.
  unfold st_get, st_set. rewrite rec_get_set_eq. by eexists.
Qed.

Lemma update_existing_props e id c props :
  getComponent e id = Some c →
  props_of (dispatch e (Update id props)).1 id = Some (spread (comp_props c) props).
Proof.
  intros Hc. unfold props_of, getComponent in *.
  rewrite dispatch_state, dispatch_result. simpl. rewrite Hc. simpl.
  unfold st_get, st_set. by rewrite rec_get_set_eq.
Qed.

(** C6: on a tree that holds the descriptor's id, rendering the same
    descriptor twice leaves that id with the same props as rendering it
    once and then updating it with the descriptor's props; in both
    cases these are the descriptor's props. *)
Theorem C6_render_twice_is_render_then_update (e : UIStateEngine) (d : UIComponent) :
  is_Some (getComponent e (comp_id d)) →
  let e1 := (dispatch e (Render d)).1 in
  let twice := (dispatch e1 (Render d)).1 in
  let updated := (dispatch e1 (Update (comp_id d) (comp_props d))).1 in
  props_of twice (comp_id d) = props_of updated (comp_id d)
  ∧ props_of twice (comp_id d) = Some (comp_props d).
Proof.
  intros Hin e1 twice updated.
  assert (H1 : props_of e1 (comp_id d) = Some (comp_props d))
    by (by apply render_existing_props).
  assert (Htwice : props_of twice (comp_id d) = Some (comp_props d))
    by (by apply render_existing_props, render_present).
  split; [|done]. rewrite Htwice.
  unfold props_of in H1.
  destruct (getComponent e1 (comp_id d)) as [c|] eqn:Hc; [|done].
  simpl in H1. injection H1 as H1.
  unfold updated. rewrite (update_existing_props _ _ c) by done.
  unfold spread. rewrite H1. by rewrite (idemp_L (∪)).
Qed.

(** An ignored edit (an [update], [remove] or [show] of an id the tree
    does not hold and no object inherits, a [hide] of an id the tree
    does not hold, a [show] of a visible component, a [hide] of a
    hidden one) is dispatched without failure, leaves the tree as it
    was and reports nothing in any of the four diff lists. *)
Lemma ignored_edits_are_noops (e : UIStateEngine) (a : UIAction) :
  ignored_edit (getState e) a →
  getState (dispatch e a).1 = getState e
  ∧ res_state (dispatch e a).2 = getState e
  ∧ added (dispatch e a).2 = []
  ∧ removed (dispatch e a).2 = []
  ∧ updated (dispatch e a).2 = []
  ∧ visibilityChanged (dispatch e a).2 = [].
Proof.
  unfold getState. intros Hig.
  rewrite dispatch_state, dispatch_result.
  destruct Hig as [id props Hg Hi|id Hg Hi|id Hg Hi|id Hg|id c Hg Hv|id c Hg Hv];
    simpl; rewrite Hg; try rewrite Hi; try rewrite Hv; simpl; done.
Qed.

(** C8: a new engine holds no component. Dispatched to it, the edit
    [remove constructor] reports [constructor] as removed and leaves
    the tree empty; [update constructor] reports [constructor] as
    updated and [show toString] reports [toString] as a visibility
    change; [hide toString] is ignored. No component has one of these
    ids: they are names every JavaScript object inherits, which pass
    the guard [if (state[action.id])] of the reducer. *)
Theorem C8_edits_at_inherited_names_are_reported :
  st_keys (getState newEngine) = []
  ∧ removed (dispatch newEngine (Remove "constructor")).2 = ["constructor"]
  ∧ getState (dispatch newEngine (Remove "constructor")).1 = []
  ∧ updated (dispatch newEngine (Update "constructor" ∅)).2 = ["constructor"]
  ∧ visibilityChanged (dispatch newEngine (Show "toString")).2 = ["toString"]
  ∧ visibilityChanged (dispatch newEngine (Hide "toString")).2 = [].
Proof. by split_and!. Qed.

End UIFacts.

(** ** The reference memory *)

Module MemoryFacts.
Import Memory.

Lemma setReference_intents now m key id ts d :
  intents (setReference now m key id ts d) = intents m.
Proof. done. Qed.

Lemma setReference_lookup now m key id ts d :
  references (setReference now m key id ts d) !! Str.toLowerCase key
  = Some (mkReference (Str.toLowerCase key) id (default now ts) d).
Proof. simpl. by rewrite lookup_insert_eq. Qed.

Lemma cleanup_expired now m k r :
  references m !! k = Some r →
  now - ref_timestamp r > maxAge m →
  references (cleanup now m) !! k = None.
Proof.
  intros Hk Hold. simpl. apply map_lookup_filter_None. right.
  intros r' Hr' Hkeep. simpl in Hkeep.
  rewrite Hk in Hr'. injection Hr' as <-.
  unfold expired_reference in Hkeep. lia.
Qed.

Lemma cleanup_kept now m k r :
  references m !! k = Some r →
  now - ref_timestamp r ≤ maxAge m →
  references (cleanup now m) !! k = Some r.
Proof.
  intros Hk Hyoung. simpl. apply map_lookup_filter_Some. split; [done|].
  simpl. unfold expired_reference. lia.
Qed.

Lemma resolveReference_table m key r :
  references m !! Str.toLowerCase key = Some r →
  resolveReference m key = Some (ref_componentId r).
Proof. intros Hk. unfold resolveReference. by rewrite Hk. Qed.

Lemma resolveReference_fallback m key :
  references m !! Str.toLowerCase key = None →
  resolveReference m key
  = matchingIntent (intents m) (Str.toLowerCase key) ≫= λ i, head (componentIds i).
Proof.
  intros Hk. unfold resolveReference. rewrite Hk.
  by destruct (matchingIntent _ _).
Qed.

(** What [recordIntent] leaves in the table for a key other than
    [this] and [that]. *)
Lemma recordIntent_other_key now random m input type ids k :
  k ≠ "this" → k ≠ "that" →
  references (recordIntent now random m input type ids).1 !! k
  = references (cleanup now m) !! k.
Proof.
  intros Hthis Hthat. unfold recordIntent. cbn [fst].
  set (m2 := mkMemory _ _ _ _ _).
  assert (Hm2 : references m2 !! k = references (cleanup now m) !! k) by done.
  set (m3 := match ids with [] => m2 | first :: _ => _ end).
  assert (Hm3 : references m3 !! k = references (cleanup now m) !! k).
  { subst m3. destruct ids as [|first ?]; [done|].
    simpl. rewrite lookup_insert_ne; [done | by intros <-]. }
  destruct (previous_intent (intents m3)) as [p|]; [|done].
  destruct (componentIds p) as [|first ?]; [done|].
  simpl. rewrite lookup_insert_ne; [done | by intros <-].
Qed.

(** C3 (amended): eviction happens when [cleanup] runs, at the start
    of every [recordIntent]. Until then a reference recorded at time
    [T] keeps resolving to its component id, however old it is. A
    cleanup at a time [now] with [now - T > maxAge] deletes it from the
    table; after that its key resolves only through the scan of the
    retained intents, to [null] when no retained intent has a
    component id containing the key; and unless the key is [this] or
    [that], which [recordIntent] binds afresh, it is absent from the
    table when [recordIntent] returns. *)
Theorem C3_expired_reference_evicted_on_cleanup
    (m : IntentMemoryEngine) (now : Z) (key : string) (r : ComponentReference) :
  references m !! Str.toLowerCase key = Some r →
  now - ref_timestamp r > maxAge m →
  resolveReference m key = Some (ref_componentId r)
  ∧ references (cleanup now m) !! Str.toLowerCase key = None
  ∧ resolveReference (cleanup now m) key
    = matchingIntent (intents (cleanup now m)) (Str.toLowerCase key)
        ≫= (λ i, head (componentIds i))
  ∧ (matchingIntent (intents (cleanup now m)) (Str.toLowerCase key) = None →
     resolveReference (cleanup now m) key = None)
  ∧ (∀ random input type ids,
       Str.toLowerCase key ≠ "this" → Str.toLowerCase key ≠ "that" →
       references (recordIntent now random m input type ids).1
         !! Str.toLowerCase key = None).
Proof.
  intros Hk Hold.
  pose proof (cleanup_expired now m _ r Hk Hold) as Hgone.
  split; [by apply resolveReference_table|].
  split; [done|].
  split; [by apply resolveReference_fallback|].
  split.
  - intros Hnone. rewrite resolveReference_fallback by done. by rewrite Hnone.
  - intros random input type ids Hthis Hthat.
    by rewrite recordIntent_other_key.
Qed.

Lemma recordIntent_maxAge now random m input type ids :
  maxAge (recordIntent now random m input type ids).1 = maxAge m.
Proof.
  unfold recordIntent. cbn [fst].
  destruct ids as [|first ?]; simpl;
    repeat (match goal with |- context [match ?x with _ => _ end] => destruct x end;
            simpl); done.
Qed.

Lemma recordIntent_intents now random m input type ids :
  intents (recordIntent now random m input type ids).1
  = intents (cleanup now m)
      ++ [mkIntent ("intent_" +:+ pretty now +:+ "_" +:+ random) now input type ids].
Proof.
  unfold recordIntent. cbn [fst].
  destruct ids as [|first ?]; simpl;
    repeat (match goal with |- context [match ?x with _ => _ end] => destruct x end;
            simpl); done.
Qed.

Lemma slice_last_snoc {A} n (l : list A) x :
  ∃ l', slice_last n (l ++ [x]) = l' ++ [x].
Proof.
  destruct n as [|n]; simpl; [by eexists|].
  exists (drop (length (l ++ [x]) - S n) l).
  rewrite drop_app_le; [done|]. rewrite length_app. simpl. lia.
Qed.

(** A cleanup keeps the most recent intent while it is younger than
    [maxAge]. *)
Lemma cleanup_keeps_latest now m l i :
  intents m = l ++ [i] →
  now - intent_timestamp i < maxAge m →
  ∃ l', intents (cleanup now m) = l' ++ [i].
Proof.
  intros Hl Hyoung. simpl. rewrite Hl, filter_app.
  rewrite (filter_cons_True _ i []) by done. rewrite filter_nil.
  destruct (_ <? _)%nat; [apply slice_last_snoc | by eexists].
Qed.

Lemma previous_intent_snoc l i j : previous_intent ((l ++ [i]) ++ [j]) = Some i.
Proof.
  unfold previous_intent. rewrite !length_app. simpl.
  destruct (_ <? 2)%nat eqn:E; [apply Nat.ltb_lt in E; lia|].
  rewrite <- app_assoc. simpl.
  replace (length l + 1 + 1 - 2)%nat with (length l + 0)%nat by lia.
  by rewrite lookup_app_r, Nat.add_0_r, Nat.sub_diag by lia.
Qed.

(** After an intent that affects [first :: _] is recorded on top of a
    retained previous intent [p], [this] and [that] are bound to the
    first ids of the new and of the previous intent. *)
Lemma recordIntent_this_that now random m input type first rest l p b bs :
  intents (cleanup now m) = l ++ [p] →
  componentIds p = b :: bs →
  let m' := (recordIntent now random m input type (first :: rest)).1 in
  resolveReference m' "this" = Some first ∧ resolveReference m' "that" = Some b.
Proof.
  intros Hl Hp. unfold recordIntent. cbn [fst].
  rewrite setReference_intents. cbn [intents]. rewrite Hl.
  rewrite previous_intent_snoc, Hp.
  split.
  - apply (resolveReference_table _ "this" (mkReference "this" first now None)).
    simpl. rewrite lookup_insert_ne by done. by rewrite lookup_insert_eq.
  - apply (resolveReference_table _ "that"
             (mkReference "that" b (intent_timestamp p) None)).
    simpl. by rewrite lookup_insert_eq.
Qed.

(** C4 (amended): when three intents that affect [A :: _], [B :: _]
    and [C :: _] are recorded in this order and the second is still
    younger than [maxAge] when the third is recorded, then after the
    third [this] resolves to [C] and [that] resolves to [B]. *)
Theorem C4_this_that_rotation
    (m0 : IntentMemoryEngine) (now1 now2 now3 : Z) (rnd1 rnd2 rnd3 : string)
    (input1 input2 input3 type1 type2 type3 : string)
    (A B C : string) (restA restB restC : list string) :
  now3 - now2 < maxAge m0 →
  let m1 := (recordIntent now1 rnd1 m0 input1 type1 (A :: restA)).1 in
  let m2 := (recordIntent now2 rnd2 m1 input2 type2 (B :: restB)).1 in
  let m3 := (recordIntent now3 rnd3 m2 input3 type3 (C :: restC)).1 in
  resolveReference m3 "this" = Some C ∧ resolveReference m3 "that" = Some B.
Proof.
  intros Hyoung m1 m2 m3.
  assert (Hage : maxAge m2 = maxAge m0)
    by (unfold m2, m1; by rewrite !recordIntent_maxAge).
  destruct (cleanup_keeps_latest now3 m2 _ _
              (recordIntent_intents now2 rnd2 m1 input2 type2 (B :: restB)))
    as [l' Hl'].
  { simpl. rewrite Hage. done. }
  by apply (recordIntent_this_that now3 rnd3 m2 input3 type3 C restC l' _ B restB Hl').
Qed.

End MemoryFacts.

(** ** The fact store *)

Module StoreFacts.
Import Store.

Lemma required_cases k :
  k ∈ USER_REQUIRED_FIELDS →
  k = "salary.lastMonth" ∨ k = "salary.currentMonth" ∨ k = "salary.previousMonth"
  ∨ k = "user.firstName" ∨ k = "user.lastName" ∨ k = "user.email" ∨ k = "user.phone".
Proof.
  unfold USER_REQUIRED_FIELDS. rewrite !elem_of_union, !elem_of_singleton. tauto.
Qed.

Lemma required_not_computable k :
  k ∈ USER_REQUIRED_FIELDS → COMPUTABLE_FIELDS k = None.
Proof. intros Hk. apply required_cases in Hk. by destruct_or!; subst k. Qed.

Lemma get_at_stored d s key :
  COMPUTABLE_FIELDS key = None →
  get_at d s key = match data s !! key with Some e => entry_value e | None => VNull end.
Proof. intros Hk. destruct d; simpl; by rewrite Hk. Qed.

(** Two levels of nesting are enough for [get]: any deeper bound gives
    the same answer. *)
Lemma get_at_enough d s key : get_at (2 + d) s key = get s key.
Proof.
  unfold get.
  destruct (COMPUTABLE_FIELDS key) as [compute|] eqn:Hc;
    [|by rewrite !get_at_stored].
  unfold COMPUTABLE_FIELDS in Hc.
  repeat match type of Hc with
         | (if String.eqb key ?k then _ else _) = _ =>
             destruct (String.eqb_spec key k) as [->|_]; [clear Hc|]
         end.
  all: try done.
  all: change (2 + d)%nat with (S (S d));
    cbn [get_at COMPUTABLE_FIELDS String.eqb Ascii.eqb Bool.eqb].
  all: by rewrite ?(get_at_stored (S d)), ?(get_at_stored d), ?(get_at_stored 1),
         ?(get_at_stored 0) by done.
Qed.

Lemma get_required s k :
  k ∈ USER_REQUIRED_FIELDS →
  get s k = match data s !! k with Some e => entry_value e | None => VNull end.
Proof. intros Hk. apply get_at_stored. by apply required_not_computable. Qed.

Lemma unmocked_absent s k : data s !! k = None → unmocked s k.
Proof. intros Hk e He. congruence. Qed.

Lemma set_lookup now s key v k :
  data (set now s key v) !! k
  = if decide (key = k) then Some (mkEntry v User now) else data s !! k.
Proof. simpl. apply lookup_insert. Qed.

Lemma set_unmocked now s key v k : unmocked s k → unmocked (set now s key v) k.
Proof.
  intros Hs e. rewrite set_lookup. case_decide; [|apply Hs].
  by intros [= <-].
Qed.

Lemma set_absent now s key v k :
  key ≠ k → data s !! k = None → data (set now s key v) !! k = None.
Proof. intros Hne Hk. rewrite set_lookup. by case_decide. Qed.

Lemma setMany_unmocked now entries k :
  ∀ s, unmocked s k → unmocked (setMany now s entries) k.
Proof.
  unfold setMany. induction entries as [|[key v] entries IH]; intros s Hs; simpl.
  - done.
  - by apply IH, set_unmocked.
Qed.

Lemma setMany_absent now entries k :
  k ∉ entries.*1 → ∀ s, data s !! k = None → data (setMany now s entries) !! k = None.
Proof.
  unfold setMany. induction entries as [|[key v] entries IH]; intros Hk s Hs.
  - done.
  - simpl in *. apply not_elem_of_cons in Hk as [Hne Hk].
    apply IH; [done|]. by apply set_absent.
Qed.

Lemma import_unmocked entries k :
  (∀ e, (k, e) ∈ entries → entry_source e ≠ Mock) →
  ∀ s, unmocked s k → unmocked (import s entries) k.
Proof.
  unfold import. induction entries as [|[key e0] entries IH]; intros Hin s Hs.
  - done.
  - simpl. apply IH.
    + intros e He. apply Hin. by right.
    + intros e. simpl. rewrite lookup_insert. case_decide as Hkey; [|apply Hs].
      intros [= <-]. subst key. apply Hin. by left.
Qed.

Lemma import_absent entries k :
  k ∉ entries.*1 → ∀ s, data s !! k = None → data (import s entries) !! k = None.
Proof.
  unfold import. induction entries as [|[key e0] entries IH]; intros Hk s Hs.
  - done.
  - simpl in *. apply not_elem_of_cons in Hk as [Hne Hk].
    apply IH; [done|]. simpl. by rewrite lookup_insert_ne.
Qed.

Section with_runtime.
Context `{Runtime}.

Lemma processFormData_unmocked now formData k :
  ∀ s, unmocked s k → unmocked (processFormData now s formData) k.
Proof.
  unfold processFormData.
  induction formData as [|[key v] formData IH]; intros s Hs; simpl.
  - done.
  - by apply IH, set_unmocked.
Qed.

Lemma processFormData_absent now formData k :
  k ∉ formData.*1 →
  ∀ s, data s !! k = None → data (processFormData now s formData) !! k = None.
Proof.
  unfold processFormData.
  induction formData as [|[key v] formData IH]; intros Hk s Hs.
  - done.
  - simpl in *. apply not_elem_of_cons in Hk as [Hne Hk].
    apply IH; [done|]. by apply set_absent.
Qed.

(** Loading the defaults never touches a required key. *)
Lemma initializeMockData_required now k :
  k ∈ USER_REQUIRED_FIELDS →
  ∀ s, data (initializeMockData now s) !! k = data s !! k.
Proof.
  intros Hk. unfold initializeMockData.
  induction MOCK_DATA as [|[key v] l IH]; intros s; simpl.
  - done.
  - rewrite IH. case_bool_decide as Hkey; [done|].
    simpl. apply lookup_insert_ne. by intros ->.
Qed.

Lemma newStore_required now k :
  k ∈ USER_REQUIRED_FIELDS → data (newStore now) !! k = None.
Proof. intros Hk. unfold newStore. by rewrite initializeMockData_required. Qed.

Lemma clear_required now s k :
  k ∈ USER_REQUIRED_FIELDS → data (clear now s) !! k = None.
Proof. intros Hk. unfold clear. by rewrite initializeMockData_required. Qed.

Lemma resetToMock_required now s k :
  k ∈ USER_REQUIRED_FIELDS → resetToMock now s k = (s, false).
Proof.
  intros Hk. unfold resetToMock.
  destruct (rec_get MOCK_DATA k); [|done].
  by rewrite bool_decide_eq_true_2.
Qed.

Lemma resetToMock_lookup now s key k :
  k ∈ USER_REQUIRED_FIELDS →
  data (resetToMock now s key).1 !! k = data s !! k.
Proof.
  intros Hk. unfold resetToMock.
  destruct (rec_get MOCK_DATA key); [|done].
  case_bool_decide as Hkey; simpl; [done|].
  apply lookup_insert_ne. by intros ->.
Qed.

Lemma apply_unmocked now s o k :
  k ∈ USER_REQUIRED_FIELDS → imports_no_mock o →
  unmocked s k → unmocked (apply now s o) k.
Proof.
  intros Hk Himp Hs. destruct o; simpl.
  - by apply set_unmocked.
  - by apply setMany_unmocked.
  - intros e. simpl. rewrite lookup_delete. case_decide; [done | apply Hs].
  - intros e. rewrite resetToMock_lookup by done. apply Hs.
  - apply unmocked_absent. by apply clear_required.
  - apply import_unmocked; [|done]. intros e He. by apply (Himp k e).
  - by apply processFormData_unmocked.
Qed.

Lemma apply_absent now s o k :
  k ∈ USER_REQUIRED_FIELDS → ¬ writes k o →
  data s !! k = None → data (apply now s o) !! k = None.
Proof.
  intros Hk Hw Hs. destruct o; cbn [apply writes] in *.
  - apply set_absent; [|done]. by intros ->.
  - by apply setMany_absent.
  - unfold delete_. simpl. rewrite lookup_delete. by case_decide.
  - by rewrite resetToMock_lookup.
  - by apply clear_required.
  - by apply import_absent.
  - by apply processFormData_absent.
Qed.

Lemma run_unmocked history k :
  k ∈ USER_REQUIRED_FIELDS →
  Forall (λ step, imports_no_mock step.2) history →
  ∀ s, unmocked s k → unmocked (run s history) k.
Proof.
  intros Hk. unfold run.
  induction history as [|[now o] history IH]; intros Himp s Hs; simpl.
  - done.
  - apply Forall_cons in Himp as [Ho Himp].
    apply IH; [done|]. by apply apply_unmocked.
Qed.

(** C7 (amended): for a key of the never-auto-populate set, the key
    is absent after construction and after every [clear()], where
    [get] answers [null]; [resetToMock] on it changes nothing and
    answers [false]; a call makes the absent key present only if it
    is a [set], [setMany] or [processFormData] that names the key,
    which store it as user-sourced, or an [import] that carries it,
    which stores the entry with whatever source it comes with; and
    over any history whose imports carry no mock-sourced entry for
    such a key, the store never holds a mock-sourced entry for it. *)
Theorem C7_required_fields_never_mocked (k : string) :
  k ∈ USER_REQUIRED_FIELDS →
  (∀ now, data (newStore now) !! k = None ∧ get (newStore now) k = VNull)
  ∧ (∀ now s, data (clear now s) !! k = None ∧ get (clear now s) k = VNull)
  ∧ (∀ now s, resetToMock now s k = (s, false))
  ∧ (∀ now s o, ¬ writes k o →
       data s !! k = None → data (apply now s o) !! k = None)
  ∧ (∀ now s v, data (set now s k v) !! k = Some (mkEntry v User now))
  ∧ (∀ now history,
       Forall (λ step, imports_no_mock step.2) history →
       ¬ holds_mock (run (newStore now) history) k).
Proof.
  intros Hk. split_and!.
  - intros now. split; [by apply newStore_required|].
    by rewrite get_required, newStore_required.
  - intros now s. split; [by apply clear_required|].
    by rewrite get_required, clear_required.
  - intros now s. by apply resetToMock_required.
  - intros now s o Hw Hs. by apply apply_absent.
  - intros now s v. rewrite set_lookup. by case_decide.
  - intros now history Himp (e & He & Hmock).
    apply (run_unmocked history k Hk Himp (newStore now)) with e; [|done..].
    apply unmocked_absent. by apply newStore_required.
Qed.

End with_runtime.

End StoreFacts.

(** ** The suggestion engine *)

Module PredictFacts.
Import Predict.

Lemma positions_from_values {A} (l : list A) : ∀ i, (positions_from i l).*2 = l.
Proof.
  induction l as [|x l IH]; intros i; simpl; [done|]. f_equal. apply IH.
Qed.

Lemma positions_from_later {A} (l : list A) :
  ∀ i j, (j < i)%nat → Forall (λ z : nat * A, (j < z.1)%nat) (positions_from i l).
Proof.
  induction l as [|x l IH]; intros i j Hij; simpl; constructor; [done|].
  apply IH. lia.
Qed.

Lemma positions_from_increasing {A} (l : list A) :
  ∀ i, StronglySorted (λ a b : nat * A, (a.1 < b.1)%nat) (positions_from i l).
Proof.
  induction l as [|x l IH]; intros i; simpl; constructor; [apply IH|].
  apply positions_from_later. simpl. lia.
Qed.

Lemma filter_increasing {A} (f : A → bool) (R : A → A → Prop) (l : list A) :
  StronglySorted R l → StronglySorted R (List.filter f l).
Proof.
  induction 1 as [|x l Hl IH Hx]; simpl; [constructor|].
  destruct (f x); [|done]. constructor; [done|].
  apply Forall_forall. intros y Hy. apply list_elem_of_In, filter_In in Hy as [Hy _].
  rewrite Forall_forall in Hx. apply Hx. by apply list_elem_of_In.
Qed.

Lemma filter_values (l : list tagged) :
  (List.filter (λ z, qualifies z.2) l).*2 = List.filter qualifies l.*2.
Proof.
  induction l as [|[i x] l IH]; simpl; [done|].
  destruct (qualifies x); simpl; [f_equal|]; exact IH.
Qed.

Lemma sort_insert_values (a : tagged) (l : list tagged) :
  (sort_insert tagged_before a l).*2 = sort_insert confidence_before a.2 l.*2.
Proof.
  induction l as [|y l IH]; simpl; [done|].
  unfold tagged_before at 1. destruct (confidence_before y.2 a.2); simpl; [|done].
  f_equal. exact IH.
Qed.

Lemma stable_sort_values (l : list tagged) :
  (stable_sort tagged_before l).*2 = stable_sort confidence_before l.*2.
Proof.
  induction l as [|a l IH]; simpl; [done|].
  change (list_fmap _ _ snd ?x) with (x.*2).
  by rewrite sort_insert_values, IH.
Qed.

Lemma sort_insert_perm {A} (before : A → A → bool) a (l : list A) :
  sort_insert before a l ≡ₚ a :: l.
Proof.
  induction l as [|y l IH]; simpl; [done|].
  destruct (before y a); [|done]. rewrite IH. apply Permutation_swap.
Qed.

Lemma stable_sort_perm {A} (before : A → A → bool) (l : list A) :
  stable_sort before l ≡ₚ l.
Proof.
  induction l as [|a l IH]; simpl; [done|].
  by rewrite sort_insert_perm, IH.
Qed.

Lemma confidence_before_spec (a b : PredictiveAction) :
  confidence_before a b = true ↔ (confidence b < confidence a)%Q.
Proof.
  unfold confidence_before. rewrite negb_true_iff.
  split.
  - intros Hb. apply Qnot_le_lt. intros Hle.
    apply Qle_bool_iff in Hle. congruence.
  - intros Hlt. apply not_true_is_false. intros Hle.
    apply Qle_bool_iff in Hle. by apply Qlt_not_le in Hlt.
Qed.

(** An element registered before all of a ranked list goes to the
    place the ranking gives it. *)
Lemma sort_insert_sorted (a : tagged) (l : list tagged) :
  StronglySorted ranks_ahead l →
  Forall (later_than a.1) l →
  StronglySorted ranks_ahead (sort_insert tagged_before a l).
Proof.
  induction 1 as [|y l Hl IH Hy]; intros Hlater; simpl.
  - repeat constructor.
  - apply Forall_cons in Hlater as [Hay Hlater].
    unfold tagged_before at 1.
    destruct (confidence_before y.2 a.2) eqn:E.
    + apply confidence_before_spec in E.
      constructor; [by apply IH|].
      rewrite (sort_insert_perm tagged_before a l).
      constructor; [by left | done].
    + assert (Hle : (confidence y.2 <= confidence a.2)%Q).
      { apply Qnot_lt_le. intros Hlt.
        apply confidence_before_spec in Hlt. congruence. }
      assert (Hahead : ∀ z, (confidence z.2 <= confidence a.2)%Q →
                            later_than a.1 z → ranks_ahead a z).
      { intros z Hz Hpos. apply Qle_lt_or_eq in Hz as [Hz|Hz].
        - by left.
        - right. split; [by symmetry | done]. }
      constructor; [by constructor|].
      constructor; [by apply Hahead|].
      rewrite Forall_forall in Hy, Hlater |- *. intros z Hz.
      apply Hahead; [|by apply Hlater].
      destruct (Hy z Hz) as [Hlt|[Heq _]].
      * apply Qlt_le_weak. by eapply Qlt_le_trans.
      * by rewrite <- Heq.
Qed.

Lemma stable_sort_sorted (l : list tagged) :
  StronglySorted (λ a b : tagged, (a.1 < b.1)%nat) l →
  StronglySorted ranks_ahead (stable_sort tagged_before l).
Proof.
  induction 1 as [|a l Hl IH Ha]; simpl; [constructor|].
  apply sort_insert_sorted; [done|].
  by rewrite (stable_sort_perm tagged_before l).
Qed.

Lemma qualifying_length allSuggestions :
  length (qualifying allSuggestions) = length (List.filter qualifies allSuggestions).
Proof.
  unfold qualifying.
  rewrite <- (length_fmap snd), filter_values. by rewrite positions_from_values.
Qed.

(** The suggestions of a rule table come in registration order: those
    of the rules registered first, then those of the rules after them. *)
Lemma run_rules_app (rules1 rules2 : list PredictionRule) context :
  ∀ acc out1,
    run_rules rules1 context acc = Returned out1 →
    run_rules (rules1 ++ rules2) context acc = run_rules rules2 context out1.
Proof.
  induction rules1 as [|rule rules1 IH]; intros acc out1; simpl.
  - by intros [= ->].
  - destruct (rule context) as [suggestions|]; simpl; [apply IH | done].
Qed.

Lemma run_rules_extends (rules : list PredictionRule) context :
  ∀ acc out, run_rules rules context acc = Returned out → ∃ new, out = acc ++ new.
Proof.
  induction rules as [|rule rules IH]; intros acc out; simpl.
  - intros [= ->]. exists []. by rewrite app_nil_r.
  - destruct (rule context) as [suggestions|]; simpl; [|done].
    intros [new ->]%IH. eexists. by rewrite <- app_assoc.
Qed.

(** C9: when the rules return and together emit more suggestions at or
    above the threshold than the maximum, [getPredictiveActions]
    returns exactly [MAX_SUGGESTIONS] (three) of them, [kept]; listing
    the kept ones and then the dropped ones gives all qualifying
    suggestions in ranking order, where a suggestion ranks ahead of
    another when its confidence is higher, or equal with an earlier
    place in registration order. *)
Theorem C9_top_suggestions_by_confidence_then_registration
    (context : PredictionContext) (allSuggestions : list PredictiveAction) :
  run_rules PREDICTION_RULES context [] = Returned allSuggestions →
  (MAX_SUGGESTIONS < length (List.filter qualifies allSuggestions))%nat →
  ∃ kept dropped : list tagged,
    getPredictiveActions context = Returned kept.*2
    ∧ length kept = MAX_SUGGESTIONS
    ∧ kept ++ dropped ≡ₚ qualifying allSuggestions
    ∧ StronglySorted ranks_ahead (kept ++ dropped).
Proof.
  intros Hrun Hmany.
  set (sorted := stable_sort tagged_before (qualifying allSuggestions)).
  exists (take MAX_SUGGESTIONS sorted), (drop MAX_SUGGESTIONS sorted).
  assert (Hlen : length sorted = length (List.filter qualifies allSuggestions)).
  { unfold sorted. by rewrite (stable_sort_perm tagged_before _), qualifying_length. }
  split_and!.
  - unfold getPredictiveActions, getPredictiveActions_with. rewrite Hrun. simpl.
    f_equal. unfold rank. rewrite fmap_take. f_equal.
    unfold sorted, qualifying.
    by rewrite stable_sort_values, filter_values, positions_from_values.
  - rewrite length_take. lia.
  - rewrite take_drop. apply stable_sort_perm.
  - rewrite take_drop. apply stable_sort_sorted, filter_increasing.
    apply positions_from_increasing.
Qed.

End PredictFacts.

(** ** Strings *)

Module StrFacts.
Import Str.

Ltac bool_arith :=
  repeat match goal with
    | H : _ && _ = true |- _ => apply andb_true_iff in H; destruct H
    | H : _ || _ = true |- _ => apply orb_true_iff in H; destruct H
    | H : (_ =? _)%nat = true |- _ => apply Nat.eqb_eq in H
    | H : (_ <=? _)%nat = true |- _ => apply Nat.leb_le in H
    | H : (_ <? _)%nat = true |- _ => apply Nat.ltb_lt in H
    end.

Lemma space1_low a : is_space1 a = true → (nat_of_ascii a ≤ 32)%nat.
Proof. unfold is_space1. cbv zeta. intros H. bool_arith; lia. Qed.

Lemma space2_high a b :
  is_space2 a b = true → (128 ≤ nat_of_ascii a)%nat ∧ (128 ≤ nat_of_ascii b)%nat.
Proof. unfold is_space2. intros H. bool_arith; lia. Qed.

Lemma space3_high a b c :
  is_space3 a b c = true →
  (128 ≤ nat_of_ascii a)%nat ∧ (128 ≤ nat_of_ascii b)%nat ∧ (128 ≤ nat_of_ascii c)%nat.
Proof. unfold is_space3. cbv zeta. intros H. bool_arith; lia. Qed.

Lemma high_not_space1 a : (128 ≤ nat_of_ascii a)%nat → is_space1 a = false.
Proof.
  intros Ha. apply not_true_is_false. intros H%space1_low. lia.
Qed.

Lemma space2_not_3 a b c : is_space2 a b = true → is_space3 a b c = false.
Proof.
  unfold is_space2, is_space3. cbv zeta. intros H.
  apply not_true_is_false. intros H'. bool_arith; lia.
Qed.

Lemma trimStart_space1 a s : is_space1 a = true → trimStart (String a s) = trimStart s.
Proof. intros H. cbn [trimStart]. by rewrite H. Qed.

Lemma trimStart_space2 a b s :
  is_space2 a b = true → trimStart (String a (String b s)) = trimStart s.
Proof.
  intros H. cbn [trimStart].
  rewrite high_not_space1 by (apply space2_high in H; lia). by rewrite H.
Qed.

Lemma trimStart_space3 a b c s :
  is_space3 a b c = true →
  trimStart (String a (String b (String c s))) = trimStart s.
Proof.
  intros H. cbn [trimStart].
  rewrite high_not_space1 by (apply space3_high in H; lia).
  destruct (is_space2 a b) eqn:E2.
  - apply (space2_not_3 a b c) in E2. congruence.
  - by rewrite H.
Qed.

(** Case analysis on the way [trimStart] proceeds: it strips a
    character of one, two or three bytes, or it stops. *)
Lemma trimStart_cases (P : string → Prop) :
  (∀ s, trimStart s = s → P s) →
  (∀ a s, is_space1 a = true → P s → P (String a s)) →
  (∀ a b s, is_space2 a b = true → P s → P (String a (String b s))) →
  (∀ a b c s, is_space3 a b c = true → P s → P (String a (String b (String c s)))) →
  ∀ s, P s.
Proof.
  intros Hstop H1 H2 H3 s.
  assert (Hn : ∀ n s, (String.length s ≤ n)%nat → P s); [|by apply (Hn (String.length s))].
  clear s. induction n as [|n IH]; intros s Hlen.
  { destruct s; [by apply Hstop | simpl in Hlen; lia]. }
  destruct s as [|a s1]; [by apply Hstop|]. simpl in Hlen.
  destruct (is_space1 a) eqn:E1; [apply H1; [done | apply IH; lia]|].
  destruct s1 as [|b s2]; [apply Hstop; cbn [trimStart]; by rewrite E1|].
  simpl in Hlen.
  destruct (is_space2 a b) eqn:E2; [apply H2; [done | apply IH; lia]|].
  destruct s2 as [|c s3]; [apply Hstop; cbn [trimStart]; by rewrite E1, E2|].
  simpl in Hlen.
  destruct (is_space3 a b c) eqn:E3; [apply H3; [done | apply IH; lia]|].
  apply Hstop. cbn [trimStart]. by rewrite E1, E2, E3.
Qed.

Lemma trimStart_idemp s : trimStart (trimStart s) = trimStart s.
Proof.
  induction s as [s Hs|a s Ha IH|a b s Ha IH|a b c s Ha IH] using trimStart_cases.
  - by rewrite !Hs.
  - by rewrite trimStart_space1.
  - by rewrite trimStart_space2.
  - by rewrite trimStart_space3.
Qed.

Lemma all_space_trimStart s : all_space s = true ↔ trimStart s = "".
Proof. unfold all_space. apply String.eqb_eq. Qed.

Lemma trimEnd_empty s : trimEnd s = "" ↔ all_space s = true.
Proof.
  destruct s as [|c s]; [done|]. cbn [trimEnd].
  by destruct (all_space (String c s)).
Qed.

Lemma trim_empty s : trim s = "" ↔ all_space s = true.
Proof.
  unfold trim. rewrite trimEnd_empty, !all_space_trimStart.
  by rewrite trimStart_idemp.
Qed.

Lemma trim_all_space s : all_space s = true → trim s = "".
Proof. apply trim_empty. Qed.

Lemma trim_empty_all_space s : trim s = "" → all_space s = true.
Proof. apply trim_empty. Qed.

(** [all_space] holds of the strings made of white-space characters
    and of no other string. *)
Lemma all_space_blank s : all_space s = true ↔ blank s.
Proof.
  rewrite all_space_trimStart. split.
  - induction s as [s Hs|a s Ha IH|a b s Ha IH|a b c s Ha IH] using trimStart_cases.
    + intros Hs'. rewrite Hs' in Hs. subst s. constructor.
    + rewrite trimStart_space1 by done. intros Hs. by apply blank1, IH.
    + rewrite trimStart_space2 by done. intros Hs. by apply blank2, IH.
    + rewrite trimStart_space3 by done. intros Hs. by apply blank3, IH.
  - induction 1 as [|a s Ha _ IH|a b s Ha _ IH|a b c s Ha _ IH]; [done|..].
    + by rewrite trimStart_space1.
    + by rewrite trimStart_space2.
    + by rewrite trimStart_space3.
Qed.

Lemma append_cons c s t : String c s +:+ t = String c (s +:+ t).
Proof. done. Qed.

Lemma toLowerCase_app s t : toLowerCase (s +:+ t) = toLowerCase s +:+ toLowerCase t.
Proof.
  induction s as [|c s IH]; [done|].
  rewrite append_cons. simpl. by rewrite IH, append_cons.
Qed.

Lemma prefix_app_r p s t : String.prefix p s = true → String.prefix p (s +:+ t) = true.
Proof.
  revert s. induction p as [|a p IH]; intros s; [by destruct (s +:+ t)|].
  destruct s as [|b s]; [done|]. rewrite append_cons. simpl.
  destruct (ascii_dec a b); [apply IH | done].
Qed.

Lemma prefix_app_l p q s : String.prefix (p +:+ q) s = true → String.prefix p s = true.
Proof.
  revert s. induction p as [|a p IH]; intros s; [by destruct s|].
  destruct s as [|b s]; [done|]. rewrite append_cons. simpl.
  destruct (ascii_dec a b); [apply IH | done].
Qed.

Lemma includes_cons c s p :
  includes (String c s) p = String.prefix p (String c s) || includes s p.
Proof. done. Qed.

Lemma includes_app_r s t p : includes s p = true → includes (s +:+ t) p = true.
Proof.
  induction s as [|c s IH].
  - destruct p; [|done]. intros _.
    change ("" +:+ t) with t. destruct t; [done|]. by rewrite includes_cons.
  - rewrite append_cons, !includes_cons, <- append_cons.
    intros [Hp|Hp]%orb_true_iff.
    + by rewrite prefix_app_r.
    + rewrite IH by done. apply orb_true_r.
Qed.

Lemma includes_shorter s p q : includes s (p +:+ q) = true → includes s p = true.
Proof.
  induction s as [|c s IH].
  - apply prefix_app_l.
  - rewrite !includes_cons. intros [Hp|Hp]%orb_true_iff.
    + by rewrite (prefix_app_l p q).
    + rewrite IH by done. apply orb_true_r.
Qed.

Lemma lower_char_other c :
  (nat_of_ascii c ≤ 32)%nat ∨ (128 ≤ nat_of_ascii c)%nat → lower_char c = c.
Proof.
  intros Hc. unfold lower_char, is_upper. cbv zeta.
  destruct (65 <=? nat_of_ascii c)%nat eqn:E1; [|done].
  destruct (nat_of_ascii c <=? 90)%nat eqn:E2; [|done].
  apply Nat.leb_le in E1, E2. lia.
Qed.

Lemma prefix_cons_ne a c p s : a ≠ c → String.prefix (String a p) (String c s) = false.
Proof. intros Hne. simpl. by destruct (ascii_dec a c). Qed.

(** Text made of white space contains no pattern that starts with an
    ASCII character that is not white space. *)
Lemma all_space_includes s a p :
  is_space1 a = false → (nat_of_ascii a < 128)%nat → all_space s = true →
  includes (toLowerCase s) (String a p) = false.
Proof.
  intros Ha Hlow. rewrite all_space_trimStart.
  assert (Hbyte : ∀ c t,
    (is_space1 c = true ∨ (128 ≤ nat_of_ascii c)%nat) →
    includes (toLowerCase t) (String a p) = false →
    includes (toLowerCase (String c t)) (String a p) = false).
  { intros c t Hc Ht. cbn [toLowerCase]. rewrite includes_cons, Ht.
    rewrite lower_char_other
      by (destruct Hc as [Hc%space1_low|Hc]; lia).
    rewrite prefix_cons_ne; [done|].
    intros ->. destruct Hc as [Hc|Hc]; [congruence | lia]. }
  induction s as [s Hs|c s Hc IH|c d s Hc IH|c d e s Hc IH] using trimStart_cases.
  - intros Hs'. rewrite Hs' in Hs. by subst s.
  - rewrite trimStart_space1 by done. intros Hs. apply Hbyte; auto.
  - rewrite trimStart_space2 by done. intros Hs.
    apply space2_high in Hc as [? ?]. do 2 (apply Hbyte; [by right|]). auto.
  - rewrite trimStart_space3 by done. intros Hs.
    apply space3_high in Hc as (? & ? & ?). do 3 (apply Hbyte; [by right|]). auto.
Qed.

End StrFacts.

(** ** The orchestrator *)

Module OrchestratorFacts.
Import UI Orchestrator.

Lemma some_of_returns {A} (f : A → outcome bool) (l : list A) :
  Forall (λ x, f x ≠ Thrown) l → ∃ b, some_of f l = Returned b.
Proof.
  induction 1 as [|x l Hx Hl [b IH]]; simpl; [by eexists|].
  destruct (f x) as [[]|]; simpl; [by eexists | by eexists | done].
Qed.

Lemma getPredictiveActions_returns components notes :
  Forall Predict.cards_safe components →
  ∃ predictions,
    Predict.getPredictiveActions (Predict.buildPredictionContext components notes)
    = Returned predictions.
Proof.
  intros Hsafe.
  destruct (some_of_returns
              (λ c, Predict.cards_mention_expense (comp_props c !! "cards"))
              components Hsafe) as [b Hb].
  unfold Predict.getPredictiveActions, Predict.getPredictiveActions_with,
    Predict.PREDICTION_RULES, Predict.run_rules, Predict.expensesRule.
  cbn [obind Predict.emptyStateRule Predict.salaryComparisonRule
       Predict.afterFormRule Predict.chartRule
       Predict.buildPredictionContext Predict.currentComponents].
  rewrite Hb. cbn [obind]. by eexists.
Qed.

Lemma rec_set_filter_Forall {T} (P : T → Prop) (f : T → bool)
    (r : list (string * T)) k v :
  P v → Forall P (List.filter f r.*2) → Forall P (List.filter f (rec_set r k v).*2).
Proof.
  intros Hv. induction r as [|[k' v'] r IH]; simpl.
  - intros _. destruct (f v); by repeat constructor.
  - destruct (String.eqb k' k); simpl.
    + destruct (f v'), (f v); intros Hr; try done.
      * apply Forall_cons in Hr as [_ Hr]. by constructor.
      * by apply Forall_cons in Hr as [_ Hr].
      * by constructor.
    + destruct (f v'); [|done]. intros [Hv' Hr]%Forall_cons. by constructor; [|apply IH].
Qed.

Lemma render_keeps_safe e c :
  comp_props c !! "cards" = None →
  Forall Predict.cards_safe (List.filter comp_visible (st_values (eng_state e))) →
  Forall Predict.cards_safe
         (List.filter comp_visible
                      (st_values (eng_state (dispatch e (Render c)).1))).
Proof.
  intros Hcards Hsafe.
  rewrite UIFacts.dispatch_state, UIFacts.dispatch_result.
  cbn [reduce]. destruct (st_get (eng_state e) (comp_id c)) as [existing|].
  - cbn [snd res_state]. apply rec_set_filter_Forall; [|done].
    unfold Predict.cards_safe. simpl. by rewrite Hcards.
  - destruct (inherited (comp_id c)); [done|].
    destruct (comp_order c); cbn [snd res_state];
      (apply rec_set_filter_Forall; [|done]);
      unfold Predict.cards_safe; simpl; by rewrite Hcards.
Qed.

Lemma set_if_lookup_ne b k v props k' :
  k ≠ k' → set_if b k v props !! k' = props !! k'.
Proof. intros Hne. unfold set_if. destruct b; [by apply lookup_insert_ne | done]. Qed.

Lemma attachHandlers_cards c handlers :
  comp_props (attachHandlers c handlers) !! "cards" = comp_props c !! "cards".
Proof. unfold attachHandlers. simpl. by rewrite !set_if_lookup_ne. Qed.

Lemma attachHandlers_type c handlers :
  comp_type (attachHandlers c handlers) = comp_type c.
Proof. done. Qed.

Lemma attachHandlers_id c handlers :
  comp_id (attachHandlers c handlers) = comp_id c.
Proof. done. Qed.

Lemma dispatch_all_nil w : dispatch_all w [] = w.
Proof. by destruct w. Qed.

Section with_runtime.
Context `{Runtime}.

Lemma simulateAIResponse_update w text :
  resp_update (simulateAIResponse w text) = [].
Proof.
  unfold simulateAIResponse. cbv zeta.
  repeat (match goal with
          | |- context [if ?b then _ else _] => destruct b
          end; try done).
Qed.

Lemma execute_store now random w response :
  dataStore (executeOrchestratorActions now random w response).1 = dataStore w.
Proof.
  unfold executeOrchestratorActions. cbv zeta.
  destruct (Predict.getPredictiveActions _); [|done].
  by destruct (Predict.shouldShowPredictions _).
Qed.

Lemma execute_update now random w response a :
  (executeOrchestratorActions now random w response).2 = Returned a →
  update a = resp_update response.
Proof.
  unfold executeOrchestratorActions. cbv zeta.
  destruct (Predict.getPredictiveActions _); [|done].
  destruct (Predict.shouldShowPredictions _); by intros [= <-].
Qed.

(** [processUserInput] never writes to the fact store. *)
Lemma processUserInput_store now random w userInput :
  dataStore (processUserInput now random w userInput).1 = dataStore w.
Proof.
  unfold processUserInput. destruct (_ || _); [done|]. cbv zeta.
  pose proof (execute_store now random w
                (simulateAIResponse w (resolveReferences w userInput))) as Hs.
  by destruct (executeOrchestratorActions _ _ _ _) as [w' [a|]].
Qed.

(** No action of [processUserInput] carries an update. *)
Lemma processUserInput_update now random w userInput :
  update (processUserInput now random w userInput).2 = [].
Proof.
  unfold processUserInput. destruct (_ || _); [done|]. cbv zeta.
  pose proof (execute_update now random w
                (simulateAIResponse w (resolveReferences w userInput))) as Hu.
  destruct (executeOrchestratorActions _ _ _ _) as [w' [a|]]; [|done].
  simpl in *. rewrite (Hu a) by done. apply simulateAIResponse_update.
Qed.

(** A response that only renders one dialog, on a safe tree, is
    carried out without failure and yields that one dialog. *)
Lemma execute_dialog now random w c notes :
  comp_type c = "GuardrailModal" →
  comp_props c !! "cards" = None →
  tree_safe w →
  ∃ w' a,
    executeOrchestratorActions now random w (mkResponse [c] [] [] notes)
    = (w', Returned a)
    ∧ dialogs a = [attachHandlers c (handlerRegistry w)].
Proof.
  intros Htype Hcards Hsafe.
  unfold executeOrchestratorActions. cbv zeta.
  cbn [resp_render resp_remove resp_update Orchestrator.notes map].
  rewrite !dispatch_all_nil.
  set (c' := attachHandlers c (handlerRegistry w)).
  destruct (getPredictiveActions_returns
              (List.filter comp_visible
                 (st_values (getState (uiEngine (dispatch_all w [Render c'])))))
              notes) as [predictions Hp].
  { apply render_keeps_safe; [|done].
    unfold c'. by rewrite attachHandlers_cards. }
  rewrite Hp.
  assert (Hdialog : is_type c' "GuardrailModal" = true).
  { unfold is_type, c'. rewrite attachHandlers_type, Htype. done. }
  destruct (Predict.shouldShowPredictions predictions);
    eexists _, _; (split; [reflexivity|]);
    unfold dialogs; cbn [render List.filter app]; by rewrite Hdialog.
Qed.

Lemma resolveReferences_extends w userInput :
  resolveReferences w userInput = userInput
  ∨ ∃ annotation, resolveReferences w userInput = userInput +:+ annotation.
Proof.
  unfold resolveReferences. cbv zeta.
  destruct (Memory.resolveReferencesInText _ _ _) as [|first ?]; [by left|].
  destruct (st_get _ _) as [referencedComp|]; [|by left].
  right. by eexists.
Qed.

Lemma resolveReferences_includes w userInput pattern :
  Str.includes (Str.toLowerCase userInput) pattern = true →
  Str.includes (Str.toLowerCase (resolveReferences w userInput)) pattern = true.
Proof.
  intros Hin.
  destruct (resolveReferences_extends w userInput) as [->|[annotation ->]]; [done|].
  rewrite StrFacts.toLowerCase_app. by apply StrFacts.includes_app_r.
Qed.

(** Text that mentions the deletion of all data is not blank. *)
Lemma destructive_not_blank userInput :
  Str.includes (Str.toLowerCase userInput) "delete all my data" = true →
  String.eqb userInput "" || (String.length (Str.trim userInput) =? 0)%nat = false.
Proof.
  intros Hin. apply orb_false_iff. split.
  - destruct userInput; [done|]. done.
  - destruct (Str.trim userInput) eqn:Htrim; [|done].
    apply StrFacts.trim_empty_all_space in Htrim.
    rewrite (StrFacts.all_space_includes userInput "d" "elete all my data") in Hin;
      [done | done | by apply Nat.ltb_lt | done].
Qed.

Lemma destructive_request text :
  Str.includes text "delete all my data" = true →
  isDestructiveRequest text = true.
Proof.
  intros Hin. unfold isDestructiveRequest. apply existsb_exists.
  exists "delete all". split; [by left|].
  by apply (StrFacts.includes_shorter text "delete all" " my data").
Qed.

(** The response to a destructive request that no earlier branch
    takes: one dialog, nothing else. *)
Lemma simulateAIResponse_destructive w text :
  Str.includes (Str.toLowerCase text) "delete all my data" = true →
  asks_salary_comparison (Str.toLowerCase text) = false →
  says_form_submitted (Str.toLowerCase text)
    && Store.hasSalaryData (dataStore w) = false →
  asks_export (Str.toLowerCase text) = false →
  asks_expenses (Str.toLowerCase text) = false →
  ∃ c notes,
    simulateAIResponse w text = mkResponse [c] [] [] notes
    ∧ comp_type c = "GuardrailModal"
    ∧ comp_props c !! "cards" = None
    ∧ (comp_id c = "confirm-clear" ∨ comp_id c = "confirm-data-deletion").
Proof.
  intros Hdel H1 H2 H3 H4.
  unfold simulateAIResponse. cbv zeta. rewrite H1, H2, H3, H4.
  destruct (asks_clear _).
  - eexists _, _. split; [reflexivity|]. split; [done|]. split; [by vm_compute|].
    by left.
  - rewrite destructive_request by done.
    eexists _, _. split; [reflexivity|]. split; [done|]. split; [by vm_compute|].
    by right.
Qed.

(** [confirmDestructiveAction] tests [startsWith("confirm-")] before
    it compares with [confirm-data-deletion], so the branch that would
    clear the store is never taken. *)
Lemma confirmDestructiveAction_store now w actionId :
  dataStore (confirmDestructiveAction now w actionId).1 = dataStore w.
Proof.
  unfold confirmDestructiveAction.
  destruct (String.eqb actionId "confirm-clear" || Str.startsWith actionId "confirm-")
    eqn:Hfirst; [done|].
  destruct (String.eqb_spec actionId "confirm-data-deletion") as [->|_]; [|done].
  by vm_compute in Hfirst.
Qed.

(** C10: on an input that is empty or made of white space only,
    [processUserInput] returns an action whose [render], [remove] and
    [update] lists are empty and leaves the whole world as it was:
    the tree and its version, the trace of notifications, the intents
    and references, and the fact store. *)
Theorem C10_blank_input_changes_nothing
    (now : Z) (random : string) (w : World) (userInput : string) :
  Str.all_space userInput = true →
  let result := processUserInput now random w userInput in
  render result.2 = [] ∧ remove result.2 = [] ∧ update result.2 = []
  ∧ result.1 = w.
Proof.
  intros Hblank. unfold processUserInput.
  rewrite (StrFacts.trim_all_space userInput Hblank).
  change (String.length "" =? 0)%nat with true.
  by rewrite orb_true_r.
Qed.

(** [processUserInput] never writes to the fact store and never
    returns an update, whatever the input. The guardrail is reached by
    the texts that the branches tried before it let through: when the
    lowercased input contains "delete all my data", the text as
    annotated by reference resolution matches none of the patterns of
    these branches (salary comparison, submitted form with salary data
    stored, export, expenses) and no visible component makes the
    suggestion rules raise, the returned action renders exactly one
    [GuardrailModal] descriptor, with id [confirm-clear] or
    [confirm-data-deletion]. *)
Lemma guardrail_when_no_earlier_branch
    (now : Z) (random : string) (w : World) (userInput : string) :
  let result := processUserInput now random w userInput in
  let text := Str.toLowerCase (resolveReferences w userInput) in
  dataStore result.1 = dataStore w
  ∧ update result.2 = []
  ∧ (Str.includes (Str.toLowerCase userInput) "delete all my data" = true →
     asks_salary_comparison text = false →
     says_form_submitted text && Store.hasSalaryData (dataStore w) = false →
     asks_export text = false →
     asks_expenses text = false →
     tree_safe w →
     ∃ dialog,
       dialogs result.2 = [dialog]
       ∧ (comp_id dialog = "confirm-clear"
          ∨ comp_id dialog = "confirm-data-deletion")).
Proof.
  intros result text. split; [apply processUserInput_store|].
  split; [apply processUserInput_update|].
  intros Hdel H1 H2 H3 H4 Hsafe.
  destruct (simulateAIResponse_destructive w (resolveReferences w userInput))
    as (c & notes & Hresp & Htype & Hcards & Hid); try done.
  { by apply resolveReferences_includes. }
  destruct (execute_dialog now random w c notes Htype Hcards Hsafe)
    as (w' & a & Hexec & Hdialogs).
  exists (attachHandlers c (handlerRegistry w)).
  split; [|by rewrite attachHandlers_id].
  unfold result, processUserInput.
  rewrite destructive_not_blank by done. cbv zeta.
  by rewrite Hresp, Hexec.
Qed.

Lemma form_submission_text now random w :
  prints_integers →
  handleFormSubmission now random w
    [("lastMonthSalary", num 5000); ("currentMonthSalary", num 5500)]
  = processUserInput now random
      (with_store w
         (Store.set now (Store.set now (dataStore w) "salary.lastMonth" (num 5000))
                    "salary.currentMonth" (num 5500)))
      "Form submitted with salary.lastMonth: 5000, salary.currentMonth: 5500".
Proof.
  intros Hint. unfold handleFormSubmission.
  change (fold_left _ [("lastMonthSalary", num 5000); ("currentMonthSalary", num 5500)] [])
    with [("salary.lastMonth", num 5000); ("salary.currentMonth", num 5500)].
  cbv zeta. f_equal.
  cbn [map String.concat fst snd to_string num].
  by rewrite !Hint by done.
Qed.

(** C2 (amended): on the freshly created singletons, whatever
    handlers are registered, "show salary comparison" yields an
    action that renders exactly one descriptor, an [InputForm], and
    removes nothing; submitting the form with the salaries 5000 and
    5500 then yields an action that removes the form and renders
    exactly three descriptors: a [SummaryCards], a [ChartView]
    whose data points are [5000, 5500], and the [PredictiveActionBar]
    the execution wrapper appends; the form is gone from the tree. *)
Theorem C2_salary_comparison_end_to_end
    (loaded now1 now2 : Z) (random1 random2 : string) (handlers : HandlerRegistry) :
  prints_integers →
  let w0 := registerHandlers (initialWorld loaded) handlers in
  let step1 := processUserInput now1 random1 w0 "show salary comparison" in
  let step2 :=
    handleFormSubmission now2 random2 step1.1
      [("lastMonthSalary", num 5000); ("currentMonthSalary", num 5500)] in
  map comp_type (render step1.2) = ["InputForm"]
  ∧ remove step1.2 = []
  ∧ remove step2.2 = ["salary-data-form"]
  ∧ map comp_type (render step2.2)
    = ["SummaryCards"; "ChartView"; "PredictiveActionBar"]
  ∧ map (λ c, comp_props c !! "data")
        (List.filter (λ c, is_type c "ChartView") (render step2.2))
    = [Some (VArr [num 5000; num 5500])]
  ∧ st_get (getState (uiEngine step2.1)) "salary-data-form" = None.
Proof.
  intros Hint w0 step1 step2. unfold step2.
  rewrite form_submission_text by done. unfold step1, w0.
  destruct handlers as [[] ? ? ? ? ? ?]; split_and!; by vm_compute.
Qed.

End with_runtime.

End OrchestratorFacts.

(** ** The properties on the sample data *)

Module Checks.
Import UI Examples.

Lemma reference_runtime_prints_integers :
  prints_integers (H := ReferenceRuntime.runtime).
Proof. intros z _. reflexivity. Defined.

(** C6 on [engine_with_chart], re-rendering [chart-1]. *)
Lemma C6_witness :
  props_of (dispatch (dispatch engine_with_chart (Render chart_again)).1
                     (Render chart_again)).1 "chart-1"
  = props_of (dispatch (dispatch engine_with_chart (Render chart_again)).1
                       (Update "chart-1" (comp_props chart_again))).1 "chart-1"
  ∧ props_of (dispatch (dispatch engine_with_chart (Render chart_again)).1
                       (Render chart_again)).1 "chart-1"
    = Some (comp_props chart_again).
Proof.
  apply (UIFacts.C6_render_twice_is_render_then_update engine_with_chart chart_again).
  vm_compute. by eexists.
Defined.

(** On [engine_with_chart], removing an id the tree does not hold and
    no object inherits is ignored. *)
Example remove_of_an_absent_id_is_ignored :
  getState (dispatch engine_with_chart (Remove "table-9")).1 = getState engine_with_chart
  ∧ removed (dispatch engine_with_chart (Remove "table-9")).2 = [].
Proof.
  destruct (UIFacts.ignored_edits_are_noops engine_with_chart (Remove "table-9"))
    as (Hstate & _ & _ & Hremoved & _); [by apply ignored_remove|].
  by split.
Qed.

(** C3: the claim as stated fails. Two hours after [chart] was bound,
    with no intent recorded in between, the key still resolves to the
    stored id; and so does [this] after an intent recorded at time 0. *)
Lemma C3_counterexample :
  7200000 - 0 > Memory.maxAge memory_with_chart
  ∧ Memory.resolveReference memory_with_chart "chart" = Some "chart-1"
  ∧ Memory.resolveReference
      (Memory.recordIntent 0 "a1" (Memory.newMemory None None)
         "show chart" "ui_orchestration" ["chart-1"]).1 "this"
    = Some "chart-1".
Proof. split_and!; by vm_compute. Qed.

(** C3 (amended) on [memory_with_chart], cleaned up two hours later. *)
Lemma C3_witness :
  Memory.resolveReference memory_with_chart "chart" = Some "chart-1"
  ∧ Memory.references (Memory.cleanup 7200000 memory_with_chart) !! "chart" = None
  ∧ Memory.resolveReference (Memory.cleanup 7200000 memory_with_chart) "chart" = None.
Proof.
  destruct (MemoryFacts.C3_expired_reference_evicted_on_cleanup
              memory_with_chart 7200000 "chart"
              (Memory.mkReference "chart" "chart-1" 0 None))
    as (Hstale & Hgone & _ & Hnull & _).
  - reflexivity.
  - vm_compute. reflexivity.
  - split_and!; [exact Hstale | exact Hgone | apply Hnull; reflexivity].
Defined.

(** C4: the claim as stated fails. When the third intent comes more
    than [maxAge] after the second, [that] does not resolve to the
    second intent's component: it resolves to nothing. *)
Lemma C4_counterexample :
  Memory.resolveReference (three_intents 0 1000 10000000) "this" = Some "form-1"
  ∧ Memory.resolveReference (three_intents 0 1000 10000000) "that" = None
  ∧ Memory.resolveReference (three_intents 0 1000 10000000) "that" ≠ Some "cards-1".
Proof. split_and!; by vm_compute. Qed.

(** C4 (amended) on three intents recorded one second apart. *)
Lemma C4_witness :
  Memory.resolveReference (three_intents 0 1000 2000) "this" = Some "form-1"
  ∧ Memory.resolveReference (three_intents 0 1000 2000) "that" = Some "cards-1".
Proof.
  apply (MemoryFacts.C4_this_that_rotation
           (Memory.newMemory None None) 0 1000 2000 "a1" "a2" "a3"
           "show chart" "show cards" "show form"
           "ui_orchestration" "ui_orchestration" "ui_orchestration"
           "chart-1" "cards-1" "form-1" [] [] []).
  vm_compute. reflexivity.
Defined.

(** C7: the claim as stated fails. [import] stores a mock-sourced
    entry under [salary.lastMonth], which [get] then returns although
    no user-sourced [set] was made. *)
Lemma C7_counterexample :
  "salary.lastMonth" ∈ Store.USER_REQUIRED_FIELDS
  ∧ Store.data store_after_import !! "salary.lastMonth" = Some mocked_salary
  ∧ Store.entry_source mocked_salary = Store.Mock
  ∧ Store.get store_after_import "salary.lastMonth" = num 1
  ∧ Store.isUserProvided store_after_import "salary.lastMonth" = false.
Proof.
  split_and!; [|by vm_compute..].
  apply (bool_decide_unpack _). by vm_compute.
Qed.

Lemma email_is_required : "user.email" ∈ Store.USER_REQUIRED_FIELDS.
Proof. apply (bool_decide_unpack _). by vm_compute. Defined.

(** C7 (amended) at the key [user.email], on the reference runtime. *)
Lemma C7_witness :
  Store.data (Store.newStore (H := ReferenceRuntime.runtime) 0) !! "user.email" = None
  ∧ (Store.resetToMock (H := ReferenceRuntime.runtime) 5
       (Store.newStore (H := ReferenceRuntime.runtime) 0) "user.email").2 = false
  ∧ ¬ Store.holds_mock
        (Store.run (H := ReferenceRuntime.runtime)
           (Store.newStore (H := ReferenceRuntime.runtime) 0)
           [(1, Store.OpSet "user.email" (VStr "a@b.c")); (2, Store.OpClear);
            (3, Store.OpResetToMock "user.email")])
        "user.email".
Proof.
  destruct (StoreFacts.C7_required_fields_never_mocked
              (H := ReferenceRuntime.runtime) "user.email" email_is_required)
    as (Hnew & _ & Hreset & _ & _ & Hrun).
  split_and!.
  - apply Hnew.
  - by rewrite Hreset.
  - apply Hrun. repeat constructor.
Defined.

(** C9 on [busy_context]: four suggestions qualify, three are kept. *)
Lemma C9_witness :
  ∃ kept dropped : list (nat * Predict.PredictiveAction)%type,
    Predict.getPredictiveActions busy_context = Returned kept.*2
    ∧ length kept = Predict.MAX_SUGGESTIONS
    ∧ kept ++ dropped
        ≡ₚ Predict.qualifying
             [ Predict.mkAction "Compare Salary" "Show me salary comparison" (8 # 10)
                 (Some "Most common starting point");
               Predict.mkAction "Export Report" "Export my salary comparison as PDF"
                 (7 # 10) (Some "User just viewed salary data, may want to save it");
               Predict.mkAction "View Expenses" "Show me my expense breakdown" (6 # 10)
                 (Some "Natural progression from income to expenses");
               Predict.mkAction "View Details" "Show more details about my finances"
                 (6 # 10) (Some "User just entered data, may want deeper analysis") ]
    ∧ StronglySorted Predict.ranks_ahead (kept ++ dropped).
Proof.
  apply (PredictFacts.C9_top_suggestions_by_confidence_then_registration busy_context).
  - vm_compute. reflexivity.
  - vm_compute. lia.
Defined.

Example trim_strips_both_ends : Str.trim "  delete all  " = "delete all".
Proof. reflexivity. Qed.

Example trim_strips_unicode_space :
  Str.all_space blank_text = true
  ∧ Str.trim (blank_text +:+ "delete all" +:+ blank_text) = "delete all"
  ∧ Str.trim (Str.of_bytes [195; 160]%nat) = Str.of_bytes [195; 160]%nat.
Proof. by vm_compute. Qed.

Example includes_is_case_sensitive :
  Str.includes "Delete All" "delete" = false
  ∧ Str.includes (Str.toLowerCase "Delete All") "delete" = true.
Proof. by vm_compute. Qed.

Example references_of_a_sentence :
  Memory.extractReferences "hide this and the chart above the above table"
  = ["this"; "the chart"; "the above table"; "chart above"; "the above"].
Proof. by vm_compute. Qed.

Example sort_is_stable :
  stable_sort Nat.ltb [2; 1; 2; 0]%nat = [0; 1; 2; 2]%nat
  ∧ map fst (stable_sort (λ a b : nat * string, (a.1 <? b.1)%nat)
                         [(1, "b")%nat; (0, "x")%nat; (1, "a")%nat])
    = [0; 1; 1]%nat
  ∧ map snd (stable_sort (λ a b : nat * string, (a.1 <? b.1)%nat)
                         [(1, "b")%nat; (0, "x")%nat; (1, "a")%nat])
    = ["x"; "b"; "a"].
Proof. by vm_compute. Qed.

(** On [busy_context] the tie at 0.6 goes to the earlier rule. *)
Example busy_context_suggestions :
  (λ l, map Predict.label l) <$> (match Predict.getPredictiveActions busy_context with
                                  | Returned l => Some l
                                  | Thrown => None
                                  end)
  = Some ["Compare Salary"; "Export Report"; "View Expenses"].
Proof. by vm_compute. Qed.

(** C1: two inputs that contain "delete all my data" and are answered
    without a dialog. On the new singletons, "export report and delete
    all my data" is taken by the export branch, which is tried before
    the guardrail: the action renders an [InsightSummary] and an
    [ExportActions]. After "show my expenses", the input "delete all
    my data in the first card" asks for nothing else; reference
    resolution appends the type and id of the first card,
    [expense-summary], to the text, which the expenses branch then
    takes: the action renders the expense cards again. *)
Theorem C1_destructive_inputs_answered_without_dialog :
  let direct :=
    Orchestrator.processUserInput (H := ReferenceRuntime.runtime) 1000 "r1" world0
      "export report and delete all my data" in
  let annotated :=
    Orchestrator.processUserInput (H := ReferenceRuntime.runtime) 2000 "r2"
      after_expenses "delete all my data in the first card" in
  (Str.includes (Str.toLowerCase "export report and delete all my data")
                "delete all my data" = true
   ∧ Orchestrator.dialogs direct.2 = []
   ∧ map comp_type (Orchestrator.render direct.2) = ["InsightSummary"; "ExportActions"])
  ∧ (Str.includes (Str.toLowerCase "delete all my data in the first card")
                  "delete all my data" = true
     ∧ Orchestrator.asks_expenses
         (Str.toLowerCase "delete all my data in the first card") = false
     ∧ Orchestrator.resolveReferences after_expenses
         "delete all my data in the first card"
       = "delete all my data in the first card [referencing: SummaryCards id:expense-summary]"
     ∧ Orchestrator.dialogs annotated.2 = []
     ∧ map comp_id (Orchestrator.render annotated.2)
       = ["expense-summary"; "expense-breakdown"; "predictive-actions"]).
Proof. split_and!; by vm_compute. Qed.

(** On the new singletons "delete all my data" opens one dialog. *)
Example delete_all_my_data_opens_a_dialog :
  ∃ dialog,
    Orchestrator.dialogs
      (Orchestrator.processUserInput (H := ReferenceRuntime.runtime) 1000 "r1" world0
         "delete all my data").2 = [dialog]
    ∧ (comp_id dialog = "confirm-clear" ∨ comp_id dialog = "confirm-data-deletion").
Proof.
  destruct (OrchestratorFacts.guardrail_when_no_earlier_branch
              (H := ReferenceRuntime.runtime) 1000 "r1" world0 "delete all my data")
    as (_ & _ & Hdialog).
  apply Hdialog; try (vm_compute; reflexivity).
  vm_compute. constructor.
Qed.

(** C2: the claim as stated fails. After the form is submitted the
    action renders three descriptors, not two. *)
Lemma C2_counterexample :
  map comp_type (Orchestrator.render salary_step1.2) = ["InputForm"]
  ∧ map comp_type (Orchestrator.render salary_step2.2)
    = ["SummaryCards"; "ChartView"; "PredictiveActionBar"]
  ∧ length (Orchestrator.render salary_step2.2) ≠ 2%nat.
Proof. split_and!; by vm_compute. Qed.

(** C2 (amended) on the reference runtime with no handler registered. *)
Lemma C2_witness :
  map comp_type (Orchestrator.render salary_step2.2)
  = ["SummaryCards"; "ChartView"; "PredictiveActionBar"]
  ∧ map (λ c, comp_props c !! "data")
        (List.filter (λ c, Orchestrator.is_type c "ChartView")
                     (Orchestrator.render salary_step2.2))
    = [Some (VArr [num 5000; num 5500])].
Proof.
  destruct (OrchestratorFacts.C2_salary_comparison_end_to_end
              (H := ReferenceRuntime.runtime) 0 1000 2000 "r1" "r2"
              Orchestrator.noHandlers reference_runtime_prints_integers)
    as (_ & _ & _ & Htypes & Hdata & _).
  split; [exact Htypes | exact Hdata].
Defined.

(** C10 on [blank_text], white space of one, two and three bytes. *)
Lemma C10_witness :
  Str.all_space blank_text = true
  ∧ Orchestrator.render
      (Orchestrator.processUserInput (H := ReferenceRuntime.runtime) 1000 "r1" world0
         blank_text).2 = []
  ∧ (Orchestrator.processUserInput (H := ReferenceRuntime.runtime) 1000 "r1" world0
       blank_text).1 = world0.
Proof.
  assert (Hblank : Str.all_space blank_text = true) by reflexivity.
  destruct (OrchestratorFacts.C10_blank_input_changes_nothing
              (H := ReferenceRuntime.runtime) 1000 "r1" world0 blank_text Hblank)
    as (Hrender & _ & _ & Hworld).
  split; [exact Hblank|]. split; [exact Hrender | exact Hworld].
Defined.

End Checks.

(** * Further properties *)

(** ** More on records and sorting *)

Ltac refold_fmap :=
  repeat match goal with
         | |- context [list_fmap ?A ?B ?f ?x] => change (list_fmap A B f x) with (f <$> x)
         end.

Section record_more.
Context {T : Type}.
Implicit Types (r : list (string * T)) (k : string) (v : T).

Lemma rec_get_None_keys r k : rec_get r k = None ↔ k ∉ r.*1.
Proof.
  induction r as [|[k' v'] r IH]; simpl.
  - split; [intros _; apply not_elem_of_nil | done].
  - rewrite not_elem_of_cons. destruct (String.eqb_spec k' k) as [->|Hne].
    + split; [done | by intros [? _]].
    + rewrite IH. split; [by intros ?; split | by intros [_ ?]].
Qed.

Lemma rec_get_Some_elem r k v : rec_get r k = Some v → (k, v) ∈ r.
Proof.
  induction r as [|[k' v'] r IH]; simpl; [done|].
  destruct (String.eqb_spec k' k) as [->|Hne].
  - intros [= ->]. by left.
  - intros Hr. right. by apply IH.
Qed.

Lemma rec_set_keys r k v :
  (rec_set r k v).*1 = match rec_get r k with Some _ => r.*1 | None => r.*1 ++ [k] end.
Proof.
  induction r as [|[k' v'] r IH]; simpl; [done|].
  destruct (String.eqb_spec k' k) as [->|Hne]; simpl; [done|].
  refold_fmap. rewrite IH. by destruct (rec_get r k).
Qed.

Lemma rec_set_elem r k v entry :
  entry ∈ rec_set r k v → entry ∈ r ∨ (entry.2 = v ∧ (entry.1 = k)).
Proof.
  induction r as [|[k' v'] r IH]; simpl.
  - intros ->%list_elem_of_singleton. by right.
  - destruct (String.eqb_spec k' k) as [->|Hne].
    + intros [->|Hin]%elem_of_cons; [by right | left; by right].
    + intros [->|Hin]%elem_of_cons; [left; by left|].
      destruct (IH Hin) as [?|?]; [left; by right | by right].
Qed.

Lemma rec_delete_sublist r k : rec_delete r k `sublist_of` r.
Proof.
  induction r as [|[k' v'] r IH]; simpl; [done|].
  destruct (String.eqb k' k); [by apply sublist_cons | by apply sublist_skip].
Qed.

Lemma rec_delete_Forall (P : string * T → Prop) r k :
  Forall P r → Forall P (rec_delete r k).
Proof.
  induction 1 as [|[k' v'] r Hx Hr IH]; simpl; [done|].
  destruct (String.eqb k' k); [done | by constructor].
Qed.

(** Deleting a key that was just added restores the record. *)
Lemma rec_delete_set_fresh r k v : rec_get r k = None → rec_delete (rec_set r k v) k = r.
Proof.
  induction r as [|[k' v'] r IH]; simpl.
  - intros _. by rewrite String.eqb_refl.
  - destruct (String.eqb k' k) eqn:E; [done|]. intros Hr. simpl. rewrite E.
    by rewrite IH.
Qed.

Lemma rec_set_same r k v : rec_get r k = Some v → rec_set r k v = r.
Proof.
  induction r as [|[k' v'] r IH]; simpl; [done|].
  destruct (String.eqb k' k); [by intros [= ->] | intros Hr; by rewrite IH].
Qed.

Lemma rec_set_set r k v v' : rec_set (rec_set r k v) k v' = rec_set r k v'.
Proof.
  induction r as [|[k' v0] r IH]; simpl.
  - by rewrite String.eqb_refl.
  - destruct (String.eqb k' k) eqn:E; simpl; rewrite E; [done | by rewrite IH].
Qed.

Lemma rec_get_elem_NoDup r k v : NoDup r.*1 → (k, v) ∈ r → rec_get r k = Some v.
Proof.
  induction r as [|[k' v'] r IH]; simpl; [by intros _ ?%elem_of_nil|].
  intros [Hk' Hr]%NoDup_cons Hin.
  destruct (String.eqb_spec k' k) as [->|Hne].
  - apply elem_of_cons in Hin as [[= ->]|Hin]; [done|].
    destruct Hk'. apply list_elem_of_fmap. by exists (k, v).
  - apply elem_of_cons in Hin as [[= -> ->]|Hin]; [done|]. by apply IH.
Qed.
End record_more.

Section sort_by_key.
Context {A : Type} (key : A → Z).

Lemma sort_insert_perm_gen (before : A → A → bool) a (l : list A) :
  sort_insert before a l ≡ₚ a :: l.
Proof.
  induction l as [|y l IH]; simpl; [done|].
  destruct (before y a); [|done]. rewrite IH. apply Permutation_swap.
Qed.

Lemma stable_sort_perm_gen (before : A → A → bool) (l : list A) :
  stable_sort before l ≡ₚ l.
Proof.
  induction l as [|a l IH]; simpl; [done|].
  by rewrite sort_insert_perm_gen, IH.
Qed.

Lemma sort_insert_by_key a (l : list A) :
  StronglySorted (key_le key) l →
  StronglySorted (key_le key) (sort_insert (key_before key) a l).
Proof.
  induction 1 as [|y l Hl IH Hy]; simpl; [repeat constructor|].
  unfold key_before at 1. destruct (Z.ltb_spec (key y) (key a)) as [Hlt|Hge].
  - constructor; [done|]. rewrite sort_insert_perm_gen.
    constructor; [unfold key_le; lia | done].
  - constructor; [by constructor|].
    constructor; [done|].
    eapply Forall_impl; [exact Hy|]. unfold key_le. intros z Hz. simpl in *. lia.
Qed.

Lemma stable_sort_by_key (l : list A) :
  StronglySorted (key_le key) (stable_sort (key_before key) l).
Proof.
  induction l as [|a l IH]; simpl; [constructor | by apply sort_insert_by_key].
Qed.

(** A list that is in order already is returned as it is: elements
    with equal keys keep their places. *)
Lemma stable_sort_sorted_id (l : list A) :
  StronglySorted (key_le key) l → stable_sort (key_before key) l = l.
Proof.
  induction 1 as [|a l Hl IH Ha]; simpl; [done|]. rewrite IH.
  destruct l as [|y l]; [done|]. simpl.
  apply Forall_cons in Ha as [Hay _]. unfold key_before, key_le in *.
  by destruct (Z.ltb_spec (key y) (key a)); [lia|].
Qed.

(** Sorting is stable: the elements of any one key keep their relative
    order. *)
Lemma sort_insert_keeps_ties k a (l : list A) :
  filter (λ x, key x = k) (sort_insert (key_before key) a l)
  = filter (λ x, key x = k) (a :: l).
Proof.
  induction l as [|y l IH]; simpl; [done|].
  unfold key_before at 1. destruct (Z.ltb_spec (key y) (key a)) as [Hlt|Hge]; [|done].
  rewrite (filter_cons _ y), IH, !(filter_cons _ a), (filter_cons _ y).
  repeat case_decide; try done; lia.
Qed.

Lemma stable_sort_keeps_ties k (l : list A) :
  filter (λ x, key x = k) (stable_sort (key_before key) l)
  = filter (λ x, key x = k) l.
Proof.
  induction l as [|a l IH]; simpl; [done|].
  by rewrite sort_insert_keeps_ties, !(filter_cons _ a), IH.
Qed.

Lemma sorted_head_least (l : list A) x :
  StronglySorted (key_le key) l → head l = Some x → Forall (key_le key x) l.
Proof.
  intros Hl Hx. destruct Hl as [|a l Hl Ha]; [done|].
  injection Hx as ->. constructor; [unfold key_le; lia | done].
Qed.

Lemma sorted_last_greatest (l : list A) x :
  StronglySorted (key_le key) l → last l = Some x →
  Forall (λ y, key_le key y x) l.
Proof.
  induction 1 as [|a l Hl IH Ha]; [done|].
  destruct l as [|b l].
  - intros [= ->]. constructor; [unfold key_le; lia | done].
  - intros Hx. change (last (a :: b :: l)) with (last (b :: l)) in Hx.
    constructor; [|by apply IH].
    assert (Hin : x ∈ b :: l) by (apply last_Some_elem_of; done).
    by apply (proj1 (Forall_forall _ _) Ha).
Qed.

(** The first and the last element of the sorted list are elements of
    the list with the least and the greatest key. *)
Lemma stable_sort_ends (l : list A) :
  l ≠ [] →
  ∃ x y, head (stable_sort (key_before key) l) = Some x
       ∧ last (stable_sort (key_before key) l) = Some y
       ∧ x ∈ l ∧ y ∈ l
       ∧ Forall (key_le key x) l ∧ Forall (λ z, key_le key z y) l.
Proof.
  intros Hl.
  pose proof (stable_sort_by_key l) as Hsorted.
  pose proof (stable_sort_perm_gen (key_before key) l) as Hperm.
  destruct (stable_sort (key_before key) l) as [|x sorted] eqn:E.
  { apply Permutation_nil_l in Hperm. by subst l. }
  assert (is_Some (last (x :: sorted))) as [y Hy].
  { rewrite last_is_Some. done. }
  exists x, y. split_and!; try done.
  - rewrite <- Hperm. by left.
  - rewrite <- Hperm. by apply last_Some_elem_of.
  - rewrite <- Hperm. by apply sorted_head_least.
  - rewrite <- Hperm. by apply sorted_last_greatest.
Qed.
End sort_by_key.


(** ** More on the reconciliation engine *)

Module UIMoreFacts.
Import UI UIMore.

(** Induction over actions that reaches into batches. *)
Lemma action_ind (P : UIAction → Prop) :
  (∀ c, P (Render c)) → (∀ id, P (Remove id)) →
  (∀ id props, P (Update id props)) →
  (∀ id, P (Show id)) → (∀ id, P (Hide id)) →
  (∀ id o, P (SetOrder id o)) →
  (∀ l, Forall P l → P (Batch l)) →
  ∀ a, P a.
Proof.
  intros Hrender Hremove Hupdate Hshow Hhide Hsetorder Hbatch.
  fix IH 1. intros [c|id|id props|id|id|id o|l]; [auto..|].
  apply Hbatch. induction l as [|x l IHl]; constructor; [apply IH | exact IHl].
Qed.

Lemma reduce_batch n s l : reduce n s (Batch l) = batch_loop n s (initResult s) l.
Proof. reflexivity. Qed.

Lemma batch_loop_acc l :
  ∀ n cur acc,
    batch_loop n cur acc l
    = ((batch_loop n cur (initResult cur) l).1,
       mkResult (res_state (batch_loop n cur (initResult cur) l).2)
                (added acc ++ added (batch_loop n cur (initResult cur) l).2)
                (removed acc ++ removed (batch_loop n cur (initResult cur) l).2)
                (updated acc ++ updated (batch_loop n cur (initResult cur) l).2)
                (visibilityChanged acc
                   ++ visibilityChanged (batch_loop n cur (initResult cur) l).2)).
Proof.
  induction l as [|a l IH]; intros n cur acc; simpl.
  - by rewrite !app_nil_r.
  - destruct (reduce n cur a) as [n1 r1].
    rewrite (IH n1 (res_state r1) (pushAll acc r1)).
    rewrite (IH n1 (res_state r1) (pushAll (initResult cur) r1)).
    simpl. by rewrite !app_assoc.
Qed.

(** One step of a batch: the first sub-edit, then the batch of the
    others on the tree it leaves. *)
Lemma reduce_batch_cons n s a l :
  reduce n s (Batch (a :: l))
  = let r1 := reduce n s a in
    let r2 := reduce r1.1 (res_state r1.2) (Batch l) in
    (r2.1,
     mkResult (res_state r2.2)
              (added r1.2 ++ added r2.2) (removed r1.2 ++ removed r2.2)
              (updated r1.2 ++ updated r2.2)
              (visibilityChanged r1.2 ++ visibilityChanged r2.2)).
Proof.
  rewrite !reduce_batch. simpl. destruct (reduce n s a) as [n1 r1].
  by rewrite batch_loop_acc.
Qed.

Lemma dispatch_nextOrder e a :
  eng_nextOrder (dispatch e a).1 = (reduce (eng_nextOrder e) (eng_state e) a).1.
Proof. unfold dispatch. by destruct (reduce _ _ _). Qed.

Ltac dispatch_to_reduce :=
  repeat (rewrite UIFacts.dispatch_state || rewrite UIFacts.dispatch_result
          || rewrite dispatch_nextOrder).

Lemma batch_as_sequence l :
  ∀ e,
    reduce (eng_nextOrder e) (eng_state e) (Batch l)
    = (eng_nextOrder (dispatch_each e l),
       mkResult (eng_state (dispatch_each e l))
                (concat (map added (dispatch_results e l)))
                (concat (map removed (dispatch_results e l)))
                (concat (map updated (dispatch_results e l)))
                (concat (map visibilityChanged (dispatch_results e l)))).
Proof.
  induction l as [|a l IH]; intros e; [done|].
  rewrite reduce_batch_cons. cbv zeta.
  pose proof (IH (dispatch e a).1) as IH'.
  rewrite dispatch_nextOrder, UIFacts.dispatch_state, UIFacts.dispatch_result in IH'.
  rewrite IH'. unfold dispatch_each. simpl.
  by rewrite UIFacts.dispatch_result.
Qed.

(** X1: a batch leaves the tree and the order counter exactly as the
    same edits dispatched one after the other do, and each of its four
    diff lists is the concatenation of the lists of those dispatches;
    only the version differs, by one instead of one per edit. *)
Theorem X1_batch_is_the_sequence_of_its_edits (e : UIStateEngine) (l : list UIAction) :
  getState (dispatchAll e l).1 = getState (dispatch_each e l)
  ∧ eng_nextOrder (dispatchAll e l).1 = eng_nextOrder (dispatch_each e l)
  ∧ added (dispatchAll e l).2 = concat (map added (dispatch_results e l))
  ∧ removed (dispatchAll e l).2 = concat (map removed (dispatch_results e l))
  ∧ updated (dispatchAll e l).2 = concat (map updated (dispatch_results e l))
  ∧ visibilityChanged (dispatchAll e l).2
    = concat (map visibilityChanged (dispatch_results e l))
  ∧ getVersion (dispatchAll e l).1 = getVersion e + 1
  ∧ getVersion (dispatch_each e l) = getVersion e + Z.of_nat (length l).
Proof.
  unfold dispatchAll, getState, getVersion.
  rewrite UIFacts.dispatch_state, dispatch_nextOrder, UIFacts.dispatch_result,
    batch_as_sequence.
  split_and!; try done.
  - apply UIFacts.dispatch_version.
  - apply UIFacts.dispatch_each_version.
Qed.

(** *** The tree stays well formed *)

Lemma tree_wf_set s id c :
  tree_wf s → comp_id c = id → tree_wf (st_set s id c).
Proof.
  intros [Hnd Hid] Hc. unfold tree_wf, st_set, st_keys in *. split.
  - rewrite rec_set_keys. destruct (rec_get s id) eqn:Hg; [done|].
    apply NoDup_app. split_and!; [done| |apply NoDup_singleton].
    intros k Hk ->%list_elem_of_singleton. by apply rec_get_None_keys in Hg.
  - apply Forall_forall. intros entry [Hin|[Hv Hk]]%rec_set_elem.
    + rewrite Forall_forall in Hid. by apply Hid.
    + by rewrite Hv, Hk.
Qed.

Lemma tree_wf_delete s id : tree_wf s → tree_wf (st_delete s id).
Proof.
  intros [Hnd Hid]. unfold tree_wf, st_delete, st_keys in *.
  pose proof (rec_delete_sublist s id) as Hsub. split.
  - eapply sublist_NoDup; [done|]. by apply fmap_sublist.
  - by apply rec_delete_Forall.
Qed.

Lemma tree_wf_get s id c : tree_wf s → st_get s id = Some c → comp_id c = id.
Proof.
  intros [_ Hid] Hg. apply rec_get_Some_elem in Hg.
  rewrite Forall_forall in Hid. by apply (Hid (id, c)).
Qed.

Lemma reduce_wf a : ∀ n s, tree_wf s → tree_wf (res_state (reduce n s a).2).
Proof.
  induction a as [c|id|id props|id|id|id o|l IH] using action_ind; intros n s Hwf.
  - simpl. destruct (st_get s (comp_id c)) as [existing|] eqn:Hg; simpl.
    + apply tree_wf_set; [done|]. simpl. by eapply tree_wf_get.
    + destruct (inherited (comp_id c)); [done|].
      destruct (comp_order c); simpl; by apply tree_wf_set.
  - simpl. destruct (st_get s id); simpl; [by apply tree_wf_delete|].
    by destruct (inherited id).
  - simpl. destruct (st_get s id) as [c|] eqn:Hg; simpl; [|by destruct (inherited id)].
    apply tree_wf_set; [done|]. simpl. by eapply tree_wf_get.
  - simpl. destruct (st_get s id) as [c|] eqn:Hg; simpl; [|by destruct (inherited id)].
    destruct (comp_visible c); simpl; [done|].
    apply tree_wf_set; [done|]. simpl. by eapply tree_wf_get.
  - simpl. destruct (st_get s id) as [c|] eqn:Hg; simpl; [|done].
    destruct (comp_visible c); simpl; [|done].
    apply tree_wf_set; [done|]. simpl. by eapply tree_wf_get.
  - simpl. destruct (st_get s id) as [c|] eqn:Hg; simpl; [|by destruct (inherited id)].
    apply tree_wf_set; [done|]. simpl. by eapply tree_wf_get.
  - revert n s Hwf. induction IH as [|a l Ha _ IHl]; intros n s Hwf; [done|].
    rewrite reduce_batch_cons. cbv zeta. simpl. apply IHl, Ha, Hwf.
Qed.

Lemma dispatch_wf e a : tree_wf (eng_state e) → tree_wf (eng_state (dispatch e a).1).
Proof.
  intros Hwf. rewrite UIFacts.dispatch_state, UIFacts.dispatch_result.
  by apply reduce_wf.
Qed.

(** X2: ids stay unique and every component stays stored under its
    own id: a well-formed tree is still well formed after any run of
    dispatched edits, batches included, none of which renders,
    updates, shows or reorders at a name inherited from
    [Object.prototype] (there the reducer stores an object that has no
    id of its own). *)
Theorem X2_tree_stays_well_formed (e : UIStateEngine) (l : list UIAction) :
  tree_wf (getState e) →
  Forall (λ a, typed_edit a = true) l →
  tree_wf (getState (dispatch_each e l)).
Proof.
  unfold getState, dispatch_each. intros Hwf Htyped. revert e Hwf.
  induction Htyped as [|a l _ _ IH]; intros e Hwf; simpl; [done|].
  by apply IH, dispatch_wf.
Qed.

(** X3: two round trips. Rendering a descriptor whose id the tree
    does not hold, and which is not a name inherited from
    [Object.prototype], and then removing that id gives back the tree
    as it was, the id being reported as added and then as removed.
    Hiding a
    visible component and showing it again gives back the tree as it
    was, each dispatch reporting the id as a visibility change; in
    between the component is held hidden, everything else about it
    unchanged. *)
Theorem X3_round_trips_restore_the_tree (e : UIStateEngine) :
  (∀ d, getComponent e (comp_id d) = None → inherited (comp_id d) = false →
     let e1 := dispatch e (Render d) in
     let e2 := dispatch e1.1 (Remove (comp_id d)) in
     getState e2.1 = getState e
     ∧ added e1.2 = [comp_id d] ∧ removed e2.2 = [comp_id d])
  ∧ (∀ id c, getComponent e id = Some c → comp_visible c = true →
       let e1 := dispatch e (Hide id) in
       let e2 := dispatch e1.1 (Show id) in
       getComponent e1.1 id = Some (with_visible c false)
       ∧ isVisible e1.1 id = false
       ∧ getState e2.1 = getState e
       ∧ visibilityChanged e1.2 = [id] ∧ visibilityChanged e2.2 = [id]).
Proof.
  split.
  - intros d Hfresh Hplain e1 e2. unfold e2, e1, getComponent, getState in *.
    dispatch_to_reduce. cbn [reduce]. rewrite Hfresh, Hplain.
    destruct (comp_order d); cbn [snd fst res_state added removed];
      unfold st_get, st_set, st_delete; rewrite rec_get_set_eq;
      cbn [snd fst res_state added removed]; by rewrite rec_delete_set_fresh.
  - intros id c Hc Hv e1 e2.
    unfold e2, e1, getComponent, getState, isVisible in *.
    dispatch_to_reduce. cbn [reduce]. rewrite Hc, Hv.
    cbn [snd fst res_state visibilityChanged negb].
    unfold st_get, st_set. rewrite rec_get_set_eq.
    cbn [snd fst res_state visibilityChanged negb with_visible comp_visible fmap
         option_fmap option_map default].
    split_and!; try done.
    rewrite rec_set_set. apply rec_set_same.
    unfold st_get in Hc. rewrite Hc. f_equal. destruct c; simpl in *. by subst.
Qed.

(** X4: an update of a held id merges the given props over the old
    ones (a given key takes the new value, every other key keeps its
    old one), leaves the component's type, visibility and order alone,
    keeps the tree's ids in place and touches no other component. *)
Theorem X4_update_merges_props
    (e : UIStateEngine) (id : string) (c : UIComponent) (props : gmap string value) :
  getComponent e id = Some c →
  let e' := (dispatch e (Update id props)).1 in
  (∃ c', getComponent e' id = Some c'
         ∧ (∀ k, comp_props c' !! k
                 = match props !! k with Some v => Some v | None => comp_props c !! k end)
         ∧ comp_id c' = comp_id c ∧ comp_type c' = comp_type c
         ∧ comp_visible c' = comp_visible c ∧ comp_order c' = comp_order c)
  ∧ (∀ id', id ≠ id' → getComponent e' id' = getComponent e id')
  ∧ st_keys (getState e') = st_keys (getState e).
Proof.
  intros Hc e'. unfold e', getComponent, getState in *.
  rewrite UIFacts.dispatch_state, UIFacts.dispatch_result. simpl. rewrite Hc. simpl.
  unfold st_get, st_set, st_keys in *. split_and!.
  - eexists. rewrite rec_get_set_eq. split; [done|]. split; [|done].
    intros k. simpl. unfold spread. rewrite lookup_union.
    destruct (props !! k), (comp_props c !! k); done.
  - intros id' Hne. by rewrite rec_get_set_ne.
  - by rewrite rec_set_keys, Hc.
Qed.

(** X5: [getVisibleComponents] returns exactly the visible components
    of the tree, in ascending [order] (a missing order counts as 0).
    The sort is stable: the components of any one order come in the
    sequence in which [Object.values] lists them in the tree, and when
    the visible components are listed in ascending order already, they
    come back as listed. *)
Theorem X5_visible_components_sorted (e : UIStateEngine) :
  getVisibleComponents e
    ≡ₚ filter (λ c, comp_visible c = true) (st_values (getState e))
  ∧ Forall (λ c, comp_visible c = true) (getVisibleComponents e)
  ∧ StronglySorted (λ a b, order_key a ≤ order_key b) (getVisibleComponents e)
  ∧ (∀ k, filter (λ c, order_key c = k) (getVisibleComponents e)
          = filter (λ c, order_key c = k)
              (filter (λ c, comp_visible c = true) (st_values (getState e))))
  ∧ (StronglySorted (λ a b, order_key a ≤ order_key b)
       (filter (λ c, comp_visible c = true) (st_values (getState e))) →
     getVisibleComponents e
     = filter (λ c, comp_visible c = true) (st_values (getState e))).
Proof.
  unfold getVisibleComponents, getState.
  change order_before with (key_before order_key).
  split_and!.
  - apply stable_sort_perm_gen.
  - rewrite stable_sort_perm_gen. apply Forall_forall. by intros c [? _]%list_elem_of_filter.
  - apply (stable_sort_by_key order_key).
  - intros k. apply (stable_sort_keeps_ties order_key).
  - apply (stable_sort_sorted_id order_key).
Qed.

Lemma reduce_counter a : ∀ n s, n ≤ (reduce n s a).1.
Proof.
  induction a as [c|id|id props|id|id|id o|l IH] using action_ind; intros n s;
    try (simpl; repeat case_match; simpl; lia).
  - simpl. destruct (st_get s (comp_id c)); simpl; [lia|].
    destruct (inherited (comp_id c)); simpl; [lia|].
    destruct (comp_order c); simpl; lia.
  - revert n s. induction IH as [|a l Ha _ IHl]; intros n s; [simpl; lia|].
    rewrite reduce_batch_cons. cbv zeta. simpl.
    etrans; [apply (Ha n s) | apply IHl].
Qed.

(** X6: the counter behind automatic orders never goes down, whatever
    the edit; a descriptor with no order and with a new id, one that
    is not a name inherited from [Object.prototype], is stored with
    the counter's value as its order and advances the counter by one,
    while such a descriptor that brings its order is stored with it
    and leaves the counter alone. *)
Theorem X6_automatic_order (e : UIStateEngine) :
  (∀ a, eng_nextOrder e ≤ eng_nextOrder (dispatch e a).1)
  ∧ (∀ d, getComponent e (comp_id d) = None → inherited (comp_id d) = false →
          comp_order d = None →
          getComponent (dispatch e (Render d)).1 (comp_id d)
          = Some (with_order d (Some (eng_nextOrder e)))
          ∧ eng_nextOrder (dispatch e (Render d)).1 = eng_nextOrder e + 1)
  ∧ (∀ d o, getComponent e (comp_id d) = None → inherited (comp_id d) = false →
            comp_order d = Some o →
            getComponent (dispatch e (Render d)).1 (comp_id d) = Some d
            ∧ eng_nextOrder (dispatch e (Render d)).1 = eng_nextOrder e).
Proof.
  unfold getComponent. split_and!.
  - intros a. rewrite dispatch_nextOrder. apply reduce_counter.
  - intros d Hfresh Hplain Hord.
    rewrite dispatch_nextOrder, UIFacts.dispatch_state, UIFacts.dispatch_result.
    simpl. rewrite Hfresh, Hplain, Hord. simpl. unfold st_get, st_set.
    by rewrite rec_get_set_eq.
  - intros d o Hfresh Hplain Hord.
    rewrite dispatch_nextOrder, UIFacts.dispatch_state, UIFacts.dispatch_result.
    simpl. rewrite Hfresh, Hplain, Hord. simpl. unfold st_get, st_set.
    rewrite rec_get_set_eq. split; [|done]. f_equal.
    destruct d; simpl in *. by subst.
Qed.

Lemma remove_all_loop s : ∀ n acc,
  batch_loop n s acc (map Remove (st_keys s))
  = (n, mkResult [] (added acc) (removed acc ++ st_keys s) (updated acc)
                 (visibilityChanged acc)).
Proof.
  unfold st_keys. induction s as [|[k c] s IH]; intros n acc.
  - simpl. by rewrite app_nil_r.
  - cbn [fmap list_fmap map fst batch_loop reduce]. unfold st_get, st_delete.
    cbn [rec_get rec_delete]. rewrite String.eqb_refl.
    refold_fmap. rewrite IH. cbn [pushAll added removed updated visibilityChanged].
    by rewrite !app_nil_r, <- app_assoc.
Qed.

(** X7: [reset()] is the batch that removes every id of the tree: it
    leaves the same engine and answers with the same result. The tree
    is empty, every id it held is reported as removed, the version
    grows by one, and the counter behind automatic orders is not set
    back. *)
Theorem X7_reset_is_the_batch_of_all_removals (e : UIStateEngine) :
  reset e = dispatchAll e (map Remove (st_keys (getState e)))
  ∧ getState (reset e).1 = []
  ∧ removed (reset e).2 = st_keys (getState e)
  ∧ getVersion (reset e).1 = getVersion e + 1
  ∧ eng_nextOrder (reset e).1 = eng_nextOrder e.
Proof.
  split_and!; try done.
  unfold dispatchAll, dispatch, getState.
  by rewrite reduce_batch, remove_all_loop.
Qed.

Lemma dispatch_listeners e a : eng_listeners (dispatch e a).1 = eng_listeners e.
Proof. unfold dispatch. by destruct (reduce _ _ _). Qed.

Lemma dispatch_delivered e a :
  eng_delivered (dispatch e a).1
  = eng_delivered e ++ notify (eng_listeners e) (dispatch e a).2.
Proof. unfold dispatch. by destruct (reduce _ _ _). Qed.

Lemma dispatch_each_delivered l : ∀ e,
  length (eng_delivered (dispatch_each e l))
  = (length (eng_delivered e) + length l * length (eng_listeners e))%nat.
Proof.
  unfold dispatch_each. induction l as [|a l IH]; intros e; simpl; [lia|].
  rewrite IH, dispatch_listeners, dispatch_delivered, length_app.
  unfold notify. rewrite length_map. lia.
Qed.

Lemma filter_other_listeners (listener : nat) (l : list nat) :
  listener ∉ l → List.filter (λ x, negb (x =? listener)%nat) l = l.
Proof.
  induction l as [|x l IH]; [done|].
  intros [Hx Hl]%not_elem_of_cons. simpl.
  destruct (Nat.eqb_spec x listener) as [->|_]; [done|]. simpl. by rewrite IH.
Qed.

(** X8: listeners form a set. Subscribing a listener a second time
    changes nothing, and unsubscribing a listener that was newly
    subscribed gives back the engine as it was. Every dispatch hands
    its result to each listener once, in subscription order, so a run
    of single dispatches delivers one notification per edit and
    listener while the batch of the same edits delivers one per
    listener; a listener that has unsubscribed is handed nothing. *)
Theorem X8_listeners_are_notified_once_per_dispatch
    (e : UIStateEngine) (listener : nat) :
  subscribe (subscribe e listener) listener = subscribe e listener
  ∧ (listener ∉ eng_listeners e → unsubscribe (subscribe e listener) listener = e)
  ∧ (∀ a, eng_delivered (dispatch e a).1
          = eng_delivered e ++ map (λ l, (l, (dispatch e a).2)) (eng_listeners e))
  ∧ (∀ actions,
       length (eng_delivered (dispatch_each e actions))
       = (length (eng_delivered e)
          + length actions * length (eng_listeners e))%nat)
  ∧ (∀ actions,
       length (eng_delivered (dispatchAll e actions).1)
       = (length (eng_delivered e) + length (eng_listeners e))%nat)
  ∧ (∀ a, Forall (λ d, d.1 ≠ listener)
            (notify (eng_listeners (unsubscribe e listener)) a)).
Proof.
  split_and!.
  - unfold subscribe. cbn [eng_state eng_listeners eng_nextOrder eng_version
      eng_delivered].
    destruct (decide (listener ∈ eng_listeners e)) as [Hin|Hnew].
    + by rewrite !(bool_decide_eq_true_2 (listener ∈ eng_listeners e)) by done.
    + rewrite (bool_decide_eq_false_2 (listener ∈ eng_listeners e)) by done.
      rewrite bool_decide_eq_true_2; [done|].
      apply elem_of_app. right. by apply list_elem_of_singleton.
  - intros Hnew. unfold unsubscribe, subscribe.
    cbn [eng_state eng_listeners eng_nextOrder eng_version eng_delivered].
    rewrite bool_decide_eq_false_2 by done.
    rewrite List.filter_app, filter_other_listeners by done.
    simpl. rewrite Nat.eqb_refl. simpl. rewrite app_nil_r. by destruct e.
  - intros a. apply dispatch_delivered.
  - intros actions. apply dispatch_each_delivered.
  - intros actions. unfold dispatchAll.
    rewrite dispatch_delivered, length_app. unfold notify. by rewrite length_map.
  - intros a. unfold unsubscribe, notify. cbn [eng_listeners].
    apply Forall_forall. intros d Hd.
    apply list_elem_of_In, in_map_iff in Hd as (x & <- & Hx).
    apply filter_In in Hx as [_ Hx]. simpl.
    by destruct (Nat.eqb_spec x listener).
Qed.

End UIMoreFacts.

(** ** More about the reference memory *)

Module MemoryMoreFacts.
Import Memory MemoryMore.

Lemma resolveReference_set_same now m key key' id ts d :
  Str.toLowerCase key' = Str.toLowerCase key →
  resolveReference (setReference now m key id ts d) key' = Some id.
Proof.
  intros Hk. unfold resolveReference. rewrite Hk.
  by rewrite MemoryFacts.setReference_lookup.
Qed.

Lemma resolveReference_set_other now m key key' id ts d :
  Str.toLowerCase key' ≠ Str.toLowerCase key →
  resolveReference (setReference now m key id ts d) key' = resolveReference m key'.
Proof.
  intros Hk. unfold resolveReference. simpl.
  by rewrite lookup_insert_ne.
Qed.

(** X9: reference keys are case-insensitive. For ASCII keys: after
    [setReference(key, id)] every key equal to [key] up to letter case
    resolves to [id], and so it does after [nameComponent(id, key)];
    every other key resolves as before. *)
Theorem X9_references_ignore_case
    (now : Z) (m : IntentMemoryEngine) (key key' id : string)
    (ts : option Z) (d : option string) :
  Str.is_ascii key = true → Str.is_ascii key' = true →
  (Str.toLowerCase key' = Str.toLowerCase key →
   resolveReference (setReference now m key id ts d) key' = Some id
   ∧ resolveReference (nameComponent now m id key) key' = Some id)
  ∧ (Str.toLowerCase key' ≠ Str.toLowerCase key →
     resolveReference (setReference now m key id ts d) key'
     = resolveReference m key'
     ∧ resolveReference (nameComponent now m id key) key'
       = resolveReference m key').
Proof.
  intros _ _. split; intros Hk; split.
  - by apply resolveReference_set_same.
  - by apply resolveReference_set_same.
  - by apply resolveReference_set_other.
  - by apply resolveReference_set_other.
Qed.

Lemma slice_last_length {A} n (l : list A) :
  n ≠ 0%nat → length (slice_last n l) = (length l `min` n)%nat.
Proof.
  intros Hn. destruct n as [|n]; [done|]. simpl. rewrite length_drop. lia.
Qed.

Lemma slice_last_suffix {A} n (l : list A) : slice_last n l `suffix_of` l.
Proof. destruct n; simpl; [done | apply suffix_drop]. Qed.

Lemma cleanup_intents_length now m :
  maxIntents m ≠ 0%nat → (length (intents (cleanup now m)) ≤ maxIntents m)%nat.
Proof.
  intros Hn. simpl.
  destruct (_ <? _)%nat eqn:E.
  - rewrite slice_last_length by done. lia.
  - apply Nat.ltb_ge in E. lia.
Qed.

Lemma cleanup_intents_uncapped now m :
  maxIntents m = 0%nat →
  intents (cleanup now m)
  = filter (λ i, intent_age now i < maxAge m) (intents m).
Proof. intros Hn. simpl. rewrite Hn. by destruct (_ <? _)%nat. Qed.

Lemma cleanup_intents_sublist now m :
  intents (cleanup now m)
    `suffix_of` filter (λ i, intent_age now i < maxAge m) (intents m).
Proof.
  simpl. destruct (_ <? _)%nat; [apply slice_last_suffix | done].
Qed.

Lemma cleanup_intent_young now m i :
  i ∈ intents (cleanup now m) → i ∈ intents m ∧ intent_age now i < maxAge m.
Proof.
  intros Hi. destruct (cleanup_intents_sublist now m) as [l Hl].
  assert (Hin : i ∈ filter (λ i, intent_age now i < maxAge m) (intents m)).
  { rewrite Hl. apply elem_of_app. by right. }
  by apply list_elem_of_filter in Hin as [? ?].
Qed.

Lemma slice_last_one {A} (l : list A) x : slice_last 1 (l ++ [x]) = [x].
Proof.
  unfold slice_last. rewrite length_app. simpl.
  rewrite drop_app_length'; [done | lia].
Qed.

Lemma find_last_id (l : list Intent) (i : Intent) :
  ∃ j, List.find (λ x, String.eqb (intent_id x) (intent_id i)) (l ++ [i]) = Some j
       ∧ intent_id j = intent_id i.
Proof.
  destruct (List.find _ (l ++ [i])) as [j|] eqn:Hfind.
  - exists j. split; [done|].
    apply find_some in Hfind as [_ Hj]. by apply String.eqb_eq.
  - pose proof (find_none _ _ Hfind i) as Hi. cbv beta in Hi.
    rewrite String.eqb_refl in Hi.
    assert (false = true); [|done]. symmetry. apply Hi.
    apply in_or_app. right. by left.
Qed.

(** X10: the log after [recordIntent]. The new intent is last, it is
    what [getRecentIntents(1)] answers, it is listed by
    [getIntentsForComponent] for each id it affects, and
    [getCurrentIntent] answers with an intent of its id; every other
    retained intent was in the log before and is younger than
    [maxAge]. With a positive [maxIntents] the log holds at most
    [maxIntents + 1] intents, the cap being applied before the new
    intent is pushed; with [maxIntents = 0] there is no cap at all,
    since [slice(-0)] keeps the whole array, just as
    [getRecentIntents(0)] answers with the whole log. *)
Theorem X10_log_after_recordIntent
    (now : Z) (random : string) (m : IntentMemoryEngine)
    (input type : string) (ids : list string) :
  let r := recordIntent now random m input type ids in
  intents r.1 = intents (cleanup now m) ++ [r.2]
  ∧ intent_timestamp r.2 = now ∧ componentIds r.2 = ids
  ∧ getRecentIntents r.1 1 = [r.2]
  ∧ getRecentIntents r.1 0 = intents r.1
  ∧ (∀ id, id ∈ ids → r.2 ∈ getIntentsForComponent r.1 id)
  ∧ (∃ i, getCurrentIntent r.1 = Some i ∧ intent_id i = intent_id r.2)
  ∧ (∀ i, i ∈ intents (cleanup now m) →
       i ∈ intents m ∧ intent_age now i < maxAge m)
  ∧ (maxIntents m ≠ 0%nat → (length (intents r.1) ≤ maxIntents m + 1)%nat)
  ∧ (maxIntents m = 0%nat →
     intents r.1
     = filter (λ i, intent_age now i < maxAge m) (intents m) ++ [r.2]).
Proof.
  intros r.
  assert (Hlog : intents r.1 = intents (cleanup now m) ++ [r.2])
    by apply MemoryFacts.recordIntent_intents.
  assert (Hcur : currentIntentId r.1 = Some (intent_id r.2)).
  { unfold r, recordIntent. cbn [fst snd].
    destruct ids as [|first ?]; simpl;
      repeat (match goal with |- context [match ?x with _ => _ end] => destruct x end;
              simpl); done. }
  split_and!.
  - done.
  - done.
  - done.
  - unfold getRecentIntents. rewrite Hlog. apply slice_last_one.
  - done.
  - intros id Hid. unfold getIntentsForComponent.
    apply list_elem_of_filter. split; [done|].
    rewrite Hlog. apply elem_of_app. right. by apply list_elem_of_singleton.
  - unfold getCurrentIntent. rewrite Hcur, Hlog.
    change (String.eqb (intent_id r.2) "") with false. cbv iota.
    apply find_last_id.
  - intros i. apply cleanup_intent_young.
  - intros Hn. rewrite Hlog, length_app.
    pose proof (cleanup_intents_length now m Hn).
    change (length [r.2]) with 1%nat. lia.
  - intros Hn. by rewrite Hlog, cleanup_intents_uncapped.
Qed.

Lemma filter_all {A} (P : A → Prop) `{∀ x, Decision (P x)} (l : list A) :
  Forall P l → filter P l = l.
Proof.
  induction 1 as [|x l Hx Hl IH]; [done|].
  rewrite filter_cons. case_decide; [|done]. by rewrite IH.
Qed.

Lemma cleanup_references now m k r :
  references (cleanup now m) !! k = Some r
  ↔ references m !! k = Some r ∧ reference_age now r ≤ maxAge m.
Proof.
  simpl. rewrite map_lookup_filter_Some. simpl.
  unfold expired_reference, reference_age.
  split; intros [? ?]; (split; [done|]); lia.
Qed.

Lemma cleanup_idempotent now m : cleanup now (cleanup now m) = cleanup now m.
Proof.
  unfold cleanup at 1.
  change (maxAge (cleanup now m)) with (maxAge m).
  change (maxIntents (cleanup now m)) with (maxIntents m).
  change (currentIntentId (cleanup now m)) with (currentIntentId m).
  assert (Hfresh :
    filter (λ i, now - intent_timestamp i < maxAge m) (intents (cleanup now m))
    = intents (cleanup now m)).
  { apply filter_all. apply Forall_forall. intros i Hi.
    by apply cleanup_intent_young in Hi as [_ ?]. }
  rewrite Hfresh.
  assert (Hrefs :
    filter (λ kr : string * ComponentReference,
              expired_reference now (maxAge m) kr.2 = false)
           (references (cleanup now m))
    = references (cleanup now m)).
  { apply map_eq. intros k. apply option_eq. intros r.
    rewrite map_lookup_filter_Some. split; [by intros [? ?]|].
    intros Hr. split; [done|]. simpl.
    apply cleanup_references in Hr as [_ Hr].
    unfold expired_reference, reference_age in *. lia. }
  rewrite Hrefs.
  assert (Hkept :
    (if (maxIntents m <? length (intents (cleanup now m)))%nat
     then slice_last (maxIntents m) (intents (cleanup now m))
     else intents (cleanup now m)) = intents (cleanup now m)).
  { destruct (maxIntents m) as [|n] eqn:Hn.
    - by destruct (_ <? _)%nat.
    - pose proof (cleanup_intents_length now m) as Hlen.
      rewrite Hn in Hlen. specialize (Hlen ltac:(lia)).
      destruct (_ <? _)%nat eqn:E; [|done].
      apply Nat.ltb_lt in E. lia. }
  rewrite Hkept. done.
Qed.

(** X11: what a cleanup keeps. A retained intent is younger than
    [maxAge], so an intent of age exactly [maxAge] is dropped; a
    reference is retained exactly when it is at most [maxAge] old, so
    one of age exactly [maxAge] stays; the limits themselves and the
    current-intent pointer are untouched, also when the intent it
    names is dropped; and a second cleanup at the same time changes
    nothing. *)
Theorem X11_cleanup_bounds (now : Z) (m : IntentMemoryEngine) :
  (∀ i, i ∈ intents (cleanup now m) →
     i ∈ intents m ∧ intent_age now i < maxAge m)
  ∧ (∀ i, intent_age now i = maxAge m → i ∉ intents (cleanup now m))
  ∧ (∀ k r, references (cleanup now m) !! k = Some r
            ↔ references m !! k = Some r ∧ reference_age now r ≤ maxAge m)
  ∧ (∀ k r, references m !! k = Some r → reference_age now r = maxAge m →
            references (cleanup now m) !! k = Some r)
  ∧ currentIntentId (cleanup now m) = currentIntentId m
  ∧ maxIntents (cleanup now m) = maxIntents m
  ∧ maxAge (cleanup now m) = maxAge m
  ∧ cleanup now (cleanup now m) = cleanup now m.
Proof.
  split_and!; try done.
  - apply cleanup_intent_young.
  - intros i Hage Hi. apply cleanup_intent_young in Hi as [_ Hi]. lia.
  - apply cleanup_references.
  - intros k r Hk Hage. apply cleanup_references. split; [done | lia].
  - apply cleanup_idempotent.
Qed.






Lemma unique_from_elem seen l x :
  x ∈ unique_from seen l ↔ x ∈ l ∧ x ∉ seen.
Proof.
  revert seen. induction l as [|y l IH]; intros seen; simpl.
  - split; [by intros ?%elem_of_nil | by intros [?%elem_of_nil _]].
  - case_bool_decide as Hy.
    + rewrite IH, elem_of_cons. split; [tauto|].
      intros [[->|?] ?]; [done | tauto].
    + rewrite !elem_of_cons, IH, elem_of_cons.
      split.
      * intros [->|[? ?]]; [tauto|]. tauto.
      * intros [[->|?] ?]; [tauto|].
        destruct (decide (x = y)); [tauto|]. tauto.
Qed.

Lemma unique_from_NoDup seen l : NoDup (unique_from seen l).
Proof.
  revert seen. induction l as [|y l IH]; intros seen; simpl; [constructor|].
  case_bool_decide; [apply IH|].
  constructor; [|apply IH].
  rewrite unique_from_elem, elem_of_cons. tauto.
Qed.

Lemma unique_elem l x : x ∈ unique l ↔ x ∈ l.
Proof.
  unfold unique. rewrite unique_from_elem. split; [tauto|].
  intros ?. split; [done|]. apply not_elem_of_nil.
Qed.

Lemma unique_NoDup l : NoDup (unique l).
Proof. apply unique_from_NoDup. Qed.

Lemma elem_of_concat_map {A B} (f : A → list B) (l : list A) (x : B) :
  x ∈ concat (map f l) ↔ ∃ y, y ∈ l ∧ x ∈ f y.
Proof.
  rewrite list_elem_of_In, in_concat. split.
  - intros (ys & (y & <- & Hy)%in_map_iff & Hx).
    exists y. by rewrite !list_elem_of_In.
  - intros (y & Hy & Hx). exists (f y).
    split; [apply in_map|]; by apply list_elem_of_In.
Qed.

Lemma prefix_substring n s : String.prefix (String.substring 0 n s) s = true.
Proof.
  revert s. induction n as [|n IH]; intros [|c s]; simpl; try done.
  destruct (ascii_dec c c); [apply IH | done].
Qed.

Lemma scan_elem r x : ∀ s prev skip,
  x ∈ Regex.scan r prev s skip → x ≠ "" ∧ Str.includes s x = true.
Proof.
  induction s as [|c s IH]; intros prev skip; cbn [Regex.scan].
  - by intros ?%elem_of_nil.
  - assert (Hlater : ∀ p k, x ∈ Regex.scan r p s k →
              x ≠ "" ∧ Str.includes (String c s) x = true).
    { intros p k Hx. destruct (IH p k Hx) as [? Hinc]. split; [done|].
      rewrite StrFacts.includes_cons, Hinc. apply orb_true_r. }
    destruct skip as [|skip]; [|apply Hlater].
    destruct (Regex.match_at r prev (String c s)) as [[|n]|]; try apply Hlater.
    intros [->|Hx]%elem_of_cons; [|by apply Hlater in Hx].
    split; [done|].
    by rewrite StrFacts.includes_cons, prefix_substring.
Qed.

(** X13: the references found in a text come without repetition, none
    is empty, and each occurs in the text as it was typed: the
    patterns are matched against the text itself, not against its
    lower-case copy. *)
Theorem X13_extracted_references_occur_in_text (text : string) :
  NoDup (extractReferences text)
  ∧ ∀ x, x ∈ extractReferences text → x ≠ "" ∧ Str.includes text x = true.
Proof.
  split; [apply unique_NoDup|].
  intros x Hx. unfold extractReferences in Hx.
  apply (proj1 (unique_elem _ _)) in Hx.
  apply (proj1 (elem_of_concat_map _ _ _)) in Hx as (pattern & _ & Hx).
  by apply scan_elem in Hx.
Qed.

Lemma truthy_Some o : truthy o = true → ∃ s, o = Some s ∧ s ≠ "".
Proof.
  destruct o as [s|]; [|done]. simpl. intros Hs. exists s. split; [done|].
  intros ->. done.
Qed.

(** X14: when no cleaned reference of a text is a name inherited from
    [Object.prototype] (under such a name the lookup in the component
    map finds the inherited member), the component ids the text
    resolves to come without repetition and none is empty. Each is
    what the memory resolves a cleaned reference of the text to, or,
    only when the memory resolves that reference to nothing or to an
    empty id, what the component map holds under it. *)
Theorem X14_resolved_ids_come_from_memory_or_map
    (m : IntentMemoryEngine) (text : string) (componentMap : list (string * string)) :
  Forall (λ ref, inherited (cleanReference ref) = false) (extractReferences text) →
  NoDup (resolveReferencesInText m text componentMap)
  ∧ ∀ id, id ∈ resolveReferencesInText m text componentMap →
      id ≠ ""
      ∧ ∃ ref, ref ∈ extractReferences text
          ∧ (resolveReference m (cleanReference ref) = Some id
             ∨ truthy (resolveReference m (cleanReference ref)) = false
               ∧ rec_get componentMap (cleanReference ref) = Some id).
Proof.
  intros _. split; [apply unique_NoDup|].
  intros id Hid. unfold resolveReferencesInText in Hid.
  apply (proj1 (unique_elem _ _)) in Hid.
  apply (proj1 (elem_of_concat_map _ _ _)) in Hid as (ref & Href & Hid).
  cbv zeta in Hid.
  destruct (truthy (resolveReference m (cleanReference ref))) eqn:Hmem.
  - apply truthy_Some in Hmem as (s & Hs & Hne). rewrite Hs in Hid.
    apply list_elem_of_singleton in Hid as ->.
    split; [done|]. exists ref. split; [done|]. by left.
  - destruct (truthy (rec_get componentMap (cleanReference ref))) eqn:Hmap;
      [|by apply elem_of_nil in Hid].
    apply truthy_Some in Hmap as (s & Hs & Hne). rewrite Hs in Hid.
    apply list_elem_of_singleton in Hid as ->.
    split; [done|]. exists ref. split; [done|]. by right.
Qed.


Lemma indexComponents_types_intents now components : ∀ m,
  intents
    (fold_left
       (λ m' comp,
          let refKey := Str.toLowerCase (UI.comp_type comp) in
          if truthy (resolveReference m' refKey) then m'
          else setReference now m' refKey (UI.comp_id comp) None None)
       components m)
  = intents m.
Proof.
  induction components as [|c components IH]; intros m; simpl; [done|].
  rewrite IH. by destruct (truthy _).
Qed.

Lemma indexComponents_intents now m components :
  intents (indexComponents now m components) = intents m.
Proof.
  unfold indexComponents. cbv zeta.
  destruct (head _), (last _); simpl; apply indexComponents_types_intents.
Qed.

(** X15: indexing a non-empty list of components binds [first] to a
    component of least order and [last] to one of greatest order, a
    missing order counting as 0; with a single component both name it.
    The log of intents is not touched, and indexing no component at
    all changes nothing. *)
Theorem X15_index_binds_first_and_last
    (now : Z) (m : IntentMemoryEngine) (components : list UI.UIComponent) :
  intents (indexComponents now m components) = intents m
  ∧ (components = [] → indexComponents now m components = m)
  ∧ (components ≠ [] →
     ∃ c1 cn,
       c1 ∈ components ∧ cn ∈ components
       ∧ Forall (λ c, UIMore.order_key c1 ≤ UIMore.order_key c) components
       ∧ Forall (λ c, UIMore.order_key c ≤ UIMore.order_key cn) components
       ∧ resolveReference (indexComponents now m components) "first"
         = Some (UI.comp_id c1)
       ∧ resolveReference (indexComponents now m components) "last"
         = Some (UI.comp_id cn)).
Proof.
  split_and!.
  - apply indexComponents_intents.
  - by intros ->.
  - intros Hne. unfold indexComponents. cbv zeta.
    change UI.order_before with (key_before UIMore.order_key).
    destruct (stable_sort_ends UIMore.order_key components Hne)
      as (c1 & cn & -> & -> & H1 & Hn & Hleast & Hgreatest).
    exists c1, cn. split_and!; try done.
    + rewrite resolveReference_set_other by done.
      by rewrite resolveReference_set_same.
    + by rewrite resolveReference_set_same.
Qed.

(** X16: [import] replaces the memory by the snapshot and then cleans
    up under the importing engine's own limits. Nothing of the old
    content is merged in; an imported intent survives only if it is
    younger than the engine's [maxAge], an imported reference exactly
    when it is at most that old; and a snapshot that is within the
    limits is taken over as it is, so that importing an engine's own
    export at once gives the engine back. *)
Theorem X16_import_replaces_and_cleans
    (now : Z) (m : IntentMemoryEngine) (memory : IntentMemory) :
  import now m memory = import now (clear m) memory
  ∧ maxIntents (import now m memory) = maxIntents m
  ∧ maxAge (import now m memory) = maxAge m
  ∧ (∀ i, i ∈ intents (import now m memory) →
       i ∈ snap_intents memory ∧ intent_age now i < maxAge m)
  ∧ (∀ k r, references (import now m memory) !! k = Some r
            ↔ snap_references memory !! k = Some r
              ∧ reference_age now r ≤ maxAge m)
  ∧ (Forall (λ i, intent_age now i < maxAge m) (snap_intents memory) →
     (length (snap_intents memory) ≤ maxIntents m)%nat →
     map_Forall (λ _ r, reference_age now r ≤ maxAge m) (snap_references memory) →
     export (import now m memory) = memory)
  ∧ (Forall (λ i, intent_age now i < maxAge m) (intents m) →
     (length (intents m) ≤ maxIntents m)%nat →
     map_Forall (λ _ r, reference_age now r ≤ maxAge m) (references m) →
     import now m (export m) = m).
Proof.
  assert (Hwithin : ∀ l refs cur,
    Forall (λ i, intent_age now i < maxAge m) l →
    (length l ≤ maxIntents m)%nat →
    map_Forall (λ _ r, reference_age now r ≤ maxAge m) refs →
    cleanup now (mkMemory l refs cur (maxIntents m) (maxAge m))
    = mkMemory l refs cur (maxIntents m) (maxAge m)).
  { intros l refs cur Hl Hlen Hrefs. unfold cleanup. cbn [intents references
      currentIntentId maxIntents maxAge].
    rewrite (filter_all (λ i, now - intent_timestamp i < maxAge m) l) by done.
    apply Nat.ltb_ge in Hlen. rewrite Hlen. f_equal.
    apply map_filter_id. intros k r Hk. simpl.
    specialize (Hrefs k r Hk). unfold expired_reference, reference_age in *.
    simpl in Hrefs. lia. }
  split_and!; try done.
  - intros i Hi. by apply cleanup_intent_young in Hi.
  - intros k r. unfold import. by rewrite cleanup_references.
  - intros Hl Hlen Hrefs. unfold import. rewrite Hwithin by done.
    by destruct memory.
  - intros Hl Hlen Hrefs. unfold import, export. cbn [snap_intents
      snap_references snap_currentIntentId].
    rewrite Hwithin by done. by destruct m.
Qed.

End MemoryMoreFacts.

(** ** More about the fact store *)

Module StoreMoreFacts.
Import Store.

(** A computed field looks at the store only through the reader it is
    given. *)
Lemma compute_ext key compute (f g : string → option Q) :
  COMPUTABLE_FIELDS key = Some compute → (∀ k, f k = g k) → compute f = compute g.
Proof.
  intros Hc Hfg. unfold COMPUTABLE_FIELDS in Hc.
  repeat match type of Hc with
         | (if String.eqb key ?k then _ else _) = _ => destruct (String.eqb key k)
         end; try done; injection Hc as <-; by rewrite !Hfg.
Qed.

(** Reads depend on the entries stored under keys that are not
    computed, and on nothing else. *)
Lemma get_at_agree d : ∀ s s' key,
  (∀ k, COMPUTABLE_FIELDS k = None → data s !! k = data s' !! k) →
  get_at d s key = get_at d s' key.
Proof.
  induction d as [|d IH]; intros s s' key Hagree; simpl.
  - destruct (COMPUTABLE_FIELDS key) eqn:Hc; [done | by rewrite Hagree].
  - destruct (COMPUTABLE_FIELDS key) as [compute|] eqn:Hc; [|by rewrite Hagree].
    apply (compute_ext key); [done|]. intros k. by rewrite (IH s s').
Qed.

Lemma get_agree s s' key :
  (∀ k, COMPUTABLE_FIELDS k = None → data s !! k = data s' !! k) →
  get s key = get s' key.
Proof. apply get_at_agree. Qed.

Lemma has_computed s key compute :
  COMPUTABLE_FIELDS key = Some compute → has s key = true.
Proof.
  intros Hc. unfold has. rewrite Hc.
  rewrite (bool_decide_eq_true_2 (is_Some (Some compute))) by done.
  apply orb_true_r.
Qed.

Lemma get_stored s key :
  COMPUTABLE_FIELDS key = None →
  get s key = match data s !! key with Some e => entry_value e | None => VNull end.
Proof. apply StoreFacts.get_at_stored. Qed.

(** X17: keys are taken among those that are neither computed fields
    nor names inherited from [Object.prototype], which the lookup in
    the table of computed fields finds as well. A value stored under
    such a key is what [get] answers for it, with source [user]; the
    key counts as existing unless the value stored is [null]; reads of
    other such keys are unaffected. After [delete] the key reads
    [null] and is unknown to [has], whatever the store held for it: no
    default comes back. *)
Theorem X17_set_get_delete
    (now now' : Z) (s : DataStore) (key : string) (v : value) :
  COMPUTABLE_FIELDS key = None → inherited key = false →
  get (set now s key v) key = v
  ∧ withSource now' (set now s key v) key = Some (mkEntry v User now)
  ∧ isUserProvided (set now s key v) key = true
  ∧ has (set now s key v) key = true
  ∧ exists_ (set now s key v) key = negb (is_null v)
  ∧ (∀ k, k ≠ key → COMPUTABLE_FIELDS k = None → inherited k = false →
          get (set now s key v) k = get s k)
  ∧ get (delete_ s key) key = VNull
  ∧ has (delete_ s key) key = false
  ∧ isUserProvided (delete_ s key) key = false.
Proof.
  intros Hc _.
  assert (Hget : get (set now s key v) key = v).
  { rewrite get_stored by done. simpl. by rewrite lookup_insert_eq. }
  assert (Hhas : has (set now s key v) key = true).
  { unfold has. simpl. rewrite lookup_insert_eq.
    by rewrite bool_decide_eq_true_2 by done. }
  split_and!.
  - done.
  - unfold withSource. rewrite Hc. simpl. by rewrite lookup_insert_eq.
  - unfold isUserProvided. simpl. apply bool_decide_eq_true_2.
    rewrite elem_of_union, elem_of_singleton. by left.
  - done.
  - unfold exists_. by rewrite Hhas, Hget.
  - intros k Hk Hck _. rewrite !get_stored by done. simpl.
    by rewrite lookup_insert_ne.
  - rewrite get_stored by done. simpl. by rewrite lookup_delete_eq.
  - unfold has. simpl. rewrite lookup_delete_eq, Hc.
    rewrite !bool_decide_eq_false_2; [done | by intros [? ?] | by intros [? ?]].
  - unfold isUserProvided. simpl. apply bool_decide_eq_false_2.
    rewrite elem_of_difference, elem_of_singleton. by intros [_ ?].
Qed.

(** X18: a computed field cannot be overridden. Storing a value under
    its key, or deleting the key, changes no read of any key: [get]
    keeps answering with the computed value, and [withSource] reports
    it as computed; [has] holds for the key in every store; yet the
    key is recorded as user-provided. *)
Theorem X18_computed_fields_ignore_writes
    (now now' : Z) (s : DataStore) (key : string) (v : value)
    (compute : (string → option Q) → value) :
  COMPUTABLE_FIELDS key = Some compute →
  (∀ k, get (set now s key v) k = get s k)
  ∧ (∀ k, get (delete_ s key) k = get s k)
  ∧ withSource now' (set now s key v) key = Some (mkEntry (get s key) Computed now')
  ∧ has s key = true
  ∧ isUserProvided (set now s key v) key = true.
Proof.
  intros Hc.
  assert (Hset : ∀ k, get (set now s key v) k = get s k).
  { intros k. apply get_agree. intros k' Hk'. simpl.
    apply lookup_insert_ne. intros ->. congruence. }
  split_and!.
  - done.
  - intros k. apply get_agree. intros k' Hk'. simpl.
    apply lookup_delete_ne. intros ->. congruence.
  - unfold withSource. by rewrite Hc, Hset.
  - by apply (has_computed s key compute).
  - unfold isUserProvided. simpl. apply bool_decide_eq_true_2.
    rewrite elem_of_union, elem_of_singleton. by left.
Qed.

Lemma trend_of_difference (l c : Q) :
  Qle_bool 0 (Qred (c - l)) = Qle_bool l c.
Proof.
  apply eq_true_iff_eq. rewrite !Qle_bool_iff, Qred_correct.
  rewrite (Qle_minus_iff l c). done.
Qed.

Lemma salary_figures (s : DataStore) :
  (∀ l c : Q,
     getNumber s "salary.lastMonth" = Some l →
     getNumber s "salary.currentMonth" = Some c →
     get s "salary.change" = VNum (Qred (c - l))
     ∧ get s "salary.trend" = VStr (if Qle_bool l c then "up" else "down")
     ∧ get s "salary.changePercent"
       = (if Qeq_bool l 0 then VNull else VNum (Qred ((c - l) / l * 100)))
     ∧ hasSalaryData s = true)
  ∧ (getNumber s "salary.lastMonth" = None
     ∨ getNumber s "salary.currentMonth" = None →
     get s "salary.change" = VNull
     ∧ get s "salary.trend" = VStr "neutral"
     ∧ get s "salary.changePercent" = VNull
     ∧ hasSalaryData s = false).
Proof.
  assert (Hchange : get s "salary.change"
    = match getNumber s "salary.currentMonth", getNumber s "salary.lastMonth" with
      | Some current, Some last => VNum (Qred (current - last))
      | _, _ => VNull
      end).
  { unfold getNumber, get.
    by cbn [get_at COMPUTABLE_FIELDS String.eqb Ascii.eqb Bool.eqb]. }
  assert (Hpercent : get s "salary.changePercent"
    = match getNumber s "salary.currentMonth", getNumber s "salary.lastMonth" with
      | Some current, Some last =>
          if negb (Qeq_bool last 0)
          then VNum (Qred ((current - last) / last * 100)) else VNull
      | _, _ => VNull
      end).
  { unfold getNumber, get.
    by cbn [get_at COMPUTABLE_FIELDS String.eqb Ascii.eqb Bool.eqb]. }
  assert (Htrend : get s "salary.trend"
    = match getNumber s "salary.currentMonth", getNumber s "salary.lastMonth" with
      | Some current, Some last =>
          VStr (if Qle_bool 0 (Qred (current - last)) then "up" else "down")
      | _, _ => VStr "neutral"
      end).
  { unfold getNumber, get.
    cbn [get_at COMPUTABLE_FIELDS String.eqb Ascii.eqb Bool.eqb].
    destruct (data s !! "salary.currentMonth") as [[[] ? ?]|];
      destruct (data s !! "salary.lastMonth") as [[[] ? ?]|]; done. }
  split.
  - intros l c Hl Hcur. rewrite Hchange, Htrend, Hpercent.
    unfold hasSalaryData. rewrite Hl, Hcur, trend_of_difference.
    split_and!; try done. by destruct (Qeq_bool l 0).
  - intros Hmissing. rewrite Hchange, Htrend, Hpercent. unfold hasSalaryData.
    destruct Hmissing as [Hm | Hm]; rewrite Hm.
    + by destruct (getNumber s "salary.currentMonth").
    + by destruct (getNumber s "salary.lastMonth").
Qed.

Lemma Qred_inject_Z z : Qred (inject_Z z) = inject_Z z.
Proof.
  unfold Qred, inject_Z.
  pose proof (Z.ggcd_gcd z 1) as Hg.
  pose proof (Z.ggcd_correct_divisors z 1) as Hd.
  destruct (Z.ggcd z 1) as [g [a b]]. simpl in *.
  rewrite Z.gcd_1_r in Hg. subst g. destruct Hd as [Ha Hb].
  replace a with z by lia. by replace b with 1 by lia.
Qed.

Lemma Qred_difference (l c : Z) :
  Qred (inject_Z c - inject_Z l) = inject_Z (c - l).
Proof.
  rewrite <- (Qred_inject_Z (c - l)). apply Qred_complete.
  unfold Qeq. simpl. lia.
Qed.

Lemma Qle_bool_inject_Z (l c : Z) : Qle_bool (inject_Z l) (inject_Z c) = (l <=? c).
Proof. unfold Qle_bool. simpl. by rewrite !Z.mul_1_r. Qed.

Lemma Qeq_bool_inject_Z (l : Z) : Qeq_bool (inject_Z l) 0 = (l =? 0).
Proof. unfold Qeq_bool. simpl. by rewrite Z.mul_1_r. Qed.

Lemma totals_and_trend s :
  exists_ s "expenses.total" = true
  ∧ exists_ s "income.total" = true
  ∧ exists_ s "accounts.netWorth" = true
  ∧ exists_ s "salary.trend" = true
  ∧ exists_ s "salary.change" = hasSalaryData s.
Proof.
  destruct (salary_figures s) as [Hboth Hmissing].
  assert (Hcases :
    (∃ t, get s "salary.trend" = VStr t)
    ∧ negb (is_null (get s "salary.change")) = hasSalaryData s).
  { destruct (getNumber s "salary.lastMonth") as [l|] eqn:Hl;
      destruct (getNumber s "salary.currentMonth") as [c|] eqn:Hcur.
    - destruct (Hboth l c eq_refl eq_refl) as (-> & -> & _ & ->). eauto.
    - destruct Hmissing as (-> & -> & _ & ->); [by right | eauto].
    - destruct Hmissing as (-> & -> & _ & ->); [by left | eauto].
    - destruct Hmissing as (-> & -> & _ & ->); [by left | eauto]. }
  destruct Hcases as [[t Ht] Hchange].
  unfold exists_.
  rewrite (has_computed s "expenses.total" _ eq_refl),
    (has_computed s "income.total" _ eq_refl),
    (has_computed s "accounts.netWorth" _ eq_refl),
    (has_computed s "salary.trend" _ eq_refl),
    (has_computed s "salary.change" _ eq_refl), Ht, Hchange.
  split_and!; try done.
  all: unfold get; cbn [get_at COMPUTABLE_FIELDS String.eqb Ascii.eqb Bool.eqb];
    done.
Qed.

Lemma totals_exist s : exists_ s "expenses.total" = true.
Proof. apply totals_and_trend. Qed.

(** X19: the figures derived on demand. With both salaries stored
    as integers below 2^52 in absolute value, on which the
    subtraction of the code is exact, the change is their difference,
    the trend is [up] exactly when the current salary is not below
    last month's (so equal salaries trend [up]) and [down] otherwise,
    and the percentage is [null] exactly when last month's salary is
    zero. With a salary missing or not a number, change and percentage
    are [null] and the trend is [neutral]. So the trend is never
    [null] and exists in every store, as do the three totals, while
    the change exists exactly when both salaries are there. *)
Theorem X19_salary_figures (s : DataStore) :
  (∀ l c : Z,
     Z.abs l < 2 ^ 52 → Z.abs c < 2 ^ 52 →
     getNumber s "salary.lastMonth" = Some (inject_Z l) →
     getNumber s "salary.currentMonth" = Some (inject_Z c) →
     get s "salary.change" = VNum (inject_Z (c - l))
     ∧ get s "salary.trend" = VStr (if l <=? c then "up" else "down")
     ∧ is_null (get s "salary.changePercent") = (l =? 0)
     ∧ hasSalaryData s = true)
  ∧ (getNumber s "salary.lastMonth" = None
     ∨ getNumber s "salary.currentMonth" = None →
     get s "salary.change" = VNull
     ∧ get s "salary.trend" = VStr "neutral"
     ∧ get s "salary.changePercent" = VNull
     ∧ hasSalaryData s = false)
  ∧ exists_ s "salary.trend" = true
  ∧ exists_ s "salary.change" = hasSalaryData s
  ∧ exists_ s "expenses.total" = true
  ∧ exists_ s "income.total" = true
  ∧ exists_ s "accounts.netWorth" = true.
Proof.
  destruct (salary_figures s) as [Hboth Hmissing].
  destruct (totals_and_trend s) as (? & ? & ? & ? & ?).
  split_and!; try done.
  intros l c _ _ Hl Hc.
  destruct (Hboth _ _ Hl Hc) as (-> & -> & -> & ->).
  rewrite Qred_difference, Qle_bool_inject_Z, Qeq_bool_inject_Z.
  split_and!; try done. by destruct (l =? 0).
Qed.


Lemma forComponent_fold s keys : ∀ result k,
  rec_get
    (fold_left
       (λ result key,
          if is_null (get s key) then result else rec_set result key (get s key))
       keys result) k
  = if bool_decide (k ∈ keys) && negb (is_null (get s k))
    then Some (get s k) else rec_get result k.
Proof.
  induction keys as [|key keys IH]; intros result k; cbn [fold_left].
  - by rewrite bool_decide_eq_false_2 by apply not_elem_of_nil.
  - rewrite IH. destruct (decide (k ∈ keys)) as [Hin|Hout].
    + rewrite (bool_decide_eq_true_2 (k ∈ keys)) by done.
      rewrite (bool_decide_eq_true_2 (k ∈ key :: keys)) by by right.
      cbn [andb].
      destruct (is_null (get s k)) eqn:Hk; cbn [negb]; [|done].
      destruct (is_null (get s key)) eqn:Hkey; [done|].
      rewrite rec_get_set. case_decide; [|done]. subst. congruence.
    + rewrite (bool_decide_eq_false_2 (k ∈ keys)) by done. cbn [andb].
      destruct (decide (k = key)) as [->|Hne].
      * rewrite (bool_decide_eq_true_2 (key ∈ key :: keys)) by by left.
        cbn [andb].
        destruct (is_null (get s key)); cbn [negb]; [done|].
        by rewrite rec_get_set_eq.
      * rewrite (bool_decide_eq_false_2 (k ∈ key :: keys))
          by (rewrite elem_of_cons; intros [?|?]; done).
        cbn [andb]. destruct (is_null (get s key)); [done|].
        by rewrite rec_get_set_ne.
Qed.

Lemma forComponent_fold_NoDup s keys : ∀ result,
  NoDup result.*1 →
  NoDup
    (fold_left
       (λ result key,
          if is_null (get s key) then result else rec_set result key (get s key))
       keys result).*1.
Proof.
  induction keys as [|key keys IH]; intros result Hresult; simpl; [done|].
  apply IH. destruct (is_null (get s key)); [done|].
  rewrite rec_set_keys.
  destruct (rec_get result key) eqn:Hkey; [done|].
  apply NoDup_app. split_and!; [done| |apply NoDup_singleton].
  intros k Hk ->%list_elem_of_singleton.
  by apply rec_get_None_keys in Hkey.
Qed.

(** X20: for a component type that is not a name inherited from
    [Object.prototype] (for which the lookup in the access table
    finds the inherited member), the data handed to a component holds
    a key exactly when the access table grants the key to the
    component's type and [get] answers for it with something other
    than [null], and then holds what [get] answers; no key occurs
    twice; a type without an entry in the table gets nothing. *)
Theorem X20_component_data_is_granted_data (s : DataStore) (componentType : string) :
  inherited componentType = false →
  NoDup (forComponent s componentType).*1
  ∧ (∀ k v,
       rec_get (forComponent s componentType) k = Some v
       ↔ k ∈ COMPONENT_DATA_ACCESS componentType
         ∧ v = get s k ∧ is_null v = false)
  ∧ (COMPONENT_DATA_ACCESS componentType = [] → forComponent s componentType = []).
Proof.
  intros _. unfold forComponent. split_and!.
  - apply forComponent_fold_NoDup. constructor.
  - intros k v. rewrite forComponent_fold. cbn [rec_get].
    destruct (decide (k ∈ COMPONENT_DATA_ACCESS componentType)) as [Hin|Hout].
    + rewrite bool_decide_eq_true_2 by done. cbn [andb].
      destruct (is_null (get s k)) eqn:Hk; cbn [negb].
      * split; [done|]. intros (_ & -> & ?). congruence.
      * split; [by intros [= <-] | by intros (_ & -> & _)].
    + rewrite bool_decide_eq_false_2 by done. cbn [andb].
      split; [done | by intros [? _]].
  - by intros ->.
Qed.

Lemma import_lookup entries : ∀ s k,
  NoDup entries.*1 →
  data (import s entries) !! k
  = match rec_get entries k with Some e => Some e | None => data s !! k end.
Proof.
  unfold import. induction entries as [|[key e] entries IH]; intros s k Hnd.
  - done.
  - simpl in Hnd. apply NoDup_cons in Hnd as [Hkey Hnd].
    simpl. rewrite IH by done. simpl.
    destruct (String.eqb_spec key k) as [->|Hne].
    + apply rec_get_None_keys in Hkey. rewrite Hkey.
      by rewrite lookup_insert_eq.
    + destruct (rec_get entries k); [done|]. by rewrite lookup_insert_ne.
Qed.

Lemma import_flags entries : ∀ s k,
  k ∈ userProvidedKeys (import s entries)
  ↔ k ∈ userProvidedKeys s
    ∨ ∃ e, (k, e) ∈ entries ∧ entry_source e = User.
Proof.
  unfold import. induction entries as [|[key e] entries IH]; intros s k.
  - simpl. split; [by left|]. intros [?|(e & []%elem_of_nil & _)]. done.
  - simpl. rewrite IH. simpl. split.
    + intros [Hk|(e' & He' & Hu)].
      * case_decide as Hsrc; [|by left].
        apply elem_of_union in Hk as [->%elem_of_singleton|Hk]; [|by left].
        right. exists e. split; [by left | done].
      * right. exists e'. split; [by right | done].
    + intros [Hk|(e' & He' & Hu)].
      * left. case_decide; [|done]. apply elem_of_union. by right.
      * apply elem_of_cons in He' as [[= -> ->]|He'].
        -- left. rewrite decide_True by done.
           apply elem_of_union. left. by apply elem_of_singleton.
        -- right. by exists e'.
Qed.

(** X21: [import] stores every entry it is given under its key, with
    the source and time the entry comes with, and leaves the other
    keys alone. A key becomes user-provided when an imported entry for
    it has source [user]; no import takes the mark away, so that a key
    the user had set and that is overwritten by an imported mock entry
    holds a mock-sourced entry and still counts as user-provided. *)
Theorem X21_import_overwrites_and_only_adds_marks
    (s : DataStore) (entries : list (string * DataEntry)) (k : string) :
  NoDup entries.*1 →
  data (import s entries) !! k
  = match rec_get entries k with Some e => Some e | None => data s !! k end
  ∧ (isUserProvided (import s entries) k = true
     ↔ isUserProvided s k = true
       ∨ ∃ e, rec_get entries k = Some e ∧ entry_source e = User)
  ∧ (∀ e, isUserProvided s k = true → rec_get entries k = Some e →
          entry_source e = Mock →
          isUserProvided (import s entries) k = true
          ∧ entry_source <$> data (import s entries) !! k = Some Mock).
Proof.
  intros Hnd.
  assert (Hflags : isUserProvided (import s entries) k = true
     ↔ isUserProvided s k = true
       ∨ ∃ e, rec_get entries k = Some e ∧ entry_source e = User).
  { unfold isUserProvided. rewrite !bool_decide_eq_true, import_flags.
    split; (intros [?|(e & He & Hu)]; [by left|]); right; exists e;
      (split; [|done]).
    - by apply rec_get_elem_NoDup.
    - by apply rec_get_Some_elem. }
  split_and!.
  - by apply import_lookup.
  - done.
  - intros e Hs He Hmock. split; [apply Hflags; by left|].
    rewrite import_lookup, He by done. simpl. by rewrite Hmock.
Qed.

Section with_runtime.
Context `{Runtime}.

Lemma mock_keys :
  MOCK_DATA.*1
  = [ "salary.lastMonth"; "salary.currentMonth"; "salary.previousMonth";
      "income.baseSalary"; "income.bonuses"; "income.overtime"; "income.other";
      "expenses.rent"; "expenses.utilities"; "expenses.groceries";
      "expenses.transport"; "expenses.entertainment"; "expenses.savings";
      "expenses.other"; "budget.total"; "budget.remaining"; "budget.spent";
      "accounts.checking"; "accounts.savings"; "accounts.investments";
      "accounts.retirement"; "debt.creditCard"; "debt.studentLoan";
      "debt.carLoan"; "debt.mortgage"; "goals.emergencyFund"; "goals.vacation";
      "goals.newCar"; "time.currentMonth"; "time.lastMonth" ].
Proof. done. Qed.

Lemma mock_keys_NoDup : NoDup MOCK_DATA.*1.
Proof. rewrite mock_keys. apply (bool_decide_unpack _). by vm_compute. Qed.

(** No default is kept under the key of a computed field. *)
Lemma mock_not_computable key v :
  rec_get MOCK_DATA key = Some v → COMPUTABLE_FIELDS key = None.
Proof.
  intros Hv. apply rec_get_Some_elem in Hv.
  assert (Hkey : key ∈ MOCK_DATA.*1).
  { apply list_elem_of_fmap. by exists (key, v). }
  rewrite mock_keys in Hkey.
  repeat (apply elem_of_cons in Hkey as [->|Hkey]; [done|]).
  by apply elem_of_nil in Hkey.
Qed.

(** X22: keys are taken among those that are not names inherited
    from [Object.prototype], which the lookup in the table of defaults
    finds as well. [resetToMock] on a key that has a default and is
    not one of the never-auto-populate keys stores the default as a
    mock entry, takes the user mark off the key, answers [true] and
    leaves every other key as it was; on any other key it answers
    [false] and changes nothing. *)
Theorem X22_resetToMock_restores_the_default
    (now : Z) (s : DataStore) (key : string) :
  inherited key = false →
  (∀ v, rec_get MOCK_DATA key = Some v → key ∉ USER_REQUIRED_FIELDS →
     (resetToMock now s key).2 = true
     ∧ data (resetToMock now s key).1 !! key = Some (mkEntry v Mock now)
     ∧ get (resetToMock now s key).1 key = v
     ∧ isUserProvided (resetToMock now s key).1 key = false
     ∧ ∀ k, k ≠ key →
         data (resetToMock now s key).1 !! k = data s !! k
         ∧ isUserProvided (resetToMock now s key).1 k = isUserProvided s k)
  ∧ (rec_get MOCK_DATA key = None ∨ key ∈ USER_REQUIRED_FIELDS →
     resetToMock now s key = (s, false)).
Proof.
  intros _. split.
  - intros v Hv Hkey.
    assert (Hreset : resetToMock now s key
      = (mkStore (<[key := mkEntry v Mock now]> (data s))
                 (userProvidedKeys s ∖ {[key]}), true)).
    { unfold resetToMock. rewrite Hv. by rewrite bool_decide_eq_false_2. }
    rewrite Hreset. cbn [fst snd]. split_and!.
    + done.
    + simpl. by rewrite lookup_insert_eq.
    + rewrite get_stored by (by apply (mock_not_computable key v)).
      simpl. by rewrite lookup_insert_eq.
    + unfold isUserProvided. simpl. apply bool_decide_eq_false_2.
      rewrite elem_of_difference, elem_of_singleton. by intros [_ ?].
    + intros k Hk. split.
      * simpl. by rewrite lookup_insert_ne.
      * unfold isUserProvided. simpl. apply bool_decide_ext.
        rewrite elem_of_difference, elem_of_singleton.
        split; [by intros [? _] | by intros ?; split].
  - intros [Hnone|Hreq].
    + unfold resetToMock. by rewrite Hnone.
    + by apply StoreFacts.resetToMock_required.
Qed.

Lemma initializeMockData_flags now l : ∀ s,
  userProvidedKeys
    (fold_left
       (λ s' kv,
          if bool_decide (kv.1 ∈ USER_REQUIRED_FIELDS) then s'
          else mkStore (<[kv.1 := mkEntry kv.2 Mock now]> (data s'))
                       (userProvidedKeys s'))
       l s)
  = userProvidedKeys s.
Proof.
  induction l as [|[key v] l IH]; intros s; simpl; [done|].
  rewrite IH. by case_bool_decide.
Qed.

Lemma initializeMockData_lookup now l : ∀ s k,
  NoDup l.*1 →
  data
    (fold_left
       (λ s' kv,
          if bool_decide (kv.1 ∈ USER_REQUIRED_FIELDS) then s'
          else mkStore (<[kv.1 := mkEntry kv.2 Mock now]> (data s'))
                       (userProvidedKeys s'))
       l s) !! k
  = match rec_get l k with
    | Some v =>
        if bool_decide (k ∈ USER_REQUIRED_FIELDS) then data s !! k
        else Some (mkEntry v Mock now)
    | None => data s !! k
    end.
Proof.
  induction l as [|[key v] l IH]; intros s k Hnd; [done|].
  simpl in Hnd. apply NoDup_cons in Hnd as [Hkey Hnd].
  simpl. rewrite IH by done.
  destruct (String.eqb_spec key k) as [->|Hne].
  - apply rec_get_None_keys in Hkey. rewrite Hkey.
    case_bool_decide; [done|]. simpl. by rewrite lookup_insert_eq.
  - assert (Hs : data (if bool_decide (key ∈ USER_REQUIRED_FIELDS) then s
                       else mkStore (<[key := mkEntry v Mock now]> (data s))
                                    (userProvidedKeys s)) !! k
                 = data s !! k).
    { case_bool_decide; [done|]. simpl. by rewrite lookup_insert_ne. }
    rewrite Hs. done.
Qed.

(** X23: a store as constructed, and any store after [clear()],
    holds the defaults of all keys outside the never-auto-populate
    set, each as a mock entry, and nothing else; no key is
    user-provided. Whatever the store held before [clear()] is
    forgotten. *)
Theorem X23_fresh_store_holds_the_defaults (now : Z) :
  (∀ k, data (newStore now) !! k
        = if bool_decide (k ∈ USER_REQUIRED_FIELDS) then None
          else (λ v, mkEntry v Mock now) <$> rec_get MOCK_DATA k)
  ∧ (∀ k, isUserProvided (newStore now) k = false)
  ∧ (∀ s, clear now s = newStore now)
  ∧ (∀ s k, isUserProvided (clear now s) k = false).
Proof.
  assert (Hflags : ∀ k, isUserProvided (newStore now) k = false).
  { intros k. unfold isUserProvided, newStore, initializeMockData.
    rewrite initializeMockData_flags. simpl.
    apply bool_decide_eq_false_2, not_elem_of_empty. }
  assert (Hclear : ∀ s, clear now s = newStore now).
  { intros s. unfold clear, newStore. reflexivity. }
  split_and!.
  - intros k. unfold newStore, initializeMockData.
    rewrite initializeMockData_lookup by apply mock_keys_NoDup.
    cbn [data]. rewrite lookup_empty.
    destruct (rec_get MOCK_DATA k); cbn [fmap option_fmap option_map];
      by case_bool_decide.
  - exact Hflags.
  - exact Hclear.
  - intros s k. rewrite Hclear. apply Hflags.
Qed.




End with_runtime.

End StoreMoreFacts.

(** ** More about the suggestion engine *)

Module PredictMoreFacts.
Import Predict PredictMore.

Lemma run_rules_Forall (P : PredictiveAction → Prop) context rules :
  Forall (λ rule : PredictionRule,
            ∀ l, rule context = Returned (Some l) → Forall P l) rules →
  ∀ acc out,
    Forall P acc → run_rules rules context acc = Returned out → Forall P out.
Proof.
  induction 1 as [|rule rules Hrule _ IH]; intros acc out Hacc; simpl.
  - by intros [= <-].
  - destruct (rule context) as [[l|]|] eqn:Hr; simpl; [| |done].
    + apply IH. apply Forall_app. split; [done | by apply Hrule].
    + apply IH. by rewrite app_nil_r.
Qed.

(** Every suggestion a built-in rule makes is confident. *)
Lemma built_in_rules_confident context :
  Forall (λ rule : PredictionRule,
            ∀ l, rule context = Returned (Some l) → Forall confident l)
         PREDICTION_RULES.
Proof.
  unfold PREDICTION_RULES, confident.
  repeat apply List.Forall_cons; try apply List.Forall_nil.
  - unfold emptyStateRule. intros l. destruct (has_id _ _); [|done].
    intros [= <-]. by repeat constructor.
  - unfold salaryComparisonRule. cbv zeta. intros l. destruct (_ && _); [|done].
    intros [= <-]. by repeat constructor.
  - unfold afterFormRule. cbv zeta. intros l. destruct (_ && _); [|done].
    intros [= <-]. by repeat constructor.
  - unfold expensesRule. intros l. destruct (some_of _ _) as [[]|]; simpl; [|done..].
    intros [= <-]. by repeat constructor.
  - unfold chartRule. cbv zeta. intros l. destruct (_ && _); [|done].
    intros [= <-]. by repeat constructor.
Qed.

Lemma confident_qualifies p : confident p → qualifies p = true.
Proof.
  unfold confident, qualifies, MIN_CONFIDENCE. intros Hp.
  apply Qle_bool_iff. eapply Qle_trans; [|exact Hp]. done.
Qed.

Lemma filter_confident l : Forall confident l → List.filter qualifies l = l.
Proof.
  induction 1 as [|p l Hp _ IH]; simpl; [done|].
  by rewrite confident_qualifies, IH.
Qed.

Lemma sort_insert_descending a l :
  StronglySorted descending l →
  StronglySorted descending (sort_insert confidence_before a l).
Proof.
  induction 1 as [|y l Hl IH Hy]; simpl; [repeat constructor|].
  destruct (confidence_before y a) eqn:E.
  - apply PredictFacts.confidence_before_spec in E.
    constructor; [done|]. rewrite PredictFacts.sort_insert_perm.
    constructor; [by apply Qlt_le_weak | done].
  - assert (Hya : (confidence y <= confidence a)%Q).
    { apply Qnot_lt_le. intros Hlt.
      apply PredictFacts.confidence_before_spec in Hlt. congruence. }
    constructor; [by constructor|].
    constructor; [done|].
    eapply Forall_impl; [exact Hy|]. unfold descending. intros z Hz.
    by eapply Qle_trans.
Qed.

Lemma stable_sort_descending l :
  StronglySorted descending (stable_sort confidence_before l).
Proof.
  induction l as [|a l IH]; simpl; [constructor | by apply sort_insert_descending].
Qed.

Lemma StronglySorted_take {A} (R : A → A → Prop) n (l : list A) :
  StronglySorted R l → StronglySorted R (take n l).
Proof.
  intros Hl. revert n. induction Hl as [|a l Hl IH Ha]; intros [|n]; simpl;
    try constructor; [apply IH | by apply Forall_take].
Qed.

Lemma shouldShow_confident l :
  Forall confident l → shouldShowPredictions l = (0 <? length l)%nat.
Proof.
  unfold shouldShowPredictions. intros [|p l' Hp _]; [done|].
  simpl. apply Qle_bool_iff in Hp. by rewrite Hp.
Qed.

(** X25: what the built-in rules can suggest. Every suggestion they
    make has confidence 0.6 or more, so the 0.5 threshold drops none of
    them; the answer of [getPredictiveActions] holds at most three
    suggestions, in descending confidence; and for such an answer
    [shouldShowPredictions] holds exactly when the answer is not empty. *)
Theorem X25_built_in_suggestions_are_confident
    (context : PredictionContext) (allSuggestions : list PredictiveAction) :
  run_rules PREDICTION_RULES context [] = Returned allSuggestions →
  Forall confident allSuggestions
  ∧ List.filter qualifies allSuggestions = allSuggestions
  ∧ ∃ predictions,
      getPredictiveActions context = Returned predictions
      ∧ (length predictions ≤ MAX_SUGGESTIONS)%nat
      ∧ Forall confident predictions
      ∧ StronglySorted descending predictions
      ∧ shouldShowPredictions predictions = (0 <? length predictions)%nat.
Proof.
  intros Hrun.
  assert (Hall : Forall confident allSuggestions).
  { apply (run_rules_Forall confident context PREDICTION_RULES
             (built_in_rules_confident context) [] _ (Forall_nil_2 _) Hrun). }
  assert (Hkept : Forall confident (rank allSuggestions)).
  { unfold rank. apply Forall_take.
    rewrite PredictFacts.stable_sort_perm. by rewrite filter_confident. }
  split_and!; [done | by apply filter_confident |].
  exists (rank allSuggestions). split_and!.
  - unfold getPredictiveActions, getPredictiveActions_with. by rewrite Hrun.
  - unfold rank. rewrite length_take. lia.
  - done.
  - unfold rank. apply StronglySorted_take, stable_sort_descending.
  - by apply shouldShow_confident.
Qed.

Lemma some_of_thrown {A} (f : A → outcome bool) (l : list A) :
  some_of f l = Thrown
  ↔ ∃ before x after,
      l = before ++ x :: after
      ∧ Forall (λ y, f y = Returned false) before
      ∧ f x = Thrown.
Proof.
  induction l as [|y l IH]; simpl.
  - split; [done|]. intros (before & x & after & Hl & _). by destruct before.
  - destruct (f y) as [[]|] eqn:Hy; simpl.
    + split; [done|]. intros ([|y' before] & x & after & Hl & Hb & Hx).
      * injection Hl as -> ->. congruence.
      * injection Hl as -> ->. apply Forall_cons in Hb as [Hb _]. congruence.
    + rewrite IH. split.
      * intros (before & x & after & -> & Hb & Hx).
        exists (y :: before), x, after. split_and!; [done | by constructor | done].
      * intros ([|y' before] & x & after & Hl & Hb & Hx).
        -- injection Hl as -> ->. congruence.
        -- injection Hl as -> ->. apply Forall_cons in Hb as [_ Hb].
           by exists before, x, after.
    + split; [|done]. intros _. exists [], y, l. by split_and!.
Qed.

(** X26: [getPredictiveActions] raises exactly when the scan of the
    components' [cards] props by the expenses rule raises: some
    component makes it raise, and no component in front of it has a
    card that mentions expenses, at which the scan would have
    stopped. No other rule raises; otherwise an answer is returned. *)
Theorem X26_suggestions_raise_only_in_the_cards_scan (context : PredictionContext) :
  (getPredictiveActions context = Thrown
   ↔ ∃ before c after,
       currentComponents context = before ++ c :: after
       ∧ Forall (λ c', expense_cards c' = Returned false) before
       ∧ expense_cards c = Thrown)
  ∧ (getPredictiveActions context ≠ Thrown →
     ∃ predictions, getPredictiveActions context = Returned predictions).
Proof.
  split.
  - rewrite <- (some_of_thrown expense_cards).
    unfold getPredictiveActions, getPredictiveActions_with, PREDICTION_RULES.
    cbn [run_rules]. unfold emptyStateRule at 1. cbn [obind].
    unfold salaryComparisonRule at 1. cbn [obind].
    unfold afterFormRule at 1. cbn [obind].
    unfold expensesRule at 1. unfold expense_cards.
    destruct (some_of _ _) as [b|]; cbn [obind]; [|done].
    unfold chartRule at 1. cbn [obind]. done.
  - destruct (getPredictiveActions context) as [predictions|]; [|done].
    intros _. by exists predictions.
Qed.

End PredictMoreFacts.

(** ** More about the orchestrator *)

Module OrchestratorMoreFacts.
Import UI UIMore Orchestrator OrchestratorMore.

Lemma remove_all_state e :
  eng_state (dispatch_each e (map Remove (st_keys (eng_state e)))) = [].
Proof.
  pose proof (UIMoreFacts.batch_as_sequence (map Remove (st_keys (eng_state e))) e)
    as Hseq.
  rewrite UIMoreFacts.reduce_batch, UIMoreFacts.remove_all_loop in Hseq.
  by injection Hseq as _ <- _ _ _ _.
Qed.

Lemma dispatch_all_engine w l : uiEngine (dispatch_all w l) = dispatch_each (uiEngine w) l.
Proof. done. Qed.

Section with_runtime.
Context `{Runtime}.

(** X27: confirming never touches the fact store or the memory. For
    every id that starts with [confirm-], the id [confirm-data-deletion]
    included, all components are removed and the tree is left holding
    the one component [empty-state] titled [Screen Cleared]; the branch
    that would clear the store is never reached. For any other id
    nothing happens at all. *)
Theorem X27_confirm_clears_the_screen_only
    (now : Z) (w : World) (actionId : string) :
  dataStore (confirmDestructiveAction now w actionId).1 = dataStore w
  ∧ intentMemory (confirmDestructiveAction now w actionId).1 = intentMemory w
  ∧ (Str.startsWith actionId "confirm-" = true →
     getState (uiEngine (confirmDestructiveAction now w actionId).1)
     = [("empty-state", attachHandlers screen_cleared (handlerRegistry w))]
     ∧ render (confirmDestructiveAction now w actionId).2
       = [attachHandlers screen_cleared (handlerRegistry w)]
     ∧ remove (confirmDestructiveAction now w actionId).2
       = st_keys (getState (uiEngine w))
     ∧ update (confirmDestructiveAction now w actionId).2 = [])
  ∧ (Str.startsWith actionId "confirm-" = false →
     confirmDestructiveAction now w actionId = (w, mkOrchestratorAction [] [] [])).
Proof.
  split_and!.
  - apply OrchestratorFacts.confirmDestructiveAction_store.
  - unfold confirmDestructiveAction.
    destruct (_ || _); [done|]. by destruct (String.eqb _ _).
  - intros Hstarts. unfold confirmDestructiveAction.
    rewrite Hstarts, orb_true_r.
    cbn [render remove update map fst snd]. split_and!; try done.
    rewrite !dispatch_all_engine. unfold getState, dispatch_each at 1.
    cbn [fold_left map]. rewrite UIFacts.dispatch_state, UIFacts.dispatch_result.
    rewrite remove_all_state. done.
  - intros Hstarts. unfold confirmDestructiveAction. rewrite Hstarts, orb_false_r.
    destruct (String.eqb_spec actionId "confirm-clear") as [->|_];
      [by vm_compute in Hstarts|].
    destruct (String.eqb_spec actionId "confirm-data-deletion") as [->|_];
      [by vm_compute in Hstarts|].
    cbn [render remove update map]. by rewrite !OrchestratorFacts.dispatch_all_nil.
Qed.

(** X28: what the simulated model answers. Every answer renders one
    or two components, all visible and with an explicit order, and
    updates none. The expense total is computed, so it exists in every
    store, and no answer ever renders the form [expense-data-form]
    that asks for it. *)
Theorem X28_answers_render_and_never_ask_for_expenses
    (w : World) (userInput : string) :
  resp_update (simulateAIResponse w userInput) = []
  ∧ (1 ≤ length (resp_render (simulateAIResponse w userInput)) ≤ 2)%nat
  ∧ Forall (λ c, comp_visible c = true ∧ is_Some (comp_order c)
                 ∧ comp_id c ≠ "expense-data-form")
           (resp_render (simulateAIResponse w userInput))
  ∧ Store.exists_ (dataStore w) "expenses.total" = true.
Proof.
  assert (Hexists : Store.exists_ (dataStore w) "expenses.total" = true)
    by apply StoreMoreFacts.totals_exist.
  split; [apply OrchestratorFacts.simulateAIResponse_update|].
  split; [|split; [|done]].
  - unfold simulateAIResponse. cbv zeta. rewrite Hexists. cbn [negb].
    repeat (match goal with
            | |- context [if ?b then _ else _] => destruct b
            end; try (cbn [resp_render length comparison_components]; lia)).
  - unfold simulateAIResponse. cbv zeta. rewrite Hexists. cbn [negb].
    repeat (match goal with
            | |- context [if ?b then _ else _] => destruct b
            end;
            try (cbn [resp_render comparison_components];
                 repeat apply List.Forall_cons; try apply List.Forall_nil;
                 (split_and!; [done | by eexists | done]))).
Qed.






Lemma dispatch_each_app e l1 l2 :
  dispatch_each (dispatch_each e l1) l2 = dispatch_each e (l1 ++ l2).
Proof. unfold dispatch_each. by rewrite fold_left_app. Qed.

(** X30: what carrying out a response does. The removals, the
    updates and the renders are dispatched one by one, in this order,
    each render with its handlers attached; the fact store and the
    handler registry are not touched. When the suggestion rules
    answer, the bar [predictive-actions] is rendered last if it is to
    be shown, the version has grown by one for every id the action
    lists, and exactly one intent is appended to the cleaned-up log:
    it carries the time of the call, the response's notes and the ids
    removed, updated and rendered, in this order. When the rules
    raise, the edits stay applied and the memory is as it was. *)
Theorem X30_execute_applies_and_records
    (now : Z) (random : string) (w : World) (response : OrchestratorResponse) :
  let result := executeOrchestratorActions now random w response in
  let rendered :=
    map (λ comp, attachHandlers comp (handlerRegistry w)) (resp_render response) in
  let edits :=
    map Remove (resp_remove response)
      ++ map (λ u, Update u.1 u.2) (resp_update response)
      ++ map Render rendered in
  dataStore result.1 = dataStore w
  ∧ handlerRegistry result.1 = handlerRegistry w
  ∧ (∀ a, result.2 = Returned a →
       remove a = resp_remove response
       ∧ update a = resp_update response
       ∧ (∃ bar,
            render a = rendered ++ bar
            ∧ (length bar ≤ 1)%nat
            ∧ Forall (λ c, comp_id c = "predictive-actions") bar
            ∧ uiEngine result.1
              = dispatch_each (uiEngine w) (edits ++ map Render bar))
       ∧ getVersion (uiEngine result.1)
         = getVersion (uiEngine w) + Z.of_nat (length (affectedIds a))
       ∧ Memory.intents (intentMemory result.1)
         = Memory.intents (Memory.cleanup now (intentMemory w))
             ++ [Memory.mkIntent
                   ("intent_" +:+ pretty now +:+ "_" +:+ random) now
                   (if String.eqb (notes response) ""
                    then "User request processed" else notes response)
                   "ui_orchestration" (affectedIds a)])
  ∧ (result.2 = Thrown →
     uiEngine result.1 = dispatch_each (uiEngine w) edits
     ∧ intentMemory result.1 = intentMemory w).
Proof.
  intros result rendered edits.
  assert (Hedits :
    uiEngine
      (dispatch_all
         (dispatch_all (dispatch_all w (map Remove (resp_remove response)))
                       (map (λ u, Update u.1 u.2) (resp_update response)))
         (map Render rendered))
    = dispatch_each (uiEngine w) edits).
  { by rewrite !dispatch_all_engine, !dispatch_each_app. }
  split; [apply OrchestratorFacts.execute_store|].
  unfold result, executeOrchestratorActions. cbv zeta.
  fold rendered.
  destruct (Predict.getPredictiveActions _) as [predictions|].
  - destruct (Predict.shouldShowPredictions predictions).
    + cbn [fst snd]. split; [done|]. split; [|done].
      intros a [= <-]. cbn [remove update render]. split_and!; try done.
      * exists [predictiveAction predictions]. split_and!; try done.
        -- by repeat constructor.
        -- cbn [uiEngine with_memory]. rewrite dispatch_all_engine, Hedits.
           by rewrite dispatch_each_app.
      * cbn [uiEngine with_memory]. rewrite dispatch_all_engine, Hedits.
        unfold getVersion. rewrite !UIFacts.dispatch_each_version.
        unfold affectedIds, edits. cbn [remove update render].
        rewrite !length_app, !length_map, length_app. simpl. lia.
      * cbn [intentMemory with_memory].
        rewrite MemoryMoreFacts.indexComponents_intents.
        by rewrite MemoryFacts.recordIntent_intents.
    + cbn [fst snd]. split; [done|]. split; [|done].
      intros a [= <-]. cbn [remove update render]. split_and!; try done.
      * exists []. rewrite !app_nil_r. split_and!; try done. simpl. lia.
      * cbn [uiEngine with_memory]. rewrite Hedits.
        unfold getVersion. rewrite !UIFacts.dispatch_each_version.
        unfold affectedIds, edits. cbn [remove update render].
        rewrite !length_app, !length_map. lia.
      * cbn [intentMemory with_memory].
        rewrite MemoryMoreFacts.indexComponents_intents.
        by rewrite MemoryFacts.recordIntent_intents.
  - cbn [fst snd]. split; [done|]. split; [done|]. intros _.
    by rewrite Hedits.
Qed.

End with_runtime.

End OrchestratorMoreFacts.

(** ** The further properties on sample data *)

Module MoreChecks.
Import UI UIMore Examples MoreExamples.

(** X2 on [engine_with_chart]. *)
Lemma X2_witness :
  tree_wf (getState engine_with_chart)
  ∧ Forall (λ a, typed_edit a = true)
           [Hide "chart-1"; Remove "toString"; Render chart_again]
  ∧ tree_wf (getState (dispatch_each engine_with_chart
                         [Hide "chart-1"; Remove "toString"; Render chart_again])).
Proof.
  assert (Hwf : tree_wf (getState engine_with_chart)).
  { split; [apply NoDup_singleton | by repeat constructor]. }
  assert (Htyped : Forall (λ a, typed_edit a = true)
                     [Hide "chart-1"; Remove "toString"; Render chart_again]).
  { by repeat constructor. }
  split; [exact Hwf|]. split; [exact Htyped|].
  exact (UIMoreFacts.X2_tree_stays_well_formed
           engine_with_chart [Hide "chart-1"; Remove "toString"; Render chart_again]
           Hwf Htyped).
Defined.

(** X3 on the empty engine and [chart]. *)
Lemma X3_witness :
  getComponent newEngine (comp_id chart) = None
  ∧ inherited (comp_id chart) = false
  ∧ getState (dispatch (dispatch newEngine (Render chart)).1
                       (Remove (comp_id chart))).1
    = getState newEngine.
Proof.
  split; [reflexivity|]. split; [reflexivity|].
  exact (proj1 (proj1 (UIMoreFacts.X3_round_trips_restore_the_tree newEngine)
                      chart eq_refl eq_refl)).
Defined.

(** X4 on [engine_with_chart]. *)
Lemma X4_witness :
  getComponent engine_with_chart "chart-1" = Some chart
  ∧ st_keys (getState (dispatch engine_with_chart
                                (Update "chart-1" (comp_props chart_again))).1)
    = st_keys (getState engine_with_chart).
Proof.
  split; [reflexivity|].
  exact (proj2 (proj2 (UIMoreFacts.X4_update_merges_props
                         engine_with_chart "chart-1" chart
                         (comp_props chart_again) eq_refl))).
Defined.

(** X6 on [engine_with_chart]: [unordered_note] takes the order 0. *)
Lemma X6_witness :
  getComponent engine_with_chart (comp_id unordered_note) = None
  ∧ inherited (comp_id unordered_note) = false
  ∧ comp_order unordered_note = None
  ∧ getComponent (dispatch engine_with_chart (Render unordered_note)).1
                 (comp_id unordered_note)
    = Some (with_order unordered_note (Some (eng_nextOrder engine_with_chart)))
  ∧ eng_nextOrder (dispatch engine_with_chart (Render unordered_note)).1
    = eng_nextOrder engine_with_chart + 1.
Proof.
  split; [reflexivity|]. split; [reflexivity|]. split; [reflexivity|].
  exact (proj1 (proj2 (UIMoreFacts.X6_automatic_order engine_with_chart))
               unordered_note eq_refl eq_refl eq_refl).
Defined.

(** X8: a new listener on [engine_with_chart]. *)
Lemma X8_witness :
  (7%nat ∉ eng_listeners engine_with_chart)
  ∧ unsubscribe (subscribe engine_with_chart 7) 7 = engine_with_chart.
Proof.
  assert (Hnew : 7%nat ∉ eng_listeners engine_with_chart)
    by apply not_elem_of_nil.
  split; [exact Hnew|].
  exact (proj1 (proj2 (UIMoreFacts.X8_listeners_are_notified_once_per_dispatch
                         engine_with_chart 7)) Hnew).
Defined.

(** X9: a key bound in one letter case resolves in another. *)
Lemma X9_witness :
  Str.is_ascii "Chart" = true ∧ Str.is_ascii "CHART" = true
  ∧ Str.toLowerCase "CHART" = Str.toLowerCase "Chart"
  ∧ Memory.resolveReference
      (Memory.setReference 0 (Memory.newMemory None None) "Chart" "chart-1"
                           None None) "CHART"
    = Some "chart-1".
Proof.
  split; [reflexivity|]. split; [reflexivity|]. split; [reflexivity|].
  exact (proj1 (proj1 (MemoryMoreFacts.X9_references_ignore_case
                         0 (Memory.newMemory None None) "Chart" "CHART" "chart-1"
                         None None eq_refl eq_refl) eq_refl)).
Defined.

(** X14 on [memory_with_chart] and a text that mentions the chart. *)
Lemma X14_witness :
  Forall (λ ref, inherited (Memory.cleanReference ref) = false)
         (Memory.extractReferences "hide the chart")
  ∧ NoDup (Memory.resolveReferencesInText memory_with_chart "hide the chart" []).
Proof.
  assert (Hrefs : Forall (λ ref, inherited (Memory.cleanReference ref) = false)
                         (Memory.extractReferences "hide the chart")).
  { by repeat constructor. }
  split; [exact Hrefs|].
  exact (proj1 (MemoryMoreFacts.X14_resolved_ids_come_from_memory_or_map
                  memory_with_chart "hide the chart" [] Hrefs)).
Defined.


(** X15 on a single component. *)
Lemma X15_witness :
  [chart] ≠ []
  ∧ ∃ c1 cn,
      c1 ∈ [chart] ∧ cn ∈ [chart]
      ∧ Forall (λ c, order_key c1 ≤ order_key c) [chart]
      ∧ Forall (λ c, order_key c ≤ order_key cn) [chart]
      ∧ Memory.resolveReference
          (Memory.indexComponents 0 (Memory.newMemory None None) [chart]) "first"
        = Some (comp_id c1)
      ∧ Memory.resolveReference
          (Memory.indexComponents 0 (Memory.newMemory None None) [chart]) "last"
        = Some (comp_id cn).
Proof.
  assert (Hne : [chart] ≠ []) by done.
  split; [exact Hne|].
  exact (proj2 (proj2 (MemoryMoreFacts.X15_index_binds_first_and_last
                         0 (Memory.newMemory None None) [chart])) Hne).
Defined.

(** X17 on a new store: a salary is stored and read back. *)
Lemma X17_witness :
  Store.COMPUTABLE_FIELDS "salary.lastMonth" = None
  ∧ inherited "salary.lastMonth" = false
  ∧ Store.get (Store.set 1 (Store.newStore (H := ReferenceRuntime.runtime) 0)
                         "salary.lastMonth" (num 5000)) "salary.lastMonth"
    = num 5000.
Proof.
  split; [reflexivity|]. split; [reflexivity|].
  exact (proj1 (StoreMoreFacts.X17_set_get_delete
                  1 1 (Store.newStore (H := ReferenceRuntime.runtime) 0)
                  "salary.lastMonth" (num 5000) eq_refl eq_refl)).
Defined.

(** X18 on a new store: a value stored under [expenses.total] is not
    what [get] answers. *)
Lemma X18_witness :
  is_Some (Store.COMPUTABLE_FIELDS "expenses.total")
  ∧ Store.get (Store.set 1 (Store.newStore (H := ReferenceRuntime.runtime) 0)
                         "expenses.total" (num 1)) "expenses.total"
    = Store.get (Store.newStore (H := ReferenceRuntime.runtime) 0) "expenses.total".
Proof.
  split; [by eexists|].
  exact (proj1 (StoreMoreFacts.X18_computed_fields_ignore_writes
                  1 1 (Store.newStore (H := ReferenceRuntime.runtime) 0)
                  "expenses.total" (num 1) _ eq_refl) "expenses.total").
Defined.

(** X19 on [store_with_salaries]: the salary went up. *)
Lemma X19_witness :
  Z.abs 5000 < 2 ^ 52 ∧ Z.abs 5500 < 2 ^ 52
  ∧ Store.getNumber store_with_salaries "salary.lastMonth" = Some (inject_Z 5000)
  ∧ Store.getNumber store_with_salaries "salary.currentMonth" = Some (inject_Z 5500)
  ∧ Store.get store_with_salaries "salary.change" = VNum (inject_Z (5500 - 5000)).
Proof.
  assert (Hsmall : Z.abs 5000 < 2 ^ 52) by done.
  assert (Hsmall' : Z.abs 5500 < 2 ^ 52) by done.
  assert (Hl : Store.getNumber store_with_salaries "salary.lastMonth"
               = Some (inject_Z 5000)) by (by vm_compute).
  assert (Hc : Store.getNumber store_with_salaries "salary.currentMonth"
               = Some (inject_Z 5500)) by (by vm_compute).
  split; [exact Hsmall|]. split; [exact Hsmall'|].
  split; [exact Hl|]. split; [exact Hc|].
  exact (proj1 (proj1 (StoreMoreFacts.X19_salary_figures store_with_salaries)
                      5000 5500 Hsmall Hsmall' Hl Hc)).
Defined.

(** X20: what a [ChartView] is handed from [store_with_salaries]. *)
Lemma X20_witness :
  inherited "ChartView" = false
  ∧ NoDup (Store.forComponent store_with_salaries "ChartView").*1.
Proof.
  split; [reflexivity|].
  exact (proj1 (StoreMoreFacts.X20_component_data_is_granted_data
                  store_with_salaries "ChartView" eq_refl)).
Defined.

(** X21: importing one entry into a new store. *)
Lemma X21_witness :
  NoDup [("salary.lastMonth", mocked_salary)].*1
  ∧ Store.data store_after_import !! "salary.lastMonth" = Some mocked_salary.
Proof.
  assert (Hnd : NoDup [("salary.lastMonth", mocked_salary)].*1)
    by apply NoDup_singleton.
  split; [exact Hnd|].
  exact (proj1 (StoreMoreFacts.X21_import_overwrites_and_only_adds_marks
                  (Store.newStore (H := ReferenceRuntime.runtime) 0)
                  [("salary.lastMonth", mocked_salary)] "salary.lastMonth" Hnd)).
Defined.

(** X22: the rent, overwritten by the user, is reset. *)
Lemma X22_witness :
  inherited "expenses.rent" = false
  ∧ rec_get (Store.MOCK_DATA (H := ReferenceRuntime.runtime)) "expenses.rent"
    = Some (num 1500)
  ∧ ("expenses.rent" ∉ Store.USER_REQUIRED_FIELDS)
  ∧ (Store.resetToMock (H := ReferenceRuntime.runtime) 2
       (Store.set 1 (Store.newStore (H := ReferenceRuntime.runtime) 0)
                  "expenses.rent" (num 1))
       "expenses.rent").2 = true.
Proof.
  assert (Hopt : "expenses.rent" ∉ Store.USER_REQUIRED_FIELDS).
  { intros Hk%StoreFacts.required_cases. by destruct_or!. }
  split; [reflexivity|]. split; [reflexivity|]. split; [exact Hopt|].
  exact (proj1 (proj1 (StoreMoreFacts.X22_resetToMock_restores_the_default
                         (H := ReferenceRuntime.runtime) 2
                         (Store.set 1 (Store.newStore (H := ReferenceRuntime.runtime) 0)
                                    "expenses.rent" (num 1))
                         "expenses.rent" eq_refl) (num 1500) eq_refl Hopt)).
Defined.


(** X25 on [busy_context]. *)
Lemma X25_witness :
  ∃ predictions,
    Predict.getPredictiveActions busy_context = Returned predictions
    ∧ (length predictions ≤ Predict.MAX_SUGGESTIONS)%nat
    ∧ Forall PredictMore.confident predictions
    ∧ StronglySorted PredictMore.descending predictions
    ∧ Predict.shouldShowPredictions predictions = (0 <? length predictions)%nat.
Proof.
  refine (proj2 (proj2 (PredictMoreFacts.X25_built_in_suggestions_are_confident
                          busy_context _ _))).
  cbv. reflexivity.
Defined.

(** X26 on [raising_context]: the scan raises at the only component. *)
Lemma X26_witness : Predict.getPredictiveActions raising_context = Thrown.
Proof.
  apply (proj1 (PredictMoreFacts.X26_suggestions_raise_only_in_the_cards_scan
                  raising_context)).
  exists [], odd_cards, []. split_and!; [reflexivity | constructor | by vm_compute].
Defined.

(** X27: confirming the deletion of data on the initial world. *)
Lemma X27_witness :
  Str.startsWith "confirm-data-deletion" "confirm-" = true
  ∧ Orchestrator.dataStore
      (Orchestrator.confirmDestructiveAction (H := ReferenceRuntime.runtime)
         5 world0 "confirm-data-deletion").1
    = Orchestrator.dataStore world0
  ∧ getState
      (Orchestrator.uiEngine
         (Orchestrator.confirmDestructiveAction (H := ReferenceRuntime.runtime)
            5 world0 "confirm-data-deletion").1)
    = [("empty-state",
        Orchestrator.attachHandlers OrchestratorMore.screen_cleared
          (Orchestrator.handlerRegistry world0))].
Proof.
  split; [reflexivity|].
  split.
  - exact (proj1 (OrchestratorMoreFacts.X27_confirm_clears_the_screen_only
                    (H := ReferenceRuntime.runtime) 5 world0 "confirm-data-deletion")).
  - exact (proj1 (proj1 (proj2 (proj2
             (OrchestratorMoreFacts.X27_confirm_clears_the_screen_only
                (H := ReferenceRuntime.runtime) 5 world0 "confirm-data-deletion")))
             eq_refl)).
Defined.


(** X30: a removal carried out on the initial world. *)
Lemma X30_witness :
  (Orchestrator.executeOrchestratorActions
     5 "r" world0 removal_only).2
  = Returned (Orchestrator.mkOrchestratorAction [] ["chart-1"] [])
  ∧ getVersion
      (Orchestrator.uiEngine
         (Orchestrator.executeOrchestratorActions
            5 "r" world0 removal_only).1)
    = getVersion (Orchestrator.uiEngine world0)
      + Z.of_nat
          (length (OrchestratorMore.affectedIds
                     (Orchestrator.mkOrchestratorAction [] ["chart-1"] []))).
Proof.
  assert (Ha : (Orchestrator.executeOrchestratorActions 5 "r" world0 removal_only).2
               = Returned (Orchestrator.mkOrchestratorAction [] ["chart-1"] []))
    by (by vm_compute).
  split; [exact Ha|].
  exact (proj1 (proj2 (proj2 (proj2 (proj1 (proj2 (proj2
           (OrchestratorMoreFacts.X30_execute_applies_and_records
              5 "r" world0 removal_only)))
           _ Ha))))).
Defined.

End MoreChecks.
